(** * Azure DevOps to GitHub migration tool: the repository migration orchestrator

    A shallow embedding of the server side of the tool:
    - [shared/schema.ts]: the migration record and its status enumeration;
    - [server/storage.ts]: [MemStorage], the in-memory registry and its
      single-field mutators;
    - [server/routes.ts]: [sanitizeRepoName], [migrateRepository] (the
      transfer engine), the storage-facing part of the migration routes,
      the token middlewares and the two validation routes;
    and of the request loop of the browser:
    - [client/src/lib/github.ts]: [createGitHubRepository].

    Conventions.  A JavaScript string is a sequence of code units; the model
    covers code units below 256, one [ascii] each.  Numbers that the code
    uses as integers are [Z].  A [Date] is the integer it wraps.  Exceptions
    are values of [JsError] carried by [Throw].  Everything outside the
    process (the token cipher, the file system, [git], the GitHub API, the
    clock) answers through an [Env] record of oracles. *)

From Stdlib Require Import ZArith List String Ascii Bool Lia.
From Stdlib Require DecimalString.
Import ListNotations.

Open Scope string_scope.
Open Scope Z_scope.

(* ================================================================== *)
(** * JavaScript runtime fragments *)

Module Js.

(** ** Exceptions *)

(** The part of an axios failure that the code inspects:
    [error.response.status] and [error.response.data.message]. *)
Record Response := mkResponse {
  resp_status : Z;
  resp_data_message : option string
}.

(** A thrown value: [error.message] and, for axios failures that carry
    one, [error.response]. *)
Record JsError := mkError {
  err_message : string;
  err_response : option Response
}.

(** [new Error(msg)] *)
Definition Error (msg : string) : JsError :=
  {| err_message := msg; err_response := None |}.

Inductive Result (A : Type) : Type :=
| Ok (a : A)
| Throw (e : JsError).
Arguments Ok {A} a.
Arguments Throw {A} e.

(** [a || b] on strings that may be [undefined]: the first truthy operand;
    the empty string is falsy. *)
Definition truthy (o : option string) : option string :=
  match o with
  | Some EmptyString => None
  | other => other
  end.

Definition or_else (o : option string) (dflt : string) : string :=
  match truthy o with
  | Some s => s
  | None => dflt
  end.

(** ** Strings *)

Definition code (c : ascii) : nat := nat_of_ascii c.

Definition between (lo hi n : nat) : bool :=
  (Nat.leb lo n && Nat.leb n hi)%bool.

(** [String.prototype.toLowerCase] on one code unit below 256: the
    letters A-Z, and the Latin-1 capitals U+00C0..U+00DE except U+00D7. *)
Definition lower_unit (c : ascii) : ascii :=
  let n := code c in
  if between 65 90 n then ascii_of_nat (n + 32)
  else if (between 192 222 n && negb (Nat.eqb n 215))%bool
       then ascii_of_nat (n + 32)
       else c.

Fixpoint map_units (f : ascii -> ascii) (s : string) : string :=
  match s with
  | EmptyString => EmptyString
  | String c rest => String (f c) (map_units f rest)
  end.

Definition toLowerCase (s : string) : string := map_units lower_unit s.

(** [s.split(sep)] for a non-empty separator [sep].  [skip] counts the
    code units of a separator occurrence that are still to be passed. *)
Fixpoint split_from (sep : string) (skip : nat) (s : string) : list string :=
  match s with
  | EmptyString => [EmptyString]
  | String c rest =>
      match skip with
      | S k => split_from sep k rest
      | O =>
          if prefix sep s
          then EmptyString :: split_from sep (Nat.pred (length sep)) rest
          else match split_from sep O rest with
               | piece :: pieces => String c piece :: pieces
               | [] => [String c EmptyString]
               end
      end
  end.

Definition split (sep s : string) : list string := split_from sep O s.

(** [arr.slice(-2)] *)
Definition slice_last2 {A : Type} (arr : list A) : list A :=
  skipn (Nat.sub (List.length arr) 2) arr.

(** A template-literal hole [${x}] where [x] may be [undefined]. *)
Definition interpolate (x : option string) : string :=
  match x with
  | Some s => s
  | None => "undefined"
  end.

(** [hay.includes(needle)] *)
Fixpoint includes (needle hay : string) : bool :=
  if prefix needle hay then true
  else match hay with
       | EmptyString => false
       | String _ rest => includes needle rest
       end.

Definition dquote : string := String "034"%char EmptyString.
Definition newline : string := String "010"%char EmptyString.

(** ** [Map] with number keys

    A JavaScript [Map] keeps its entries in insertion order; [set] on a
    key that is present replaces the value in place. *)
Section JsMap.
Context {V : Type}.

Definition JsMap := list (Z * V).

Fixpoint map_get (k : Z) (m : JsMap) : option V :=
  match m with
  | [] => None
  | (k', v) :: rest => if k' =? k then Some v else map_get k rest
  end.

Fixpoint map_set (k : Z) (v : V) (m : JsMap) : JsMap :=
  match m with
  | [] => [(k, v)]
  | (k', v') :: rest =>
      if k' =? k then (k, v) :: rest else (k', v') :: map_set k v rest
  end.

Definition map_keys (m : JsMap) : list Z := map fst m.
Definition map_values (m : JsMap) : list V := map snd m.
End JsMap.
Arguments JsMap V : clear implicits.

End Js.
Import Js.

(* ================================================================== *)
(** * shared/schema.ts *)

(** [migrationStatusEnum].  The [status] column is text; these five are
    the values that the code writes to it. *)
Inductive MigrationStatus : Type :=
| pending
| in_progress
| completed
| failed
| cancelled.

Definition MigrationStatus_eqb (a b : MigrationStatus) : bool :=
  match a, b with
  | pending, pending
  | in_progress, in_progress
  | completed, completed
  | failed, failed
  | cancelled, cancelled => true
  | _, _ => false
  end.

(** A terminal state: no transition leaves it. *)
Definition terminal (s : MigrationStatus) : bool :=
  match s with
  | completed | failed | cancelled => true
  | pending | in_progress => false
  end.

(** [pipelineConfigSchema], without the optional [customMappings]. *)
Record PipelineConfig := mkPipelineConfig {
  convertClassicPipelines : bool;
  migrateVariableGroups : bool;
  migrateServiceConnections : bool;
  migrateEnvironments : bool
}.

(** A row of the [migrations] table, [typeof migrations.$inferSelect].
    [validationStatus] is only ever [null] in this code. *)
Record Migration := mkMigration {
  id : Z;
  batchId : option string;
  batchName : option string;
  sourceRepo : string;
  targetRepo : string;
  status : MigrationStatus;
  progress : Z;
  error : option string;
  azureToken : string;
  githubToken : string;
  pipelineConfig : option PipelineConfig;
  migrationMode : string;
  folderPath : option string;
  startedAt : option Z;
  completedAt : option Z;
  validationStatus : option unit;
  retryCount : Z;
  priority : Z
}.

(** [InsertMigration]: the fields of a creation request that
    [createMigration] reads. *)
Module Insert.
Record t := mk {
  sourceRepo : string;
  targetRepo : string;
  status : MigrationStatus;
  azureToken : string;
  githubToken : string;
  pipelineConfig : option PipelineConfig;
  migrationMode : option string;
  folderPath : option string
}.
End Insert.

(** [{ ...migration, status }] and the other spreads of storage.ts. *)
Definition with_status (s : MigrationStatus) (m : Migration) : Migration :=
  mkMigration (id m) (batchId m) (batchName m) (sourceRepo m) (targetRepo m)
    s (progress m) (error m) (azureToken m) (githubToken m)
    (pipelineConfig m) (migrationMode m) (folderPath m) (startedAt m)
    (completedAt m) (validationStatus m) (retryCount m) (priority m).

Definition with_progress (p : Z) (m : Migration) : Migration :=
  mkMigration (id m) (batchId m) (batchName m) (sourceRepo m) (targetRepo m)
    (status m) p (error m) (azureToken m) (githubToken m)
    (pipelineConfig m) (migrationMode m) (folderPath m) (startedAt m)
    (completedAt m) (validationStatus m) (retryCount m) (priority m).

Definition with_error (e : option string) (m : Migration) : Migration :=
  mkMigration (id m) (batchId m) (batchName m) (sourceRepo m) (targetRepo m)
    (status m) (progress m) e (azureToken m) (githubToken m)
    (pipelineConfig m) (migrationMode m) (folderPath m) (startedAt m)
    (completedAt m) (validationStatus m) (retryCount m) (priority m).

Definition with_startedAt (t : option Z) (m : Migration) : Migration :=
  mkMigration (id m) (batchId m) (batchName m) (sourceRepo m) (targetRepo m)
    (status m) (progress m) (error m) (azureToken m) (githubToken m)
    (pipelineConfig m) (migrationMode m) (folderPath m) t
    (completedAt m) (validationStatus m) (retryCount m) (priority m).

Definition with_completedAt (t : option Z) (m : Migration) : Migration :=
  mkMigration (id m) (batchId m) (batchName m) (sourceRepo m) (targetRepo m)
    (status m) (progress m) (error m) (azureToken m) (githubToken m)
    (pipelineConfig m) (migrationMode m) (folderPath m) (startedAt m)
    t (validationStatus m) (retryCount m) (priority m).

(* ================================================================== *)
(** * server/storage.ts *)

Module MemStorage.

Record t := mk {
  migrations : JsMap Migration;
  currentId : Z
}.

Definition constructor : t :=
  {| migrations := []; currentId := 1 |}.

(** [createMigration]: [const id = this.currentId++], then the record
    literal, then [this.migrations.set(id, migration)]. *)
Definition createMigration (insertMigration : Insert.t) (this : t)
  : Migration * t :=
  let id := currentId this in
  let migration :=
    {| id := id;
       batchId := None;
       batchName := None;
       sourceRepo := Insert.sourceRepo insertMigration;
       targetRepo := Insert.targetRepo insertMigration;
       status := Insert.status insertMigration;
       progress := 0;
       error := None;
       azureToken := Insert.azureToken insertMigration;
       githubToken := Insert.githubToken insertMigration;
       pipelineConfig := Insert.pipelineConfig insertMigration;
       migrationMode :=
         or_else (Insert.migrationMode insertMigration) "individual";
       folderPath := truthy (Insert.folderPath insertMigration);
       startedAt := None;
       completedAt := None;
       validationStatus := None;
       retryCount := 0;
       priority := 1 |} in
  (migration,
   {| migrations := map_set id migration (migrations this);
      currentId := id + 1 |}).

Definition getMigration (id : Z) (this : t) : option Migration :=
  map_get id (migrations this).

Definition not_found : JsError := Error "Migration not found".

Definition store (id : Z) (updated : Migration) (this : t) : t :=
  {| migrations := map_set id updated (migrations this);
     currentId := currentId this |}.

(** The record that [updateMigrationStatus] builds; [now] is the value of
    [new Date()].  A [Date] object is truthy, so [!migration.startedAt]
    holds exactly when [startedAt] is [null]. *)
Definition status_update (status : MigrationStatus) (now : Z)
    (migration : Migration) : Migration :=
  let m1 := with_status status migration in
  let m2 := if MigrationStatus_eqb status completed
            then with_completedAt (Some now) m1 else m1 in
  let start_now :=
    (MigrationStatus_eqb status in_progress
     && match startedAt migration with None => true | Some _ => false end)%bool in
  if start_now then with_startedAt (Some now) m2 else m2.

Definition updateMigrationStatus (id : Z) (status : MigrationStatus)
    (now : Z) (this : t) : Result (Migration * t) :=
  match getMigration id this with
  | None => Throw not_found
  | Some migration =>
      let updated := status_update status now migration in
      Ok (updated, store id updated this)
  end.

Definition updateMigrationProgress (id : Z) (progress : Z) (this : t)
  : Result (Migration * t) :=
  match getMigration id this with
  | None => Throw not_found
  | Some migration =>
      let updated := with_progress progress migration in
      Ok (updated, store id updated this)
  end.

Definition updateMigrationError (id : Z) (error : string) (this : t)
  : Result (Migration * t) :=
  match getMigration id this with
  | None => Throw not_found
  | Some migration =>
      let updated := with_error (Some error) migration in
      Ok (updated, store id updated this)
  end.

Definition getAllMigrations (this : t) : list Migration :=
  map_values (migrations this).

End MemStorage.

(* ================================================================== *)
(** * server/routes.ts: name normalization *)

Definition is_dash (c : ascii) : bool := Ascii.eqb c "-"%char.

(** The character class [[a-z0-9-_.]]. *)
Definition name_char (c : ascii) : bool :=
  let n := code c in
  (between 97 122 n || between 48 57 n
   || Nat.eqb n 45 || Nat.eqb n 95 || Nat.eqb n 46)%bool.

(** [.replace(/[^a-z0-9-_.]/g, '-')] *)
Definition replace_invalid (s : string) : string :=
  map_units (fun c => if name_char c then c else "-"%char) s.

(** [.replace(/-+/g, '-')]: of a run of dashes only the last is kept. *)
Fixpoint collapse_dashes (s : string) : string :=
  match s with
  | EmptyString => EmptyString
  | String c rest =>
      if is_dash c then
        match rest with
        | String d _ =>
            if is_dash d then collapse_dashes rest
            else String c (collapse_dashes rest)
        | EmptyString => String c EmptyString
        end
      else String c (collapse_dashes rest)
  end.

(** [.replace(/^-|-$/g, '')]: one dash at the start and one dash at the
    end are removed (a lone dash is removed once). *)
Definition strip_leading_dash (s : string) : string :=
  match s with
  | String c rest => if is_dash c then rest else s
  | EmptyString => EmptyString
  end.

Fixpoint strip_trailing_dash (s : string) : string :=
  match s with
  | EmptyString => EmptyString
  | String c EmptyString => if is_dash c then EmptyString else s
  | String c rest => String c (strip_trailing_dash rest)
  end.

Definition strip_edge_dashes (s : string) : string :=
  strip_trailing_dash (strip_leading_dash s).

(** The body of [sanitizeRepoName] on a string argument. *)
Definition sanitizeRepoName (repoName : string) : string :=
  strip_edge_dashes (collapse_dashes (replace_invalid (toLowerCase repoName))).


(* ================================================================== *)
(** * The world around the engine *)

(** What a run does that can be seen from outside. *)
Inductive Event : Type :=
| EvCommit (version : Migration)   (* [this.migrations.set(id, updated)] *)
| EvLog (line : string)            (* [console.log], [console.error] *)
| EvMkdtemp (prefix : string)      (* [mkdtempSync(prefix)] *)
| EvExec (command cwd : string)    (* [execSync(command, { cwd })] *)
| EvPost (url : string) (name : option string) (authorization : string)
| EvRm (path : string).            (* [rmSync(path, ...)] *)

(** How a child process ended. *)
Inductive ExecOutcome : Type :=
| Exit0
| ExitNonZero (stderr : string)
| SpawnFailed (message : string).

(** The answers of everything outside the process.  [decrypt] stands for
    the function of [./utils/crypto]: the engine depends on nothing but
    what it returns or throws.  [clock] is the reading of [new Date()]
    after the events so far. *)
Record Env := mkEnv {
  decrypt : string -> Result string;
  tmpdir : string;
  mkdtemp_suffix : string -> Result string;
  run_process : string -> string -> ExecOutcome;
  post_failure : string -> option string -> string -> option JsError;
  rm_failure : string -> option JsError;
  clock : list Event -> Z
}.

(** The registry, the scratch directories that exist, the events so far
    (the newest first), and the local variable [tempDir] of the running
    [migrateRepository]. *)
Record World := mkWorld {
  storage : MemStorage.t;
  fs : list string;
  trace : list Event;
  tempDir : option string
}.

Definition set_storage (st : MemStorage.t) (w : World) : World :=
  mkWorld st (fs w) (trace w) (tempDir w).
Definition set_fs (dirs : list string) (w : World) : World :=
  mkWorld (storage w) dirs (trace w) (tempDir w).
Definition add_event (e : Event) (w : World) : World :=
  mkWorld (storage w) (fs w) (e :: trace w) (tempDir w).
Definition set_tempDir (d : option string) (w : World) : World :=
  mkWorld (storage w) (fs w) (trace w) d.

(** ** Computations that may throw *)

Definition M (A : Type) : Type := World -> Result A * World.

Definition ret {A : Type} (a : A) : M A := fun w => (Ok a, w).

Definition throw {A : Type} (e : JsError) : M A := fun w => (Throw e, w).

Definition bind {A B : Type} (c : M A) (k : A -> M B) : M B :=
  fun w =>
    match c w with
    | (Ok a, w') => k a w'
    | (Throw e, w') => (Throw e, w')
    end.

Declare Scope js_scope.
Delimit Scope js_scope with js.
Notation "x <- c ;; k" := (bind c (fun x => k))
  (at level 61, c at next level, right associativity) : js_scope.
Notation "c ;; k" := (bind c (fun _ => k))
  (at level 61, right associativity) : js_scope.
Open Scope js_scope.

(** [try { body } catch (error) { handler }] *)
Definition try_catch {A : Type} (body : M A) (handler : JsError -> M A) : M A :=
  fun w =>
    match body w with
    | (Ok a, w') => (Ok a, w')
    | (Throw e, w') => handler e w'
    end.

(** [try { body } finally { finalizer }]: the finalizer runs on every exit
    of the body; an exception of its own replaces the body's completion. *)
Definition try_finally {A : Type} (body : M A) (finalizer : M unit) : M A :=
  fun w =>
    match body w with
    | (r, w') =>
        match finalizer w' with
        | (Ok _, w'') => (r, w'')
        | (Throw e, w'') => (Throw e, w'')
        end
    end.

Definition lift {A : Type} (r : Result A) : M A :=
  match r with
  | Ok a => ret a
  | Throw e => throw e
  end.

Definition emit (e : Event) : M unit := fun w => (Ok tt, add_event e w).

Definition console_log (line : string) : M unit := emit (EvLog line).

(** [console.error(label, err)] prints the label and the error. *)
Definition console_error (label : string) (err : JsError) : M unit :=
  emit (EvLog (label ++ " " ++ err_message err)).

(** ** The registry, as the engine calls it *)

Definition commit (r : Result (Migration * MemStorage.t)) : M Migration :=
  fun w =>
    match r with
    | Ok (updated, st) => (Ok updated, add_event (EvCommit updated) (set_storage st w))
    | Throw e => (Throw e, w)
    end.

Definition storage_updateMigrationStatus (env : Env) (id : Z)
    (status : MigrationStatus) : M Migration :=
  fun w =>
    commit (MemStorage.updateMigrationStatus id status (clock env (trace w))
              (storage w)) w.

Definition storage_updateMigrationProgress (id : Z) (progress : Z) : M Migration :=
  fun w => commit (MemStorage.updateMigrationProgress id progress (storage w)) w.

Definition storage_updateMigrationError (id : Z) (error : string) : M Migration :=
  fun w => commit (MemStorage.updateMigrationError id error (storage w)) w.

(** ** Node's [fs], [path] and [child_process] *)

(** [path.join(a, b)] for a directory [a] without a trailing separator. *)
Definition join (a b : string) : string := a ++ "/" ++ b.

(** [mkdtempSync(prefix)]: creates [prefix] followed by six random
    characters and returns the path. *)
Definition mkdtempSync (env : Env) (prefix : string) : M string :=
  emit (EvMkdtemp prefix) ;;
  suffix <- lift (mkdtemp_suffix env prefix) ;;
  (fun w => (Ok (prefix ++ suffix), set_fs ((prefix ++ suffix) :: fs w) w)).

Definition remove_dir (path : string) (dirs : list string) : list string :=
  filter (fun d => negb (String.eqb d path)) dirs.

(** [rmSync(path, { recursive: true, force: true })] *)
Definition rmSync (env : Env) (path : string) : M unit :=
  emit (EvRm path) ;;
  match rm_failure env path with
  | Some e => throw e
  | None => fun w => (Ok tt, set_fs (remove_dir path (fs w)) w)
  end.

(** The message of the error that Node's [child_process.execSync] throws
    when the command exits with a non-zero status: "Command failed: ", the
    command line, then a line feed and the captured standard error when
    there is some. *)
Definition command_failed (command stderr : string) : string :=
  "Command failed: " ++ command ++
  match stderr with
  | EmptyString => EmptyString
  | _ => newline ++ stderr
  end.

(** [execSync(command, { cwd })] *)
Definition execSync (env : Env) (command cwd : string) : M unit :=
  emit (EvExec command cwd) ;;
  match run_process env command cwd with
  | Exit0 => ret tt
  | ExitNonZero stderr => throw (Error (command_failed command stderr))
  | SpawnFailed message => throw (Error message)
  end.

(** [axios.post(url, { name, private: false, auto_init: false },
    { headers: { Authorization, ... } })] *)
Definition axios_post (env : Env) (url : string) (name : option string)
    (authorization : string) : M unit :=
  emit (EvPost url name authorization) ;;
  match post_failure env url name authorization with
  | Some e => throw e
  | None => ret tt
  end.

(* ================================================================== *)
(** * server/routes.ts: the transfer engine *)

(** [await sanitizeRepoName(x)] where [x] may be [undefined]: the call to
    [toLowerCase] on [undefined] raises a [TypeError]. *)
Definition sanitizeRepoName_call (repoName : option string) : M string :=
  match repoName with
  | Some s => ret (sanitizeRepoName s)
  | None => throw (Error "Cannot read properties of undefined (reading 'toLowerCase')")
  end.

(** [error.response?.status !== 422] *)
Definition status_is_422 (e : JsError) : bool :=
  match err_response e with
  | Some r => resp_status r =? 422
  | None => false
  end.

(** [error.response?.data?.message || error.message || "Migration failed"] *)
Definition errorMessage (e : JsError) : string :=
  or_else
    (match err_response e with
     | Some r => resp_data_message r
     | None => None
     end)
    (or_else (Some (err_message e)) "Migration failed").

Definition azureUrl (azureToken : string) (migration : Migration) : string :=
  "https://:" ++ azureToken ++ "@dev.azure.com/" ++
  interpolate (nth_error (split "dev.azure.com/" (sourceRepo migration)) 1).

Definition githubUrl (githubToken : string) (migration : Migration) : string :=
  "https://" ++ githubToken ++ "@github.com/" ++ targetRepo migration ++ ".git".

Definition clone_command (azureToken : string) (migration : Migration) : string :=
  "git clone --mirror " ++ dquote ++ azureUrl azureToken migration ++ dquote ++ " .".

Definition set_url_command (githubToken : string) (migration : Migration) : string :=
  "git remote set-url origin " ++ dquote ++ githubUrl githubToken migration ++ dquote.

(** The [try] block of [migrateRepository]. *)
Definition migrateRepository_try (env : Env) (migration : Migration) : M unit :=
  storage_updateMigrationStatus env (id migration) in_progress ;;
  storage_updateMigrationProgress (id migration) 10 ;;
  azureToken <- lift (decrypt env (azureToken migration)) ;;
  githubToken <- lift (decrypt env (githubToken migration)) ;;
  let owner_and_source := slice_last2 (split "/" (sourceRepo migration)) in
  let owner := nth_error owner_and_source 0 in
  let sourceRepo' := nth_error owner_and_source 1 in
  sanitizedRepoName <- sanitizeRepoName_call sourceRepo' ;;
  console_log ("Starting migration for " ++ sourceRepo migration ++ " to "
               ++ targetRepo migration) ;;
  storage_updateMigrationProgress (id migration) 20 ;;
  dir <- mkdtempSync env (join (tmpdir env) "repo-migration-") ;;
  (fun w => (Ok tt, set_tempDir (Some dir) w)) ;;
  console_log ("Created temporary directory: " ++ dir) ;;
  storage_updateMigrationProgress (id migration) 40 ;;
  console_log "Cloning Azure repository..." ;;
  execSync env (clone_command azureToken migration) dir ;;
  try_catch
    (let ownerAndRepo := split "/" (targetRepo migration) in
     axios_post env "https://api.github.com/user/repos"
       (nth_error ownerAndRepo 1) ("Bearer " ++ githubToken))
    (fun error => if status_is_422 error then ret tt else throw error) ;;
  console_log "Setting up GitHub remote..." ;;
  execSync env (set_url_command githubToken migration) dir ;;
  console_log "Pushing to GitHub..." ;;
  execSync env "git push --mirror" dir ;;
  storage_updateMigrationProgress (id migration) 90 ;;
  storage_updateMigrationStatus env (id migration) completed ;;
  storage_updateMigrationProgress (id migration) 100 ;;
  console_log ("Migration completed for " ++ sourceRepo migration).

(** The [catch] block. *)
Definition migrateRepository_catch (env : Env) (migration : Migration)
    (error : JsError) : M unit :=
  console_error ("Migration failed for " ++ sourceRepo migration ++ ":") error ;;
  storage_updateMigrationStatus env (id migration) failed ;;
  storage_updateMigrationError (id migration) (errorMessage error) ;;
  ret tt.

(** The [finally] block. *)
Definition migrateRepository_finally (env : Env) : M unit :=
  fun w =>
    match tempDir w with
    | Some dir =>
        try_catch
          (rmSync env dir ;;
           console_log "Cleaned up temporary directory")
          (fun err => console_error "Error cleaning up temporary directory:" err)
          w
    | None => (Ok tt, w)
    end.

Definition migrateRepository (env : Env) (migration : Migration) : M unit :=
  (fun w => (Ok tt, set_tempDir None w)) ;;
  try_finally
    (try_catch (migrateRepository_try env migration)
               (migrateRepository_catch env migration))
    (migrateRepository_finally env).

(* ================================================================== *)
(** * server/routes.ts: the migration routes, as far as the registry goes *)

(** [migrationData] of POST /api/migrations for one selected repository:
    [remoteUrl] and [name] come from the source host, the tokens are the
    encrypted ones of the session. *)
Definition migrationData (remoteUrl targetOrg name : string)
    (sessionAzureToken sessionGithubToken : string) : Insert.t :=
  {| Insert.sourceRepo := remoteUrl;
     Insert.targetRepo := targetOrg ++ "/" ++ name;
     Insert.status := pending;
     Insert.azureToken := sessionAzureToken;
     Insert.githubToken := sessionGithubToken;
     Insert.pipelineConfig := Some (mkPipelineConfig true true true true);
     Insert.migrationMode := None;
     Insert.folderPath := None |}.

(** The requests that reach the registry and the engine: the creation of a
    record, the run of the engine that the creation spawns for it, and the
    two direct setters (POST /api/migrations/:id/progress and .../error).
    A run is taken as one step here; the versions it commits on the way are
    in the [trace]. *)
Inductive Request : Type :=
| PostMigration (insertMigration : Insert.t)
| RunEngine (id : Z) (env : Env)
| PostProgress (id : Z) (progress : Z)
| PostError (id : Z) (error : string).

Definition handle (w : World) (r : Request) : World :=
  match r with
  | PostMigration insertMigration =>
      set_storage (snd (MemStorage.createMigration insertMigration (storage w))) w
  | RunEngine id env =>
      match MemStorage.getMigration id (storage w) with
      | Some migration => snd (migrateRepository env migration w)
      | None => w
      end
  | PostProgress id progress =>
      snd (try_catch (storage_updateMigrationProgress id progress ;; ret tt)
                     (fun _ => ret tt) w)
  | PostError id error =>
      snd (try_catch (storage_updateMigrationError id error ;; ret tt)
                     (fun _ => ret tt) w)
  end.

Definition handle_all (rs : list Request) (w : World) : World :=
  fold_left handle rs w.

(** The process at start-up: [new MemStorage()], nothing else yet. *)
Definition boot : World := mkWorld MemStorage.constructor [] [] None.

(* ================================================================== *)
(** * Vocabulary of the properties *)

(** ** Sequences of calls on the [IStorage] interface *)

Inductive Call : Type :=
| CallCreate (insertMigration : Insert.t)
| CallStatus (id : Z) (status : MigrationStatus) (now : Z)
| CallProgress (id : Z) (progress : Z)
| CallError (id : Z) (error : string).

Definition call (c : Call) (this : MemStorage.t) : Result (Migration * MemStorage.t) :=
  match c with
  | CallCreate insertMigration => Ok (MemStorage.createMigration insertMigration this)
  | CallStatus id status now => MemStorage.updateMigrationStatus id status now this
  | CallProgress id progress => MemStorage.updateMigrationProgress id progress this
  | CallError id error => MemStorage.updateMigrationError id error this
  end.

(** The registry after a call; a call that throws leaves it as it was. *)
Definition after_call (this : MemStorage.t) (c : Call) : MemStorage.t :=
  match call c this with
  | Ok (_, this') => this'
  | Throw _ => this
  end.

Definition after_calls (cs : list Call) (this : MemStorage.t) : MemStorage.t :=
  fold_left after_call cs this.

(** The identifiers that the creations among [cs] return, in order. *)
Fixpoint issued (cs : list Call) (this : MemStorage.t) : list Z :=
  match cs with
  | [] => []
  | c :: rest =>
      match c with
      | CallCreate insertMigration =>
          id (fst (MemStorage.createMigration insertMigration this))
          :: issued rest (after_call this c)
      | _ => issued rest (after_call this c)
      end
  end.

(** The [now] of the first status call among [cs] that moves record [i]
    into [in_progress]. *)
Fixpoint first_started (i : Z) (cs : list Call) : option Z :=
  match cs with
  | [] => None
  | CallStatus j in_progress now :: rest =>
      if j =? i then Some now else first_started i rest
  | _ :: rest => first_started i rest
  end.

(** ** Single-field updates of one record *)

Inductive Update : Type :=
| UStatus (status : MigrationStatus) (now : Z)
| UProgress (progress : Z)
| UError (error : string).

(** The record that the mutator for [u] writes back over [m]. *)
Definition apply_update (u : Update) (m : Migration) : Migration :=
  match u with
  | UStatus status now => MemStorage.status_update status now m
  | UProgress progress => with_progress progress m
  | UError error => with_error (Some error) m
  end.

(** The versions written by a sequence of updates, and the last of them. *)
Fixpoint versions (m : Migration) (us : list Update) : list Migration :=
  match us with
  | [] => []
  | u :: rest => apply_update u m :: versions (apply_update u m) rest
  end.

Definition latest (m : Migration) (us : list Update) : Migration :=
  fold_left (fun m' u => apply_update u m') us m.

(** The updates of a run that gets through every stage, up to the push. *)
Definition checkpoints (started : Z) : list Update :=
  [UStatus in_progress started; UProgress 10; UProgress 20; UProgress 40;
   UProgress 90].

(** ** Versions committed during a run *)

(** The versions written to the registry, in the order of the writes (the
    trace has the newest event first). *)
Fixpoint commits (tr : list Event) : list Migration :=
  match tr with
  | [] => []
  | EvCommit version :: older => commits older ++ [version]
  | _ :: older => commits older
  end.

Fixpoint nondecreasing (l : list Z) : Prop :=
  match l with
  | a :: (b :: _) as rest => a <= b /\ nondecreasing rest
  | _ => True
  end.

(** Two versions one after the other somewhere in a list. *)
Fixpoint consecutive {A : Type} (a b : A) (l : list A) : Prop :=
  match l with
  | x :: (y :: _) as rest => (x = a /\ y = b) \/ consecutive a b rest
  | _ => False
  end.

(** The names that [POST /user/repos] was asked to create, and the
    commands that were executed, in the order of the calls. *)
Fixpoint posted_names (tr : list Event) : list (option string) :=
  match tr with
  | [] => []
  | EvPost _ name _ :: older => posted_names older ++ [name]
  | _ :: older => posted_names older
  end.

Fixpoint executed (tr : list Event) : list string :=
  match tr with
  | [] => []
  | EvExec command _ :: older => executed older ++ [command]
  | _ :: older => executed older
  end.

(** ** Normalized names *)

Fixpoint all_units (p : ascii -> bool) (s : string) : bool :=
  match s with
  | EmptyString => true
  | String c rest => (p c && all_units p rest)%bool
  end.

Fixpoint no_dash_run (s : string) : bool :=
  match s with
  | String c (String d _ as rest) =>
      (negb (is_dash c && is_dash d) && no_dash_run rest)%bool
  | _ => true
  end.

Definition no_leading_dash (s : string) : bool :=
  match s with
  | String c _ => negb (is_dash c)
  | EmptyString => true
  end.

Fixpoint no_trailing_dash (s : string) : bool :=
  match s with
  | EmptyString => true
  | String c EmptyString => negb (is_dash c)
  | String _ rest => no_trailing_dash rest
  end.

(** Only [[a-z0-9-_.]], no run of dashes, no dash at either end. *)
Definition normalized (s : string) : bool :=
  (all_units name_char s && no_dash_run s
   && no_leading_dash s && no_trailing_dash s)%bool.

(** ** Sequences of requests *)

(** The engine is started once for a record, by the request that creates
    it; [run_ids] lists the records whose run is among [rs]. *)
Fixpoint run_ids (rs : list Request) : list Z :=
  match rs with
  | [] => []
  | RunEngine id _ :: rest => id :: run_ids rest
  | _ :: rest => run_ids rest
  end.

(** Requests other than the direct error setter, with creations as the
    intake route builds them. *)
Definition admissible (r : Request) : Prop :=
  match r with
  | PostMigration insertMigration => Insert.status insertMigration = pending
  | RunEngine _ _ => True
  | PostProgress _ _ => True
  | PostError _ _ => False
  end.

(** What is kept true of the record stored under [i], where [ran] lists
    the records whose run is over. *)
Definition record_ok (ran : list Z) (i : Z) (m : Migration) : Prop :=
  id m = i
  /\ (error m <> None <-> status m = failed)
  /\ (~ In i ran -> status m = pending /\ error m = None).

Definition registry_ok (ran : list Z) (w : World) : Prop :=
  forall i m, MemStorage.getMigration i (storage w) = Some m -> record_ok ran i m.

(** The path of the workspace that [mkdtempSync] returns for [suffix]. *)
Definition workspace (env : Env) (suffix : string) : string :=
  join (tmpdir env) "repo-migration-" ++ suffix.


(* ================================================================== *)
(** * Scenarios *)

(** One repository, "My Repo", selected for migration to the account
    "octo"; the session holds the two tokens in their encrypted form. *)
Definition demo_request : Insert.t :=
  migrationData "https://dev.azure.com/acme/shop/_git/My Repo" "octo" "My Repo"
    "enc:azure" "enc:github".

Definition demo_created : Migration * MemStorage.t :=
  MemStorage.createMigration demo_request MemStorage.constructor.

Definition demo_migration : Migration := fst demo_created.

Definition demo_world : World := mkWorld (snd demo_created) [] [] None.

(** A cipher that knows the two tokens of the session. *)
Definition demo_decrypt (azure github : string) (stored : string) : Result string :=
  if String.eqb stored "enc:azure" then Ok azure
  else if String.eqb stored "enc:github" then Ok github
  else Throw (Error "Decryption failed").

(** An environment with the two plaintext tokens [azure] and [github],
    where the commands selected by [git_fails] exit with a non-zero status
    after printing [stderr], the creation call fails with [creation] when
    that is an error, and [rmSync] fails with [rm] when that is one. *)
Definition demo_env (azure github : string)
    (git_fails : string -> bool) (stderr : string)
    (creation : option JsError) (rm : option JsError) : Env :=
  {| decrypt := demo_decrypt azure github;
     tmpdir := "/tmp";
     mkdtemp_suffix := fun _ => Ok "Ab12Cd";
     run_process := fun command _ =>
       if git_fails command then ExitNonZero stderr else Exit0;
     post_failure := fun _ _ _ => creation;
     rm_failure := fun _ => rm;
     clock := fun tr => 1700000000000 + Z.of_nat (List.length tr) |}.

Definition no_command (command : string) : bool := false.
Definition clone_only (command : string) : bool := prefix "git clone" command.
Definition set_url_only (command : string) : bool :=
  prefix "git remote set-url" command.

(** Everything succeeds. *)
Definition env_ok : Env :=
  demo_env "AZ-PAT-s3cr3t" "ghp_s3cr3t" no_command EmptyString None None.

(** The clone exits with a non-zero status, for a source token [azure]. *)
Definition env_clone_fails (azure : string) : Env :=
  demo_env azure "ghp_s3cr3t" clone_only EmptyString None None.

(** Re-pointing the remote exits with a non-zero status. *)
Definition env_set_url_fails (github : string) : Env :=
  demo_env "AZ-PAT-s3cr3t" github set_url_only EmptyString None None.

(** The creation call is answered 422: the repository exists already. *)
Definition already_exists : JsError :=
  {| err_message := "Request failed with status code 422";
     err_response := Some (mkResponse 422 (Some "Repository creation failed.")) |}.

Definition env_already_exists : Env :=
  demo_env "AZ-PAT-s3cr3t" "ghp_s3cr3t" no_command EmptyString
    (Some already_exists) None.

(** The creation call is answered 401. *)
Definition bad_credentials : JsError :=
  {| err_message := "Request failed with status code 401";
     err_response := Some (mkResponse 401 (Some "Bad credentials")) |}.

Definition env_bad_credentials : Env :=
  demo_env "AZ-PAT-s3cr3t" "ghp_s3cr3t" no_command EmptyString
    (Some bad_credentials) None.

(** The creation call is answered 422 with [message], whatever that says. *)
Definition rejected_422 (message : option string) : JsError :=
  {| err_message := "Request failed with status code 422";
     err_response := Some (mkResponse 422 message) |}.

Definition env_rejected_422 (message : option string) : Env :=
  demo_env "AZ-PAT-s3cr3t" "ghp_s3cr3t" no_command EmptyString
    (Some (rejected_422 message)) None.

(** The clone fails and the workspace cannot be deleted either. *)
Definition env_clone_and_rm_fail : Env :=
  demo_env "AZ-PAT-s3cr3t" "ghp_s3cr3t" clone_only "fatal: repository not found"
    None (Some (Error "EBUSY: resource busy or locked")).

(* ================================================================== *)
(** * Further vocabulary *)

(** ** One record under a sequence of calls *)

(** What a call does to the record stored under [i]. *)
Definition effect_on (i : Z) (c : Call) (m : Migration) : Migration :=
  match c with
  | CallCreate _ => m
  | CallStatus j status now =>
      if j =? i then MemStorage.status_update status now m else m
  | CallProgress j progress => if j =? i then with_progress progress m else m
  | CallError j error => if j =? i then with_error (Some error) m else m
  end.

Definition replay (i : Z) (cs : list Call) (m : Migration) : Migration :=
  fold_left (fun m' c => effect_on i c m') cs m.

(** The value of the last status, progress or error update addressed to
    [i] among [cs], and [current] when there is none. *)
Fixpoint last_status (i : Z) (cs : list Call) (current : MigrationStatus)
  : MigrationStatus :=
  match cs with
  | [] => current
  | CallStatus j status _ :: rest =>
      last_status i rest (if j =? i then status else current)
  | _ :: rest => last_status i rest current
  end.

Fixpoint last_progress (i : Z) (cs : list Call) (current : Z) : Z :=
  match cs with
  | [] => current
  | CallProgress j progress :: rest =>
      last_progress i rest (if j =? i then progress else current)
  | _ :: rest => last_progress i rest current
  end.

Fixpoint last_error (i : Z) (cs : list Call) (current : option string)
  : option string :=
  match cs with
  | [] => current
  | CallError j error :: rest =>
      last_error i rest (if j =? i then Some error else current)
  | _ :: rest => last_error i rest current
  end.

(** The [now] of the last status update that moved [i] to completed. *)
Fixpoint last_completed (i : Z) (cs : list Call) (current : option Z)
  : option Z :=
  match cs with
  | [] => current
  | CallStatus j completed now :: rest =>
      last_completed i rest (if j =? i then Some now else current)
  | _ :: rest => last_completed i rest current
  end.

(** The number of creations among [cs], and the identifiers 1, ..., n. *)
Fixpoint creations (cs : list Call) : nat :=
  match cs with
  | [] => O
  | CallCreate _ :: rest => S (creations rest)
  | _ :: rest => creations rest
  end.

Definition first_ids (n : nat) : list Z := map Z.of_nat (seq 1 n).

(** ** Characters of a name *)

Fixpoint filter_units (p : ascii -> bool) (s : string) : string :=
  match s with
  | EmptyString => EmptyString
  | String c rest =>
      if p c then String c (filter_units p rest) else filter_units p rest
  end.

(** The class [[a-z0-9_.]]: the characters that normalization keeps as
    they are, wherever they stand. *)
Definition kept (c : ascii) : bool := (name_char c && negb (is_dash c))%bool.

(** ** The registry as a whole *)

(** What every sequence of calls keeps true of a registry that holds [n]
    records: the keys are 1, ..., n in this order, the counter is n + 1,
    and each record carries its key as identifier. *)
Definition registry_wf (n : nat) (this : MemStorage.t) : Prop :=
  map_keys (MemStorage.migrations this) = first_ids n
  /\ MemStorage.currentId this = Z.of_nat n + 1
  /\ Forall (fun entry => id (snd entry) = fst entry) (MemStorage.migrations this).

(** The fields that no mutator writes. *)
Definition same_descriptor (a b : Migration) : Prop :=
  id a = id b
  /\ sourceRepo a = sourceRepo b /\ targetRepo a = targetRepo b
  /\ azureToken a = azureToken b /\ githubToken a = githubToken b
  /\ batchId a = batchId b /\ batchName a = batchName b
  /\ pipelineConfig a = pipelineConfig b /\ migrationMode a = migrationMode b
  /\ folderPath a = folderPath b /\ validationStatus a = validationStatus b
  /\ retryCount a = retryCount b /\ priority a = priority b.

(** ** What a run does outside the process *)

Definition external (e : Event) : bool :=
  match e with
  | EvMkdtemp _ | EvExec _ _ | EvPost _ _ _ | EvRm _ => true
  | EvCommit _ | EvLog _ => false
  end.

(** The calls to the file system, to [git] and to the target host, in the
    order they were made. *)
Fixpoint external_calls (tr : list Event) : list Event :=
  match tr with
  | [] => []
  | e :: older =>
      if external e then external_calls older ++ [e] else external_calls older
  end.

(** The external calls of the stages, in the order of the code, for the two
    decrypted tokens and the workspace [dir]. *)
Definition planned_calls (env : Env) (migration : Migration)
    (azure github dir : string) : list Event :=
  [EvMkdtemp (join (tmpdir env) "repo-migration-");
   EvExec (clone_command azure migration) dir;
   EvPost "https://api.github.com/user/repos"
     (nth_error (split "/" (targetRepo migration)) 1) ("Bearer " ++ github);
   EvExec (set_url_command github migration) dir;
   EvExec "git push --mirror" dir].

(** ** More scenarios *)

(** No key to decrypt with. *)
Definition env_no_key : Env :=
  mkEnv (fun _ => Throw (Error "Decryption failed")) "/tmp"
    (fun _ => Ok "Ab12Cd") (fun _ _ => Exit0) (fun _ _ _ => None)
    (fun _ => None) (fun tr => 1700000000000 + Z.of_nat (List.length tr)).

(** A record whose source locator is a bare name. *)
Definition flat_created : Migration * MemStorage.t :=
  MemStorage.createMigration
    (migrationData "My Repo" "octo" "My Repo" "enc:azure" "enc:github")
    MemStorage.constructor.

Definition flat_migration : Migration := fst flat_created.

Definition flat_world : World := mkWorld (snd flat_created) [] [] None.

(* ================================================================== *)
(** * Sessions

    [server/routes.ts]: the three token middlewares, [encryptToken] and the
    two validation routes.  A session token is a JWT whose payload holds a
    personal access token in its encrypted form. *)

(** A template-literal hole [${n}] for an integer [n]. *)
Definition number_toString (n : Z) : string :=
  DecimalString.NilZero.string_of_int (Z.to_int n).

Module Auth.

(** What the code reads of the payload of a session token. *)
Module Payload.
Record t := make {
  type : option string;
  token : option string;
  organization : option string
}.
End Payload.

(** [req.user] *)
Module User.
Record t := make {
  type : option string;
  token : option string;
  organization : option string;
  githubToken : option string
}.
End User.

(** The body of a validation request. *)
Module Body.
Record t := make {
  token : option string;
  encryptedToken : option string;
  organization : option string
}.
End Body.

(** [encrypt] and [decrypt] of [./utils/crypto], and [jwt.sign] and
    [jwt.verify] with the secret and the expiry of the process. *)
Record Keys := mkKeys {
  encrypt : string -> Result string;
  decrypt : string -> Result string;
  sign : Payload.t -> Result string;
  verify : string -> Result Payload.t
}.

Record Headers := mkHeaders {
  authorization : option string;
  x_github_token : option string
}.

(** What a middleware does with a request: it calls [next()] with
    [req.user] set, or it answers itself. *)
Inductive Checked : Type :=
| Next (user : User.t)
| Refused (status : Z) (error : string).

(** [req.headers.authorization?.split(" ")[1]] *)
Definition bearer (headers : Headers) : option string :=
  match authorization headers with
  | Some value => nth_error (split " " value) 1
  | None => None
  end.

Definition validateAzureToken (keys : Keys) (headers : Headers) : Checked :=
  match truthy (bearer headers) with
  | None => Refused 401 "No Azure session token provided"
  | Some azureSessionToken =>
      match verify keys azureSessionToken with
      | Ok azureDecoded =>
          Next (User.make (Payload.type azureDecoded) (Payload.token azureDecoded)
                  (Payload.organization azureDecoded) None)
      | Throw _ => Refused 401 "Invalid or expired Azure session token"
      end
  end.

Definition validateGitHubToken (keys : Keys) (headers : Headers) : Checked :=
  match truthy (x_github_token headers) with
  | None => Refused 401 "No GitHub session token provided"
  | Some githubSessionToken =>
      match verify keys githubSessionToken with
      | Ok githubDecoded =>
          Next (User.make None None None (Payload.token githubDecoded))
      | Throw _ => Refused 401 "Invalid or expired GitHub session token"
      end
  end.

Definition validateBothTokens (keys : Keys) (headers : Headers) : Checked :=
  match truthy (bearer headers) with
  | None => Refused 401 "No Azure session token provided"
  | Some azureSessionToken =>
      match truthy (x_github_token headers) with
      | None => Refused 401 "No GitHub session token provided"
      | Some githubSessionToken =>
          match verify keys azureSessionToken with
          | Ok azureDecoded =>
              match verify keys githubSessionToken with
              | Ok githubDecoded =>
                  Next (User.make (Payload.type azureDecoded)
                          (Payload.token azureDecoded)
                          (Payload.organization azureDecoded)
                          (Payload.token githubDecoded))
              | Throw _ => Refused 401 "Invalid or expired session token"
              end
          | Throw _ => Refused 401 "Invalid or expired session token"
          end
      end
  end.

(** [encryptToken]: a truthy [token] of the body is replaced by its
    encrypted form. *)
Definition encryptToken (keys : Keys) (body : Body.t) : Result Body.t :=
  match truthy (Body.token body) with
  | Some token =>
      match encrypt keys token with
      | Ok encrypted =>
          Ok (Body.make None (Some encrypted) (Body.organization body))
      | Throw e => Throw e
      end
  | None => Ok body
  end.

(** ** The two hosts, as the validation routes ask them *)

(** The [Authorization] header of a request: [Basic] stands for the scheme
    followed by the base64 form of [userpass]. *)
Inductive Credentials : Type :=
| Basic (userpass : string)
| Bearer (token : string).

(** [response.status] and [response.data]: no data for an empty body,
    otherwise an object and its [message]. *)
Record Answer := mkAnswer {
  answer_status : Z;
  answer_data : option (option string)
}.

Inductive Remote : Type :=
| Answered (answer : Answer)
| Unreachable (message : string).

Definition Http : Type := string -> Credentials -> Remote.

Definition data_message (answer : Answer) : option string :=
  match answer_data answer with
  | Some message => message
  | None => None
  end.

(** [axios.get]: the promise resolves when [validateStatus] accepts the
    status and rejects with an error that carries the response otherwise;
    without an answer it rejects with an error that carries none. *)
Definition axios_get (validateStatus : Z -> bool) (remote : Remote) : Result Answer :=
  match remote with
  | Answered answer =>
      if validateStatus (answer_status answer) then Ok answer
      else Throw {| err_message :=
                      "Request failed with status code "
                      ++ number_toString (answer_status answer);
                    err_response :=
                      Some (mkResponse (answer_status answer) (data_message answer)) |}
  | Unreachable message => Throw (Error message)
  end.

(** The default [validateStatus] of axios. *)
Definition status_2xx (status : Z) : bool := (200 <=? status) && (status <? 300).

Definition status_200_or_203 (status : Z) : bool :=
  (status =? 200) || (status =? 203).

(** What a route sends back: [res.json({ valid: true, sessionToken })],
    [res.status(status).json({ error })], or nothing when an exception
    leaves the route. *)
Inductive Reply : Type :=
| Session (sessionToken : string)
| Failure (status : Z) (error : string)
| Unhandled (e : JsError).

Definition response_status (e : JsError) : option Z :=
  match err_response e with
  | Some response => Some (resp_status response)
  | None => None
  end.

Definition status_is (e : JsError) (status : Z) : bool :=
  match response_status e with
  | Some s => s =? status
  | None => false
  end.

Definition azure_repositories_url (organization : string) : string :=
  "https://dev.azure.com/" ++ organization
  ++ "/_apis/git/repositories?api-version=7.0".

(** The inner [try] block of the Azure validation route: [Some] reply when
    it returns one, [None] when control leaves the block at its end. *)
Definition azure_validate_request (keys : Keys) (http : Http)
    (encryptedToken organization token : string) : Result (option Reply) :=
  match axios_get status_200_or_203
          (http (azure_repositories_url organization) (Basic (":" ++ token))) with
  | Ok response =>
      match status_200_or_203 (answer_status response), answer_data response with
      | true, Some _ =>
          match sign keys (Payload.make (Some "azure") (Some encryptedToken)
                             (Some organization)) with
          | Ok sessionToken => Ok (Some (Session sessionToken))
          | Throw e => Throw e
          end
      | _, _ => Ok None
      end
  | Throw e => Throw e
  end.

(** The outer [try] block of the Azure validation route. *)
Definition azure_validate_try (keys : Keys) (http : Http) (body : Body.t) : Result Reply :=
  match truthy (Body.encryptedToken body), truthy (Body.organization body) with
  | Some encryptedToken, Some organization =>
      match decrypt keys encryptedToken with
      | Ok token =>
          match azure_validate_request keys http encryptedToken organization token with
          | Ok (Some reply) => Ok reply
          | Ok None => Ok (Failure 401 "Could not validate Azure PAT token")
          | Throw error =>
              if status_is error 401 || status_is error 403
              then Ok (Failure 401 "Invalid Azure PAT token or insufficient permissions. Please ensure your token has Code (read), Build (read), and Release (read) scopes.")
              else if status_is error 404
              then Ok (Failure 401 "Could not access Git repositories. Please check if your organization name is correct.")
              else Throw error
          end
      | Throw e => Throw e
      end
  | _, _ => Ok (Failure 400 "Token and organization name are required")
  end.

(** POST /api/auth/azure/validate *)
Definition post_auth_azure_validate (keys : Keys) (http : Http) (body : Body.t) : Reply :=
  match encryptToken keys body with
  | Ok body =>
      match azure_validate_try keys http body with
      | Ok reply => reply
      | Throw _ => Failure 500 "Failed to validate Azure PAT. Please try again later."
      end
  | Throw e => Unhandled e
  end.

Definition github_validate_try (keys : Keys) (http : Http) (body : Body.t) : Result Reply :=
  match truthy (Body.encryptedToken body) with
  | Some encryptedToken =>
      match decrypt keys encryptedToken with
      | Ok token =>
          match axios_get status_2xx
                  (http "https://api.github.com/user" (Bearer token)) with
          | Ok response =>
              if answer_status response =? 200 then
                match sign keys (Payload.make (Some "github") (Some encryptedToken)
                                   None) with
                | Ok sessionToken => Ok (Session sessionToken)
                | Throw e => Throw e
                end
              else Ok (Failure 401 "Invalid GitHub PAT")
          | Throw e => Throw e
          end
      | Throw e => Throw e
      end
  | None => Ok (Failure 400 "Token is required")
  end.

(** POST /api/auth/github/validate *)
Definition post_auth_github_validate (keys : Keys) (http : Http) (body : Body.t) : Reply :=
  match encryptToken keys body with
  | Ok body =>
      match github_validate_try keys http body with
      | Ok reply => reply
      | Throw error =>
          Failure 401
            (or_else (match err_response error with
                      | Some response => resp_data_message response
                      | None => None
                      end)
                     "Failed to validate GitHub PAT")
      end
  | Throw e => Unhandled e
  end.

End Auth.

(* ================================================================== *)
(** * The client: creation of the target repository

    [client/src/lib/github.ts]: [sanitizeRepoName] and
    [createGitHubRepository], the request loop of the browser.  What the
    function prints on the console is not part of the model. *)

Module Client.

(** A value thrown in the browser: [error.name] and [error.message]. *)
Record Exception := mkException {
  name : string;
  message : string
}.

(** [new Error(message)] *)
Definition Error (message : string) : Exception := mkException "Error" message.

(** A JSON object with string properties. *)
Definition Json : Type := list (string * string).

Fixpoint get (key : string) (object : Json) : option string :=
  match object with
  | [] => None
  | (k, v) :: rest => if String.eqb k key then Some v else get key rest
  end.

(** [response.status], [response.statusText] and [await response.json()]:
    [None] when the body is not JSON. *)
Record Response := mkResponse {
  status : Z;
  statusText : string;
  json : option Json
}.

(** [response.ok] *)
Definition ok (response : Response) : bool :=
  (200 <=? status response) && (status response <=? 299).

(** A settled [fetch]. *)
Inductive Fetched : Type :=
| Resolved (response : Response)
| Rejected (error : Exception).

(** The body of the creation request. *)
Module Body.
Record t := make {
  name : string;
  private : bool;
  auto_init : bool;
  description : string
}.
End Body.

(** What the function does outside: the two kinds of request, each with
    its [X-GitHub-Token] header, and the timer of the back-off. *)
Inductive Effect : Type :=
| Post (url : string) (githubSessionToken : string) (body : Body.t)
| Get (url : string) (githubSessionToken : string)
| Wait (ms : Z).

(** The server, as the browser sees it: how a request settles after the
    effects so far (newest first). *)
Definition Network : Type := list Effect -> Effect -> Fetched.

Inductive Outcome : Type :=
| Returned (data : Json)
| Thrown (error : Exception).

(** How one turn of the loop ends. *)
Inductive Step : Type :=
| Return (data : Json)
| Raise (error : Exception)
| Continue (lastError : Exception).

Definition sanitizeRepoName (name : string) : string :=
  strip_edge_dashes (collapse_dashes (replace_invalid (toLowerCase name))).

Definition maxRetries : Z := 3.

Definition retryable_status (status : Z) : bool :=
  (status =? 502) || (status =? 503) || (status =? 504).

(** [errorData.message?.includes('already exists')] *)
Definition says_already_exists (errorData : Json) : bool :=
  match get "message" errorData with
  | Some message => includes "already exists" message
  | None => false
  end.

Definition described (response : Response) (errorData : Json) : string :=
  or_else (get "error" errorData)
    (or_else (get "message" errorData)
       ("Failed to create repository (HTTP "
        ++ number_toString (status response) ++ ")")).

Definition undescribed (response : Response) : string :=
  "Failed to create repository: " ++ statusText response.

(** The [try]/[catch] around the reading of a response that is not [ok]:
    the repository to return, or the [errorMessage]. *)
Definition read_failure (network : Network) (existing githubSessionToken : string)
    (response : Response) (tr : list Effect) : (Json + string) * list Effect :=
  match json response with
  | Some errorData =>
      if (status response =? 422) && says_already_exists errorData then
        let request := Get existing githubSessionToken in
        match network tr request with
        | Resolved existingRepo =>
            if ok existingRepo then
              match json existingRepo with
              | Some data => (inl data, request :: tr)
              | None => (inr (undescribed response), request :: tr)
              end
            else (inr (described response errorData), request :: tr)
        | Rejected _ => (inr (undescribed response), request :: tr)
        end
      else (inr (described response errorData), tr)
  | None => (inr (undescribed response), tr)
  end.

(** The [try] block of one turn. *)
Definition attempt_try (network : Network)
    (endpoint existing githubSessionToken : string) (body : Body.t)
    (attempt : Z) (tr : list Effect) : Step * list Effect :=
  let request := Post endpoint githubSessionToken body in
  match network tr request with
  | Rejected error => (Raise error, request :: tr)
  | Resolved response =>
      if negb (ok response) then
        match read_failure network existing githubSessionToken response
                (request :: tr) with
        | (inl data, tr') => (Return data, tr')
        | (inr errorMessage, tr') =>
            if retryable_status (status response) then
              if attempt =? maxRetries then (Raise (Error errorMessage), tr')
              else (Continue (Error errorMessage), Wait (attempt * 1000) :: tr')
            else (Raise (Error errorMessage), tr')
        end
      else
        match json response with
        | Some data => (Return data, request :: tr)
        | None => (Raise (Error "Invalid response from GitHub API"), request :: tr)
        end
  end.

(** One turn: the [try] block and its [catch]. *)
Definition attempt_once (network : Network)
    (endpoint existing githubSessionToken : string) (body : Body.t)
    (attempt : Z) (tr : list Effect) : Step * list Effect :=
  match attempt_try network endpoint existing githubSessionToken body attempt tr with
  | (Raise error, tr') =>
      if String.eqb (name error) "TimeoutError" then
        if attempt =? maxRetries
        then (Raise (Error "Request timed out while creating repository"), tr')
        else (Continue (Error "Request timed out while creating repository"), tr')
      else (Raise error, tr')
  | settled => settled
  end.

(** The loop over the attempt numbers that are left, and the statement
    after it. *)
Fixpoint attempts (network : Network)
    (endpoint existing githubSessionToken : string) (body : Body.t)
    (numbers : list Z) (lastError : option Exception) (tr : list Effect)
    : Outcome * list Effect :=
  match numbers with
  | [] =>
      (Thrown match lastError with
              | Some error => error
              | None => Error "Failed to create repository after retries"
              end, tr)
  | attempt :: later =>
      match attempt_once network endpoint existing githubSessionToken body
              attempt tr with
      | (Return data, tr') => (Returned data, tr')
      | (Raise error, tr') => (Thrown error, tr')
      | (Continue error, tr') =>
          attempts network endpoint existing githubSessionToken body later
            (Some error) tr'
      end
  end.

Definition endpoint_of (owner : string) (isOrg : bool) : string :=
  if isOrg then "/api/github/organizations/" ++ owner ++ "/repositories"
  else "/api/github/user/repositories".

Definition existing_of (owner sanitizedName : string) (isOrg : bool) : string :=
  "/api/github/" ++ (if isOrg then "organizations/" ++ owner else "user")
  ++ "/repositories/" ++ sanitizedName.

Definition body_of (sanitizedName : string) (isPrivate : bool) : Body.t :=
  Body.make sanitizedName isPrivate true "Repository migrated from Azure DevOps".

(** [createGitHubRepository(token, owner, name, isPrivate, isOrg)], with
    the [github_session_token] of the session storage. *)
Definition createGitHubRepository (network : Network) (stored : option string)
    (token owner name : string) (isPrivate isOrg : bool) (tr : list Effect)
    : Outcome * list Effect :=
  match truthy stored with
  | None => (Thrown (Error "GitHub session token is required"), tr)
  | Some githubSessionToken =>
      let sanitizedName := sanitizeRepoName name in
      attempts network (endpoint_of owner isOrg)
        (existing_of owner sanitizedName isOrg) githubSessionToken
        (body_of sanitizedName isPrivate) [1; 2; 3] None tr
  end.

(** ** Reading a trace *)

Definition is_post (e : Effect) : bool :=
  match e with Post _ _ _ => true | _ => false end.

Definition is_get (e : Effect) : bool :=
  match e with Get _ _ => true | _ => false end.

(** The milliseconds of the timers, oldest first. *)
Fixpoint waits (tr : list Effect) : list Z :=
  match tr with
  | [] => []
  | Wait ms :: older => waits older ++ [ms]
  | _ :: older => waits older
  end.

(** The pace of a run, read oldest first from the attempt [attempt] on: a
    wait comes directly after a creation request, lasts [attempt * 1000]
    milliseconds and is directly followed by the next creation request;
    a look-up is the last effect. *)
Fixpoint paced (attempt : Z) (effects : list Effect) : bool :=
  match effects with
  | [] => true
  | Post _ _ _ :: Wait ms :: later =>
      (ms =? attempt * 1000)
      && match later with
         | Post _ _ _ :: _ => true
         | _ => false
         end
      && paced (attempt + 1) later
  | Post _ _ _ :: later => paced (attempt + 1) later
  | Get _ _ :: later =>
      match later with
      | [] => true
      | _ => false
      end
  | Wait _ :: _ => false
  end.

(** An answer after which the loop goes on: a time-out of the request, or
    one of the statuses 502, 503 and 504. *)
Definition retryable (settled : Fetched) : bool :=
  match settled with
  | Rejected error => String.eqb (name error) "TimeoutError"
  | Resolved response => retryable_status (status response)
  end.

End Client.

(** ** A session *)

Definition azure_payload : Auth.Payload.t :=
  Auth.Payload.make (Some "azure") (Some "enc:azure") (Some "acme").

Definition github_payload : Auth.Payload.t :=
  Auth.Payload.make (Some "github") (Some "enc:github") None.

Definition option_string_eqb (a b : option string) : bool :=
  match a, b with
  | Some x, Some y => String.eqb x y
  | None, None => true
  | _, _ => false
  end.

Definition payload_eqb (p q : Auth.Payload.t) : bool :=
  option_string_eqb (Auth.Payload.type p) (Auth.Payload.type q)
  && option_string_eqb (Auth.Payload.token p) (Auth.Payload.token q)
  && option_string_eqb (Auth.Payload.organization p) (Auth.Payload.organization q).

(** Keys that encrypt the two tokens of the session and sign its two
    payloads. *)
Definition demo_keys : Auth.Keys :=
  Auth.mkKeys
    (fun plain =>
       if String.eqb plain "AZ-PAT-s3cr3t" then Ok "enc:azure"
       else if String.eqb plain "ghp_s3cr3t" then Ok "enc:github"
       else Throw (Error "Encryption failed"))
    (demo_decrypt "AZ-PAT-s3cr3t" "ghp_s3cr3t")
    (fun payload =>
       if payload_eqb payload azure_payload then Ok "aaa.bbb.ccc"
       else if payload_eqb payload github_payload then Ok "ddd.eee.fff"
       else Throw (Error "secretOrPrivateKey must have a value"))
    (fun sessionToken =>
       if String.eqb sessionToken "aaa.bbb.ccc" then Ok azure_payload
       else if String.eqb sessionToken "ddd.eee.fff" then Ok github_payload
       else Throw (Error "jwt malformed")).

(** Both hosts accept the two tokens of the session and no other. *)
Definition demo_http : Auth.Http :=
  fun url credentials =>
    match credentials with
    | Auth.Basic userpass =>
        if String.eqb userpass ":AZ-PAT-s3cr3t"
        then Auth.Answered (Auth.mkAnswer 200 (Some None))
        else Auth.Answered (Auth.mkAnswer 401 None)
    | Auth.Bearer token =>
        if String.eqb token "ghp_s3cr3t"
        then Auth.Answered (Auth.mkAnswer 200 (Some None))
        else Auth.Answered (Auth.mkAnswer 401 (Some (Some "Bad credentials")))
    end.

(** ** Servers for the client *)

(** Every request is answered 503 with a message. *)
Definition network_unavailable : Client.Network :=
  fun _ _ =>
    Client.Resolved
      (Client.mkResponse 503 "Service Unavailable"
         (Some [("message", "upstream connect error")])).

(** Every request is answered 401. *)
Definition network_unauthorized : Client.Network :=
  fun _ _ =>
    Client.Resolved
      (Client.mkResponse 401 "Unauthorized" (Some [("error", "Bad credentials")])).

(** The repository exists already: creation is answered 422, the look-up
    is answered with the repository. *)
Definition network_existing : Client.Network :=
  fun _ request =>
    match request with
    | Client.Post _ _ _ =>
        Client.Resolved
          (Client.mkResponse 422 "Unprocessable Entity"
             (Some [("message", "name already exists on this account")]))
    | _ =>
        Client.Resolved
          (Client.mkResponse 200 "OK"
             (Some [("name", "my-repo");
                    ("html_url", "https://github.com/octo/my-repo")]))
    end.

(* ================================================================== *)
(** * Properties *)

(** ** Name normalization *)

Lemma name_char_lower_unit (c : ascii) :
  name_char c = true -> lower_unit c = c.
Proof.
  destruct c as [[] [] [] [] [] [] [] []]; vm_compute; congruence.
Qed.

Lemma name_char_dash_or_self (c : ascii) :
  name_char (if name_char c then c else "-"%char) = true.
Proof.
  destruct (name_char c) eqn:E; [exact E | reflexivity].
Qed.

Lemma replace_invalid_name_chars (s : string) :
  all_units name_char (replace_invalid s) = true.
Proof.
  induction s as [|c s IH]; simpl; [reflexivity|].
  fold (replace_invalid s). now rewrite name_char_dash_or_self, IH.
Qed.

Lemma all_units_cons (p : ascii -> bool) (c : ascii) (s : string) :
  all_units p (String c s) = (p c && all_units p s)%bool.
Proof. reflexivity. Qed.

Lemma collapse_dashes_eq (c : ascii) (s : string) :
  collapse_dashes (String c s)
  = if is_dash c then
      match s with
      | String d _ =>
          if is_dash d then collapse_dashes s else String c (collapse_dashes s)
      | EmptyString => String c EmptyString
      end
    else String c (collapse_dashes s).
Proof. reflexivity. Qed.

Lemma collapse_dashes_all (p : ascii -> bool) (s : string) :
  all_units p s = true -> all_units p (collapse_dashes s) = true.
Proof.
  induction s as [|c s IH]; [reflexivity|].
  intros H. simpl in H. apply andb_true_iff in H as [Hc Hs].
  specialize (IH Hs). rewrite collapse_dashes_eq.
  destruct (is_dash c); [destruct s as [|d s]|].
  - simpl. now rewrite Hc.
  - destruct (is_dash d); [exact IH|].
    now rewrite all_units_cons, Hc, IH.
  - now rewrite all_units_cons, Hc, IH.
Qed.

Lemma collapse_dashes_head (c : ascii) (s : string) :
  is_dash c = false ->
  collapse_dashes (String c s) = String c (collapse_dashes s).
Proof. intros H. simpl. now rewrite H. Qed.

Lemma no_dash_run_cons (c d : ascii) (s : string) :
  no_dash_run (String c (String d s))
  = (negb (is_dash c && is_dash d) && no_dash_run (String d s))%bool.
Proof. reflexivity. Qed.

Lemma collapse_dashes_no_run (s : string) :
  no_dash_run (collapse_dashes s) = true.
Proof.
  induction s as [|c s IH]; [reflexivity|].
  rewrite collapse_dashes_eq. destruct (is_dash c) eqn:Ec.
  - destruct s as [|d s]; [reflexivity|].
    destruct (is_dash d) eqn:Ed; [exact IH|].
    rewrite collapse_dashes_head in * by exact Ed.
    now rewrite no_dash_run_cons, Ec, Ed, IH.
  - destruct (collapse_dashes s) as [|d t] eqn:E; [reflexivity|].
    now rewrite no_dash_run_cons, Ec, IH.
Qed.

Lemma strip_leading_all (p : ascii -> bool) (s : string) :
  all_units p s = true -> all_units p (strip_leading_dash s) = true.
Proof.
  destruct s as [|c s]; [reflexivity|]. simpl. intros H.
  destruct (is_dash c); [|exact H].
  now apply andb_true_iff in H as [_ H].
Qed.

Lemma strip_trailing_all (p : ascii -> bool) (s : string) :
  all_units p s = true -> all_units p (strip_trailing_dash s) = true.
Proof.
  induction s as [|c s IH]; [reflexivity|]. intros H.
  simpl in H. apply andb_true_iff in H as [Hc Hs]. specialize (IH Hs).
  destruct s as [|d s].
  - simpl. destruct (is_dash c); [reflexivity|]. simpl. now rewrite Hc.
  - change (strip_trailing_dash (String c (String d s)))
      with (String c (strip_trailing_dash (String d s))).
    now rewrite all_units_cons, Hc, IH.
Qed.

Lemma strip_leading_no_run (s : string) :
  no_dash_run s = true -> no_dash_run (strip_leading_dash s) = true.
Proof.
  destruct s as [|c s]; [reflexivity|]. intros H.
  unfold strip_leading_dash. destruct (is_dash c); [|exact H].
  destruct s as [|d s]; [reflexivity|].
  rewrite no_dash_run_cons in H. now apply andb_true_iff in H as [_ H].
Qed.

Lemma strip_leading_no_leading (s : string) :
  no_dash_run s = true -> no_leading_dash (strip_leading_dash s) = true.
Proof.
  destruct s as [|c s]; [reflexivity|]. intros H.
  unfold strip_leading_dash. destruct (is_dash c) eqn:Ec.
  - destruct s as [|d s]; [reflexivity|].
    rewrite no_dash_run_cons, Ec in H. apply andb_true_iff in H as [H _].
    simpl in *. now destruct (is_dash d).
  - simpl. now rewrite Ec.
Qed.

Lemma strip_trailing_step (c d : ascii) (s : string) :
  strip_trailing_dash (String c (String d s))
  = String c (strip_trailing_dash (String d s)).
Proof. reflexivity. Qed.

Lemma strip_trailing_no_run (s : string) :
  no_dash_run s = true -> no_dash_run (strip_trailing_dash s) = true.
Proof.
  induction s as [|c s IH]; [reflexivity|]. intros H.
  destruct s as [|d s]; [simpl; now destruct (is_dash c)|].
  rewrite strip_trailing_step.
  rewrite no_dash_run_cons in H. apply andb_true_iff in H as [Hcd Hs].
  specialize (IH Hs).
  destruct (strip_trailing_dash (String d s)) as [|d' s'] eqn:E; [reflexivity|].
  assert (d' = d) as ->.
  { destruct s as [|e s].
    - simpl in E. destruct (is_dash d); congruence.
    - rewrite strip_trailing_step in E. congruence. }
  now rewrite no_dash_run_cons, Hcd, IH.
Qed.

Lemma strip_trailing_no_leading (s : string) :
  no_leading_dash s = true -> no_leading_dash (strip_trailing_dash s) = true.
Proof.
  destruct s as [|c s]; [reflexivity|]. intros H.
  destruct s as [|d s]; [|exact H].
  simpl in *. destruct (is_dash c) eqn:Ec; [discriminate|].
  simpl. now rewrite Ec.
Qed.

Lemma strip_trailing_no_trailing (s : string) :
  no_dash_run s = true -> no_trailing_dash (strip_trailing_dash s) = true.
Proof.
  induction s as [|c s IH]; [reflexivity|]. intros H.
  destruct s as [|d s].
  - simpl. destruct (is_dash c) eqn:Ec; [reflexivity|]. simpl. now rewrite Ec.
  - rewrite strip_trailing_step.
    rewrite no_dash_run_cons in H. apply andb_true_iff in H as [Hcd Hs].
    specialize (IH Hs).
    destruct (strip_trailing_dash (String d s)) as [|d' s'] eqn:E.
    + (* the rest was a lone dash: [c] is not one *)
      destruct s as [|e s]; [|rewrite strip_trailing_step in E; discriminate].
      simpl in E. destruct (is_dash d) eqn:Ed; [|discriminate].
      rewrite andb_true_r in Hcd. simpl. exact Hcd.
    + exact IH.
Qed.

Lemma toLowerCase_fixed (s : string) :
  all_units name_char s = true -> toLowerCase s = s.
Proof.
  unfold toLowerCase.
  induction s as [|c s IH]; [reflexivity|].
  rewrite all_units_cons. intros H. apply andb_true_iff in H as [Hc Hs].
  simpl. now rewrite name_char_lower_unit, IH.
Qed.

Lemma replace_invalid_fixed (s : string) :
  all_units name_char s = true -> replace_invalid s = s.
Proof.
  unfold replace_invalid.
  induction s as [|c s IH]; [reflexivity|].
  rewrite all_units_cons. intros H. apply andb_true_iff in H as [Hc Hs].
  simpl. now rewrite Hc, IH.
Qed.

Lemma collapse_dashes_fixed (s : string) :
  no_dash_run s = true -> collapse_dashes s = s.
Proof.
  induction s as [|c s IH]; [reflexivity|]. intros H.
  rewrite collapse_dashes_eq.
  destruct s as [|d s]; [now destruct (is_dash c)|].
  rewrite no_dash_run_cons in H. apply andb_true_iff in H as [Hcd Hs].
  rewrite (IH Hs).
  destruct (is_dash c); [|reflexivity].
  destruct (is_dash d); [discriminate | reflexivity].
Qed.

Lemma strip_leading_fixed (s : string) :
  no_leading_dash s = true -> strip_leading_dash s = s.
Proof.
  destruct s as [|c s]; [reflexivity|]. simpl.
  now destruct (is_dash c).
Qed.

Lemma strip_trailing_fixed (s : string) :
  no_trailing_dash s = true -> strip_trailing_dash s = s.
Proof.
  induction s as [|c s IH]; [reflexivity|]. intros H.
  destruct s as [|d s].
  - simpl in *. now destruct (is_dash c).
  - rewrite strip_trailing_step. now rewrite (IH H).
Qed.

Lemma sanitizeRepoName_normalized (s : string) :
  normalized (sanitizeRepoName s) = true.
Proof.
  unfold sanitizeRepoName, strip_edge_dashes, normalized.
  set (t := collapse_dashes (replace_invalid (toLowerCase s))).
  assert (Ha : all_units name_char t = true)
    by apply collapse_dashes_all, replace_invalid_name_chars.
  assert (Hr : no_dash_run t = true) by apply collapse_dashes_no_run.
  repeat (apply andb_true_iff; split).
  - now apply strip_trailing_all, strip_leading_all.
  - now apply strip_trailing_no_run, strip_leading_no_run.
  - now apply strip_trailing_no_leading, strip_leading_no_leading.
  - now apply strip_trailing_no_trailing, strip_leading_no_run.
Qed.

Lemma sanitizeRepoName_fixed (s : string) :
  normalized s = true -> sanitizeRepoName s = s.
Proof.
  unfold normalized. intros H.
  apply andb_true_iff in H as [H Ht].
  apply andb_true_iff in H as [H Hl].
  apply andb_true_iff in H as [Ha Hr].
  unfold sanitizeRepoName, strip_edge_dashes.
  rewrite (toLowerCase_fixed _ Ha), (replace_invalid_fixed _ Ha),
    (collapse_dashes_fixed _ Hr), (strip_leading_fixed _ Hl).
  exact (strip_trailing_fixed _ Ht).
Qed.

(** C9.  Normalizing a name twice gives what normalizing it once gives, for
    every input; and the two names of the specification normalize as it
    says: "My Repo!!" to "my-repo" and "--Foo--" to "foo". *)
Theorem sanitizeRepoName_idempotent :
  (forall s : string,
      sanitizeRepoName (sanitizeRepoName s) = sanitizeRepoName s)
  /\ sanitizeRepoName "My Repo!!" = "my-repo"
  /\ sanitizeRepoName "--Foo--" = "foo".
Proof.
  split; [|split; reflexivity].
  intros s. apply sanitizeRepoName_fixed, sanitizeRepoName_normalized.
Qed.

(** ** The [Map] and the registry *)

Lemma map_get_set_same {V : Type} (k : Z) (v : V) (m : JsMap V) :
  map_get k (map_set k v m) = Some v.
Proof.
  induction m as [|[k' v'] m IH]; simpl.
  - now rewrite Z.eqb_refl.
  - destruct (Z.eqb_spec k' k) as [->|Hne]; simpl.
    + now rewrite Z.eqb_refl.
    + destruct (Z.eqb_spec k' k); [contradiction | exact IH].
Qed.

Lemma map_get_set_other {V : Type} (k k' : Z) (v : V) (m : JsMap V) :
  k <> k' -> map_get k' (map_set k v m) = map_get k' m.
Proof.
  intros Hne. induction m as [|[k0 v0] m IH]; simpl.
  - destruct (Z.eqb_spec k k'); [contradiction | reflexivity].
  - destruct (Z.eqb_spec k0 k) as [->|Hk]; simpl.
    + destruct (Z.eqb_spec k k'); [contradiction | reflexivity].
    + now rewrite IH.
Qed.

Lemma get_store_same (i : Z) (m : Migration) (this : MemStorage.t) :
  MemStorage.getMigration i (MemStorage.store i m this) = Some m.
Proof. apply map_get_set_same. Qed.

Lemma get_store_other (i j : Z) (m : Migration) (this : MemStorage.t) :
  i <> j ->
  MemStorage.getMigration j (MemStorage.store i m this)
  = MemStorage.getMigration j this.
Proof. apply map_get_set_other. Qed.

Lemma currentId_store (i : Z) (m : Migration) (this : MemStorage.t) :
  MemStorage.currentId (MemStorage.store i m this) = MemStorage.currentId this.
Proof. reflexivity. Qed.

Lemma get_create_same (req : Insert.t) (this : MemStorage.t) :
  MemStorage.getMigration (MemStorage.currentId this)
    (snd (MemStorage.createMigration req this))
  = Some (fst (MemStorage.createMigration req this)).
Proof. apply map_get_set_same. Qed.

Lemma get_create_other (req : Insert.t) (this : MemStorage.t) (j : Z) :
  MemStorage.currentId this <> j ->
  MemStorage.getMigration j (snd (MemStorage.createMigration req this))
  = MemStorage.getMigration j this.
Proof. apply map_get_set_other. Qed.

Lemma status_status_update s now m : status (MemStorage.status_update s now m) = s.
Proof.
  destruct m as [? ? ? ? ? ? ? ? ? ? ? ? ? sa ? ? ? ?].
  destruct s, sa; reflexivity.
Qed.

Lemma progress_status_update s now m :
  progress (MemStorage.status_update s now m) = progress m.
Proof.
  destruct m as [? ? ? ? ? ? ? ? ? ? ? ? ? sa ? ? ? ?].
  destruct s, sa; reflexivity.
Qed.

Lemma error_status_update s now m :
  error (MemStorage.status_update s now m) = error m.
Proof.
  destruct m as [? ? ? ? ? ? ? ? ? ? ? ? ? sa ? ? ? ?].
  destruct s, sa; reflexivity.
Qed.

Lemma startedAt_status_update s now m :
  startedAt (MemStorage.status_update s now m)
  = match startedAt m with
    | Some t => Some t
    | None => if MigrationStatus_eqb s in_progress then Some now else None
    end.
Proof.
  destruct m as [? ? ? ? ? ? ? ? ? ? ? ? ? sa ? ? ? ?].
  destruct s, sa; reflexivity.
Qed.

Lemma after_call_create (this : MemStorage.t) (req : Insert.t) :
  after_call this (CallCreate req) = snd (MemStorage.createMigration req this).
Proof. reflexivity. Qed.

Lemma currentId_create (this : MemStorage.t) (req : Insert.t) :
  MemStorage.currentId (snd (MemStorage.createMigration req this))
  = MemStorage.currentId this + 1.
Proof. reflexivity. Qed.

(** What one call does to a record that exists, as far as [startedAt] and
    the identifier counter go. *)
Lemma after_call_record (this : MemStorage.t) (c : Call) (i : Z) (m : Migration) :
  MemStorage.getMigration i this = Some m ->
  i < MemStorage.currentId this ->
  exists m',
    MemStorage.getMigration i (after_call this c) = Some m'
    /\ startedAt m' = match startedAt m with
                      | Some t => Some t
                      | None => first_started i [c]
                      end
    /\ i < MemStorage.currentId (after_call this c).
Proof.
  intros Hget Hlt.
  assert (Hsame : startedAt m = match startedAt m with
                                | Some t => Some t | None => None end)
    by now destruct (startedAt m).
  destruct c as [req | j s now | j p | j e];
    [rewrite after_call_create | unfold after_call, call ..].
  - exists m. rewrite get_create_other, currentId_create by lia.
    repeat split; auto; lia.
  - unfold MemStorage.updateMigrationStatus.
    destruct (Z.eqb_spec j i) as [->|Hne].
    + rewrite Hget. eexists. rewrite get_store_same. split; [reflexivity|].
      split; [|exact Hlt].
      rewrite startedAt_status_update. simpl. rewrite Z.eqb_refl.
      now destruct s.
    + exists m. assert (first_started i [CallStatus j s now] = None) as ->.
      { simpl. destruct s; try reflexivity.
        now destruct (Z.eqb_spec j i). }
      destruct (MemStorage.getMigration j this);
        [rewrite get_store_other by exact Hne|]; auto.
  - unfold MemStorage.updateMigrationProgress.
    destruct (Z.eqb_spec j i) as [->|Hne].
    + rewrite Hget. eexists. rewrite get_store_same. split; [reflexivity|].
      split; [exact Hsame | exact Hlt].
    + exists m. destruct (MemStorage.getMigration j this);
        [rewrite get_store_other by exact Hne|]; auto.
  - unfold MemStorage.updateMigrationError.
    destruct (Z.eqb_spec j i) as [->|Hne].
    + rewrite Hget. eexists. rewrite get_store_same. split; [reflexivity|].
      split; [exact Hsame | exact Hlt].
    + exists m. destruct (MemStorage.getMigration j this);
        [rewrite get_store_other by exact Hne|]; auto.
Qed.

Lemma first_started_cons (i : Z) (c : Call) (cs : list Call) :
  first_started i (c :: cs)
  = match first_started i [c] with
    | Some t => Some t
    | None => first_started i cs
    end.
Proof.
  destruct c as [req | j s now | j p | j e]; try reflexivity.
  destruct s; try reflexivity. simpl. now destruct (j =? i).
Qed.

Lemma after_calls_record (cs : list Call) :
  forall (this : MemStorage.t) (i : Z) (m : Migration),
    MemStorage.getMigration i this = Some m ->
    i < MemStorage.currentId this ->
    exists m',
      MemStorage.getMigration i (after_calls cs this) = Some m'
      /\ startedAt m' = match startedAt m with
                        | Some t => Some t
                        | None => first_started i cs
                        end.
Proof.
  induction cs as [|c cs IH]; intros this i m Hget Hlt.
  - exists m. split; [exact Hget | now destruct (startedAt m)].
  - destruct (after_call_record this c i m Hget Hlt) as (m1 & Hget1 & Hs1 & Hlt1).
    destruct (IH _ _ _ Hget1 Hlt1) as (m' & Hget' & Hs').
    exists m'. split; [exact Hget'|].
    rewrite Hs', Hs1, (first_started_cons i c cs).
    destruct (startedAt m); [reflexivity|].
    now destruct (first_started i [c]).
Qed.

Lemma currentId_after_call (this : MemStorage.t) (c : Call) :
  MemStorage.currentId this <= MemStorage.currentId (after_call this c).
Proof.
  destruct c as [req | j s now | j p | j e];
    [rewrite after_call_create, currentId_create | unfold after_call, call ..].
  - lia.
  - unfold MemStorage.updateMigrationStatus.
    destruct (MemStorage.getMigration j this); simpl; lia.
  - unfold MemStorage.updateMigrationProgress.
    destruct (MemStorage.getMigration j this); simpl; lia.
  - unfold MemStorage.updateMigrationError.
    destruct (MemStorage.getMigration j this); simpl; lia.
Qed.

Lemma issued_bounds (cs : list Call) :
  forall (this : MemStorage.t) (j : Z),
    In j (issued cs this) ->
    MemStorage.currentId this <= j < MemStorage.currentId (after_calls cs this).
Proof.
  induction cs as [|c cs IH]; intros this j Hin; [contradiction|].
  assert (Hstep := currentId_after_call this c).
  assert (Hrest : In j (issued cs (after_call this c)) ->
                  MemStorage.currentId this <= j
                  < MemStorage.currentId (after_calls (c :: cs) this)).
  { intros H. apply IH in H. simpl. lia. }
  destruct c as [req | k s now | k p | k e]; simpl in Hin; auto.
  destruct Hin as [<-|Hin]; [|auto].
  assert (Hmono : forall cs' st, MemStorage.currentId st
                                 <= MemStorage.currentId (after_calls cs' st)).
  { clear. induction cs' as [|c' cs' IH']; intros st; simpl; [lia|].
    specialize (IH' (after_call st c')).
    assert (H := currentId_after_call st c'). lia. }
  specialize (Hmono cs (after_call this (CallCreate req))).
  change (after_calls (CallCreate req :: cs) this)
    with (after_calls cs (after_call this (CallCreate req))).
  rewrite after_call_create, currentId_create in *.
  change (id (fst (MemStorage.createMigration req this)))
    with (MemStorage.currentId this).
  lia.
Qed.

(** No record sits at or above the identifier counter. *)
Lemma keys_below_after_call (this : MemStorage.t) (c : Call) :
  (forall j, MemStorage.currentId this <= j -> MemStorage.getMigration j this = None) ->
  forall j, MemStorage.currentId (after_call this c) <= j ->
            MemStorage.getMigration j (after_call this c) = None.
Proof.
  intros Hinv j Hj.
  assert (Hstep := currentId_after_call this c).
  revert Hj Hstep.
  destruct c as [req | k s now | k p | k e];
    [rewrite after_call_create, currentId_create | unfold after_call, call ..].
  - intros Hj _. rewrite get_create_other by lia. apply Hinv; lia.
  - unfold MemStorage.updateMigrationStatus.
    destruct (MemStorage.getMigration k this) eqn:Hk; intros Hj _; [|apply Hinv; exact Hj].
    simpl in Hj. destruct (Z.eq_dec k j) as [->|Hne].
    + rewrite Hinv in Hk by exact Hj. discriminate.
    + rewrite get_store_other by exact Hne. now apply Hinv.
  - unfold MemStorage.updateMigrationProgress.
    destruct (MemStorage.getMigration k this) eqn:Hk; intros Hj _; [|apply Hinv; exact Hj].
    simpl in Hj. destruct (Z.eq_dec k j) as [->|Hne].
    + rewrite Hinv in Hk by exact Hj. discriminate.
    + rewrite get_store_other by exact Hne. now apply Hinv.
  - unfold MemStorage.updateMigrationError.
    destruct (MemStorage.getMigration k this) eqn:Hk; intros Hj _; [|apply Hinv; exact Hj].
    simpl in Hj. destruct (Z.eq_dec k j) as [->|Hne].
    + rewrite Hinv in Hk by exact Hj. discriminate.
    + rewrite get_store_other by exact Hne. now apply Hinv.
Qed.

Lemma keys_below_after_calls (cs : list Call) :
  forall this : MemStorage.t,
    (forall j, MemStorage.currentId this <= j -> MemStorage.getMigration j this = None) ->
    forall j, MemStorage.currentId (after_calls cs this) <= j ->
              MemStorage.getMigration j (after_calls cs this) = None.
Proof.
  induction cs as [|c cs IH]; intros this Hinv; [exact Hinv|].
  simpl. apply IH. now apply keys_below_after_call.
Qed.

Lemma keys_below_constructor (j : Z) :
  MemStorage.getMigration j MemStorage.constructor = None.
Proof. reflexivity. Qed.

Lemma after_calls_app (cs1 cs2 : list Call) (this : MemStorage.t) :
  after_calls (cs1 ++ cs2)%list this = after_calls cs2 (after_calls cs1 this).
Proof. apply fold_left_app. Qed.

Lemma issued_app (cs1 cs2 : list Call) :
  forall this : MemStorage.t,
    issued (cs1 ++ cs2)%list this
    = (issued cs1 this ++ issued cs2 (after_calls cs1 this))%list.
Proof.
  induction cs1 as [|c cs1 IH]; intros this; [reflexivity|].
  destruct c; simpl; now rewrite IH.
Qed.

(** ** Creation *)

(** C4.  After any sequence of calls on a new registry, [createMigration]
    on a request that carries the status pending (as every request built
    by the intake route does) returns a record with status pending,
    progress 0, no error, no [startedAt] and no [completedAt]; no record
    of the registry carries its identifier, the identifier is above every
    identifier issued before, and it is the one appended to the issued
    identifiers. *)
Theorem createMigration_fresh_record
    (cs : list Call) (insertMigration : Insert.t) :
  Insert.status insertMigration = pending ->
  let this := after_calls cs MemStorage.constructor in
  let migration := fst (MemStorage.createMigration insertMigration this) in
  status migration = pending
  /\ progress migration = 0
  /\ error migration = None
  /\ startedAt migration = None
  /\ completedAt migration = None
  /\ MemStorage.getMigration (id migration) this = None
  /\ (forall j, In j (issued cs MemStorage.constructor) -> j < id migration)
  /\ issued (cs ++ [CallCreate insertMigration])%list MemStorage.constructor
     = (issued cs MemStorage.constructor ++ [id migration])%list.
Proof.
  intros Hpending this migration.
  repeat split; try reflexivity.
  - exact Hpending.
  - apply keys_below_after_calls; [|apply Z.le_refl].
    intros j _. apply keys_below_constructor.
  - intros j Hin. apply issued_bounds in Hin. exact (proj2 Hin).
  - now rewrite issued_app.
Qed.

(** ** [startedAt] *)

(** C10.  Take a record at its creation, after any calls on the registry,
    and let any sequence of calls follow (status, progress and error
    updates of this or other records, further creations).  The record is
    still there and its [startedAt] is the time of the first status update
    that moved it into in_progress: no later update changes it, and it is
    unset when no such update was made. *)
Theorem startedAt_first_in_progress
    (before : list Call) (insertMigration : Insert.t) (after : list Call) :
  let created :=
    MemStorage.createMigration insertMigration
      (after_calls before MemStorage.constructor) in
  exists latest : Migration,
    MemStorage.getMigration (id (fst created)) (after_calls after (snd created))
    = Some latest
    /\ startedAt latest = first_started (id (fst created)) after.
Proof.
  intros created.
  destruct (after_calls_record after (snd created) (id (fst created)) (fst created))
    as (latest & Hget & Hstarted).
  - apply get_create_same.
  - unfold created. rewrite currentId_create. simpl. lia.
  - exists latest. split; [exact Hget | exact Hstarted].
Qed.

(** ** The transfer engine, stage by stage *)

Lemma map_set_set {V : Type} (k : Z) (v v' : V) (m : JsMap V) :
  map_set k v (map_set k v' m) = map_set k v m.
Proof.
  induction m as [|[k0 v0] m IH]; simpl.
  - now rewrite Z.eqb_refl.
  - destruct (Z.eqb_spec k0 k) as [->|Hne]; simpl.
    + now rewrite Z.eqb_refl.
    + destruct (Z.eqb_spec k0 k); [contradiction|]. now rewrite IH.
Qed.

Lemma store_store (i : Z) (m m' : Migration) (this : MemStorage.t) :
  MemStorage.store i m (MemStorage.store i m' this) = MemStorage.store i m this.
Proof. unfold MemStorage.store. simpl. now rewrite map_set_set. Qed.

Lemma latest_app (m : Migration) (us vs : list Update) :
  latest m (us ++ vs)%list = latest (latest m us) vs.
Proof. apply fold_left_app. Qed.

Lemma versions_app (us vs : list Update) :
  forall m : Migration,
    versions m (us ++ vs)%list
    = (versions m us ++ versions (latest m us) vs)%list.
Proof.
  induction us as [|u us IH]; intros m; [reflexivity|].
  simpl. now rewrite IH.
Qed.


Lemma remove_dir_subset (d x : string) (dirs : list string) :
  In x (remove_dir d dirs) -> In x dirs.
Proof. unfold remove_dir. intros H. now apply filter_In in H. Qed.

Lemma remove_dir_cons (d : string) (dirs : list string) :
  remove_dir d (d :: dirs) = remove_dir d dirs.
Proof. unfold remove_dir. simpl. now rewrite String.eqb_refl. Qed.

(** Symbolic execution of the engine: unfold the stages, answer each
    registry lookup from what is known of the record, and split on each
    answer of the environment (or take it from a hypothesis). *)
Ltac engine_unfold :=
  unfold migrateRepository, migrateRepository_try, migrateRepository_catch,
    migrateRepository_finally;
  unfold storage_updateMigrationStatus, storage_updateMigrationProgress,
    storage_updateMigrationError, console_log, console_error,
    mkdtempSync, rmSync, execSync, axios_post, sanitizeRepoName_call;
  unfold MemStorage.updateMigrationStatus, MemStorage.updateMigrationProgress,
    MemStorage.updateMigrationError, commit, emit, lift;
  unfold try_finally, try_catch, bind, ret, throw.

Ltac engine_simpl :=
  cbn [storage fs trace tempDir set_storage set_fs add_event set_tempDir fst snd].

Ltac engine_step :=
  first
    [ rewrite get_store_same
    | match goal with
      | H : MemStorage.getMigration ?i ?st = _
        |- context [MemStorage.getMigration ?i ?st] => rewrite H
      | H : decrypt ?env ?x = _ |- context [decrypt ?env ?x] => rewrite H
      | H : nth_error ?l 1 = _ |- context [match nth_error ?l 1 with _ => _ end] =>
          rewrite H
      | H : mkdtemp_suffix ?env ?x = _ |- context [mkdtemp_suffix ?env ?x] =>
          rewrite H
      | H : run_process ?env ?c ?d = _ |- context [run_process ?env ?c ?d] =>
          rewrite H
      | H : post_failure ?env ?a ?b ?c = _
        |- context [post_failure ?env ?a ?b ?c] => rewrite H
      | H : status_is_422 ?e = _ |- context [status_is_422 ?e] => rewrite H
      | H : rm_failure ?env ?d = _ |- context [rm_failure ?env ?d] => rewrite H
      | |- context [decrypt ?env ?x] => destruct (decrypt env x) eqn:?
      | |- context [match nth_error ?l 1 with _ => _ end] =>
          destruct (nth_error l 1) eqn:?
      | |- context [mkdtemp_suffix ?env ?x] => destruct (mkdtemp_suffix env x) eqn:?
      | |- context [run_process ?env ?c ?d] => destruct (run_process env c d) eqn:?
      | |- context [post_failure ?env ?a ?b ?c] =>
          destruct (post_failure env a b c) eqn:?
      | |- context [status_is_422 ?e] => destruct (status_is_422 e) eqn:?
      | |- context [rm_failure ?env ?d] => destruct (rm_failure env d) eqn:?
      end ].

Ltac engine_run :=
  engine_unfold; engine_simpl; repeat (engine_step; engine_simpl).

Ltac effects_simpl :=
  cbn [storage fs trace tempDir set_storage set_fs add_event set_tempDir];
  rewrite ?store_store;
  cbn [commits];
  rewrite <- ?app_assoc;
  cbn [app latest versions fold_left apply_update firstn checkpoints].

Ltac close_failed n :=
  eexists; eexists (firstn n (checkpoints _)); effects_simpl;
  repeat split; try reflexivity;
  exists n; split; [lia | reflexivity].

Ltac close_completed :=
  eexists; eexists (checkpoints _ ++ [UStatus completed _; UProgress 100])%list;
  effects_simpl; repeat split; try reflexivity;
  eexists; reflexivity.

(** The [try] block, whatever the environment answers: it rewrites the one
    record through a sequence of single-field updates, which is the whole
    list of checkpoints followed by completed and 100 when it returns, and
    the first two, three or four checkpoints when it throws; the only
    directory it may add is the one it remembers in [tempDir]. *)
Lemma try_block_effects env migration w m0 r wb :
  MemStorage.getMigration (id migration) (storage w) = Some m0 ->
  tempDir w = None ->
  migrateRepository_try env migration w = (r, wb) ->
  exists started us,
    storage wb = MemStorage.store (id migration) (latest m0 us) (storage w)
    /\ commits (trace wb) = (commits (trace w) ++ versions m0 us)%list
    /\ fs wb = match tempDir wb with Some d => d :: fs w | None => fs w end
    /\ match r with
       | Ok _ => exists finished,
           us = (checkpoints started
                 ++ [UStatus completed finished; UProgress 100])%list
       | Throw e => exists n, (2 <= n <= 4)%nat /\ us = firstn n (checkpoints started)
       end.
Proof.
  intros Hget Htd. destruct w as [st dirs tr td].
  cbn [storage tempDir] in Hget, Htd. subst td. revert r wb.
  engine_run.
  all: intros r wb H; injection H as <- <-.
  all: lazymatch goal with
       | |- context [MemStorage.store _ (with_progress 100 _) _] => close_completed
       | |- context [MemStorage.store _ (with_progress 40 _) _] => close_failed 4%nat
       | |- context [MemStorage.store _ (with_progress 20 _) _] => close_failed 3%nat
       | |- context [MemStorage.store _ (with_progress 10 _) _] => close_failed 2%nat
       end.
Qed.

(** The [catch] block on a record that exists: failed, then the message. *)
Lemma catch_effects env migration e wb m :
  MemStorage.getMigration (id migration) (storage wb) = Some m ->
  exists failed_at w',
    migrateRepository_catch env migration e wb = (Ok tt, w')
    /\ storage w'
       = MemStorage.store (id migration)
           (latest m [UStatus failed failed_at; UError (errorMessage e)])
           (storage wb)
    /\ commits (trace w')
       = (commits (trace wb)
          ++ versions m [UStatus failed failed_at; UError (errorMessage e)])%list
    /\ fs w' = fs wb /\ tempDir w' = tempDir wb.
Proof.
  intros Hget. destruct wb as [st dirs tr td]. cbn [storage] in Hget.
  engine_run.
  do 2 eexists. split; [reflexivity|]. effects_simpl. auto.
Qed.

(** The [finally] block: it never throws and never touches the registry;
    when a workspace was acquired it calls [rmSync] on it, and a failure of
    that call ends in the console. *)
Lemma finally_effects env wb :
  exists w',
    migrateRepository_finally env wb = (Ok tt, w')
    /\ storage w' = storage wb
    /\ commits (trace w') = commits (trace wb)
    /\ match tempDir wb with
       | None => fs w' = fs wb
       | Some dir =>
           In (EvRm dir) (trace w')
           /\ match rm_failure env dir with
              | None => fs w' = remove_dir dir (fs wb)
              | Some err =>
                  fs w' = fs wb
                  /\ In (EvLog ("Error cleaning up temporary directory: "
                                ++ err_message err)) (trace w')
              end
       end.
Proof.
  unfold migrateRepository_finally.
  destruct wb as [st dirs tr [dir|]]; cbn [tempDir].
  - unfold try_catch, rmSync, console_log, console_error, emit, bind, throw.
    cbn [add_event storage fs trace tempDir].
    destruct (rm_failure env dir) as [err|]; eexists; (split; [reflexivity|]);
      cbn; auto 10.
  - eexists. repeat split.
Qed.

(** A whole run on a record that exists.  It returns normally; the
    registry differs from the one before only at this record, rewritten
    through the updates [us]; these are the checkpoints, completed and 100
    when the [try] block returns, and a prefix of the checkpoints, failed
    and the message of the error when it throws; a workspace that was
    acquired has [rmSync] called on it. *)
Lemma engine_effects env migration w m0 :
  MemStorage.getMigration (id migration) (storage w) = Some m0 ->
  exists started us w',
    migrateRepository env migration w = (Ok tt, w')
    /\ storage w' = MemStorage.store (id migration) (latest m0 us) (storage w)
    /\ commits (trace w') = (commits (trace w) ++ versions m0 us)%list
    /\ match fst (migrateRepository_try env migration (set_tempDir None w)) with
       | Ok _ => exists finished,
           us = (checkpoints started
                 ++ [UStatus completed finished; UProgress 100])%list
       | Throw e => exists n failed_at,
           (2 <= n <= 4)%nat
           /\ us = (firstn n (checkpoints started)
                    ++ [UStatus failed failed_at; UError (errorMessage e)])%list
       end
    /\ match tempDir (snd (migrateRepository_try env migration (set_tempDir None w))) with
       | None => fs w' = fs w
       | Some dir =>
           In (EvRm dir) (trace w')
           /\ match rm_failure env dir with
              | None => fs w' = remove_dir dir (fs w)
              | Some err =>
                  fs w' = dir :: fs w
                  /\ In (EvLog ("Error cleaning up temporary directory: "
                                ++ err_message err)) (trace w')
              end
       end.
Proof.
  intros Hget.
  unfold migrateRepository, bind, try_finally, try_catch.
  destruct (migrateRepository_try env migration (set_tempDir None w))
    as [r wb] eqn:Hbody.
  destruct (try_block_effects env migration (set_tempDir None w) m0 r wb
              Hget eq_refl Hbody) as (started & us & Hst & Hco & Hfs & Hshape).
  cbn [storage fs trace set_tempDir fst snd] in *.
  destruct r as [[]|e].
  - (* the try block returned *)
    destruct (finally_effects env wb) as (w' & Hfin & Hst' & Hco' & Hws).
    rewrite Hfin. exists started, us, w'.
    split; [reflexivity|]. split; [congruence|]. split; [congruence|].
    split; [exact Hshape|].
    destruct (tempDir wb) as [dir|]; [|congruence].
    destruct Hws as [Hrm Hws]. split; [exact Hrm|].
    rewrite Hfs in Hws.
    destruct (rm_failure env dir); [exact Hws|].
    now rewrite remove_dir_cons in Hws.
  - (* the try block threw [e] *)
    destruct Hshape as (n & Hn & ->).
    assert (Hget' : MemStorage.getMigration (id migration) (storage wb)
                    = Some (latest m0 (firstn n (checkpoints started))))
      by (rewrite Hst; apply get_store_same).
    destruct (catch_effects env migration e wb _ Hget')
      as (failed_at & wc & Hcatch & Hstc & Hcoc & Hfsc & Htdc).
    rewrite Hcatch.
    destruct (finally_effects env wc) as (w' & Hfin & Hst' & Hco' & Hws).
    rewrite Hfin.
    exists started,
      (firstn n (checkpoints started)
       ++ [UStatus failed failed_at; UError (errorMessage e)])%list, w'.
    split; [reflexivity|].
    split; [rewrite Hst', Hstc, Hst, store_store, latest_app; reflexivity|].
    split; [rewrite Hco', Hcoc, Hco, versions_app, app_assoc; reflexivity|].
    split; [exists n, failed_at; auto|].
    rewrite Htdc in Hws.
    destruct (tempDir wb) as [dir|]; [|congruence].
    destruct Hws as [Hrm Hws]. split; [exact Hrm|].
    rewrite Hfsc, Hfs in Hws.
    destruct (rm_failure env dir); [exact Hws|].
    now rewrite remove_dir_cons in Hws.
Qed.

(** ** Versions and their fields *)

Lemma id_status_update s now m : id (MemStorage.status_update s now m) = id m.
Proof.
  destruct m as [? ? ? ? ? ? ? ? ? ? ? ? ? sa ? ? ? ?].
  destruct s, sa; reflexivity.
Qed.

Lemma id_apply_update (u : Update) (m : Migration) : id (apply_update u m) = id m.
Proof. destruct u; [apply id_status_update | reflexivity | reflexivity]. Qed.

Lemma id_latest (us : list Update) :
  forall m : Migration, id (latest m us) = id m.
Proof.
  induction us as [|u us IH]; intros m; [reflexivity|].
  unfold latest in *. simpl. now rewrite IH, id_apply_update.
Qed.

Lemma latest_completed (m : Migration) (us : list Update) (finished : Z) :
  let final := latest m (us ++ [UStatus completed finished; UProgress 100]) in
  status final = completed /\ progress final = 100
  /\ error final = error (latest m us).
Proof.
  rewrite latest_app. cbn [latest fold_left apply_update].
  cbn [status progress error with_progress].
  now rewrite status_status_update, error_status_update.
Qed.

Lemma latest_failed (m : Migration) (us : list Update) (failed_at : Z)
    (message : string) :
  let final := latest m (us ++ [UStatus failed failed_at; UError message]) in
  status final = failed /\ error final = Some message
  /\ progress final = progress (latest m us).
Proof.
  rewrite latest_app. cbn [latest fold_left apply_update].
  cbn [status progress error with_error].
  now rewrite status_status_update, progress_status_update.
Qed.

Lemma error_checkpoints (m : Migration) (started : Z) (n : nat) :
  error (latest m (firstn n (checkpoints started))) = error m.
Proof.
  do 6 (destruct n as [|n];
        [cbn [firstn checkpoints latest fold_left apply_update error with_progress];
         now rewrite ?error_status_update|]).
  cbn [firstn checkpoints latest fold_left apply_update error with_progress].
  now rewrite ?error_status_update.
Qed.

Lemma last_versions (us : list Update) :
  forall (m d : Migration) (before : list Migration),
    us <> [] -> last (before ++ versions m us) d = latest m us.
Proof.
  induction us as [|u us IH]; intros m d before Hne; [contradiction|].
  destruct us as [|u' us].
  - cbn [versions latest fold_left]. apply last_last.
  - change (versions m (u :: u' :: us))
      with ([apply_update u m] ++ versions (apply_update u m) (u' :: us))%list.
    rewrite app_assoc. rewrite IH by discriminate. reflexivity.
Qed.

(** ** Torn versions (C2) *)

(** C2, as stated, fails.  When the clone fails, the engine commits the
    status failed while the error is still null; when everything
    succeeds, it commits the status completed while the progress is still
    90. *)
Lemma torn_version_committed :
  (exists v,
      In v (commits (trace (snd (migrateRepository (env_clone_fails "AZ-PAT-s3cr3t")
                                   demo_migration demo_world))))
      /\ status v = failed /\ error v = None)
  /\ (exists v,
         In v (commits (trace (snd (migrateRepository env_ok
                                      demo_migration demo_world))))
         /\ status v = completed /\ progress v = 90).
Proof.
  split.
  - eexists. split; [|split].
    + vm_compute. do 4 right. left. reflexivity.
    + reflexivity.
    + reflexivity.
  - eexists. split; [|split].
    + vm_compute. do 5 right. left. reflexivity.
    + reflexivity.
    + reflexivity.
Qed.

(** C2, amended.  The last version that a run commits, which is the one
    the registry holds when the run has returned, has the status completed
    or failed; it is never failed with a null error and never completed
    with a progress other than 100.  (The version committed just before it
    carries the terminal status already.) *)
Theorem final_version_consistent env migration w m0 :
  MemStorage.getMigration (id migration) (storage w) = Some m0 ->
  let w' := snd (migrateRepository env migration w) in
  exists final,
    MemStorage.getMigration (id migration) (storage w') = Some final
    /\ last (commits (trace w')) m0 = final
    /\ (status final = completed \/ status final = failed)
    /\ (status final = failed -> error final <> None)
    /\ (status final = completed -> progress final = 100).
Proof.
  intros Hget w'.
  destruct (engine_effects env migration w m0 Hget)
    as (started & us & w1 & Hrun & Hst & Hco & Hshape & _).
  subst w'. rewrite Hrun. cbn [snd].
  exists (latest m0 us).
  split; [rewrite Hst; apply get_store_same|].
  assert (Hne : us <> []).
  { destruct (fst (migrateRepository_try env migration (set_tempDir None w))).
    - destruct Hshape as (finished & ->). discriminate.
    - destruct Hshape as (n & failed_at & _ & ->).
      intros H. apply app_eq_nil in H as [_ H]. discriminate. }
  split; [rewrite Hco; now apply last_versions|].
  destruct (fst (migrateRepository_try env migration (set_tempDir None w))).
  - destruct Hshape as (finished & ->).
    destruct (latest_completed m0 (checkpoints started) finished) as (Hs & Hp & _).
    rewrite Hs, Hp. split; [now left|]. split; [discriminate | reflexivity].
  - destruct Hshape as (n & failed_at & _ & ->).
    destruct (latest_failed m0 (firstn n (checkpoints started)) failed_at
                (errorMessage e)) as (Hs & He & _).
    rewrite Hs, He. split; [now right|]. split; [discriminate | discriminate].
Qed.

(** An instance: the run in which the creation call is answered 401. *)
Lemma final_version_consistent_witness :
  MemStorage.getMigration (id demo_migration) (storage demo_world)
  = Some demo_migration
  /\ exists final,
      MemStorage.getMigration (id demo_migration)
        (storage (snd (migrateRepository env_bad_credentials
                         demo_migration demo_world)))
      = Some final
      /\ last (commits (trace (snd (migrateRepository env_bad_credentials
                                      demo_migration demo_world))))
           demo_migration = final
      /\ (status final = completed \/ status final = failed)
      /\ (status final = failed -> error final <> None)
      /\ (status final = completed -> progress final = 100).
Proof.
  split; [reflexivity|].
  apply (final_version_consistent env_bad_credentials demo_migration demo_world
           demo_migration).
  reflexivity.
Defined.

(** ** Progress (C8) *)

(** C8, as stated, fails.  In a run where everything succeeds the version
    that carries the terminal status completed has progress 90 and the
    next one has 100; in a run where the clone fails the error changes
    after the status failed was committed; and the direct progress setter
    stores 250 when it is given 250. *)
Lemma progress_changes_after_terminal :
  (exists v1 v2,
      consecutive v1 v2
        (commits (trace (snd (migrateRepository env_ok demo_migration demo_world))))
      /\ terminal (status v1) = true
      /\ progress v1 = 90 /\ progress v2 = 100)
  /\ (exists v1 v2,
         consecutive v1 v2
           (commits (trace (snd (migrateRepository (env_clone_fails "AZ-PAT-s3cr3t")
                                   demo_migration demo_world))))
         /\ terminal (status v1) = true
         /\ error v1 = None /\ error v2 <> None)
  /\ (exists m,
         MemStorage.getMigration 1
           (storage (handle_all [PostMigration demo_request; PostProgress 1 250] boot))
         = Some m
         /\ progress m = 250).
Proof.
  split; [|split].
  - do 2 eexists. split; [|split; [|split]].
    + vm_compute. do 5 right. left. split; reflexivity.
    + reflexivity.
    + reflexivity.
    + reflexivity.
  - do 2 eexists. split; [|split; [|split]].
    + vm_compute. do 4 right. left. split; reflexivity.
    + reflexivity.
    + reflexivity.
    + discriminate.
  - eexists. split; reflexivity.
Qed.

(** C8, amended.  The versions that one run commits for a record whose
    progress is at most 10 before (0 at creation) are versions with
    status in_progress followed by exactly two versions with one terminal
    status; over all of them the progress is an integer in [0,100] and
    never decreases. *)
Theorem engine_progress_monotone env migration w m0 :
  MemStorage.getMigration (id migration) (storage w) = Some m0 ->
  0 <= progress m0 <= 10 ->
  let w' := snd (migrateRepository env migration w) in
  exists working ending final,
    commits (trace w') = (commits (trace w) ++ working ++ [ending; final])%list
    /\ Forall (fun v => status v = in_progress) working
    /\ status ending = status final
    /\ terminal (status final) = true
    /\ nondecreasing (progress m0 :: map progress (working ++ [ending; final]))
    /\ Forall (fun v => 0 <= progress v <= 100) (working ++ [ending; final]).
Proof.
  intros Hget Hp0 w'.
  destruct (engine_effects env migration w m0 Hget)
    as (started & us & w1 & Hrun & _ & Hco & Hshape & _).
  subst w'. rewrite Hrun. cbn [snd]. rewrite Hco. clear Hrun Hco.
  assert (Hus : exists n u1 u2,
             (2 <= n <= 5)%nat
             /\ us = (firstn n (checkpoints started) ++ [u1; u2])%list
             /\ ((exists t, u1 = UStatus completed t /\ u2 = UProgress 100 /\ n = 5%nat)
                 \/ (exists t msg, u1 = UStatus failed t /\ u2 = UError msg
                                   /\ (n <= 4)%nat))).
  { destruct (fst (migrateRepository_try env migration (set_tempDir None w))).
    - destruct Hshape as (finished & ->).
      exists 5%nat, (UStatus completed finished), (UProgress 100).
      split; [lia|]. split; [reflexivity|]. left. exists finished. auto.
    - destruct Hshape as (n & failed_at & Hn & ->).
      exists n, (UStatus failed failed_at), (UError (errorMessage e)).
      split; [lia|]. split; [reflexivity|]. right.
      exists failed_at, (errorMessage e). repeat split; lia. }
  destruct Hus as (n & u1 & u2 & Hn & -> & Hend).
  rewrite versions_app.
  exists (versions m0 (firstn n (checkpoints started))).
  exists (apply_update u1 (latest m0 (firstn n (checkpoints started)))).
  exists (apply_update u2
            (apply_update u1 (latest m0 (firstn n (checkpoints started))))).
  split; [reflexivity|].
  destruct n as [|[|[|[|[|[|n]]]]]]; try lia;
    cbn [firstn checkpoints versions latest fold_left apply_update app map].
  all: destruct Hend as [(t & -> & -> & Hn5) | (t & msg & -> & -> & Hn4)];
    try lia; cbn [apply_update].
  all: repeat split;
    cbn [status progress with_progress with_error terminal nondecreasing];
    rewrite ?status_status_update, ?progress_status_update;
    cbn [status progress with_progress with_error terminal nondecreasing];
    rewrite ?status_status_update, ?progress_status_update;
    try reflexivity; try lia.
  all: repeat constructor;
    cbn [status progress with_progress with_error];
    rewrite ?status_status_update, ?progress_status_update;
    cbn [status progress with_progress with_error];
    rewrite ?status_status_update, ?progress_status_update;
    try reflexivity; try lia.
Qed.

(** An instance: the run in which every stage succeeds. *)
Lemma engine_progress_monotone_witness :
  MemStorage.getMigration (id demo_migration) (storage demo_world)
  = Some demo_migration
  /\ 0 <= progress demo_migration <= 10
  /\ exists working ending final,
      commits (trace (snd (migrateRepository env_ok demo_migration demo_world)))
      = (commits (trace demo_world) ++ working ++ [ending; final])%list
      /\ Forall (fun v => status v = in_progress) working
      /\ status ending = status final
      /\ terminal (status final) = true
      /\ nondecreasing
           (progress demo_migration :: map progress (working ++ [ending; final]))
      /\ Forall (fun v => 0 <= progress v <= 100) (working ++ [ending; final]).
Proof.
  split; [reflexivity|]. split; [simpl; lia|].
  apply (engine_progress_monotone env_ok demo_migration demo_world demo_migration).
  - reflexivity.
  - simpl. lia.
Defined.

(** ** Error and status (C3) *)

(** C3, as stated, fails.  The direct error setter on a record that was
    just created leaves it pending with an error. *)
Lemma error_without_failed :
  exists m,
    MemStorage.getMigration 1
      (storage (handle_all [PostMigration demo_request; PostError 1 "boom"] boot))
    = Some m
    /\ status m = pending
    /\ error m = Some "boom".
Proof. eexists. repeat split. Qed.

Lemma run_ids_cons (r : Request) (rs : list Request) :
  run_ids (r :: rs) = (run_ids [r] ++ run_ids rs)%list.
Proof. destruct r; reflexivity. Qed.

Lemma record_ok_weaken (ran ran' : list Z) (i : Z) (m : Migration) :
  (forall j, In j ran -> In j ran') ->
  record_ok ran i m -> record_ok ran' i m.
Proof.
  intros Hsub (Hid & Hiff & Hfresh).
  split; [exact Hid|]. split; [exact Hiff|].
  intros H. apply Hfresh. intros Hin. apply H, Hsub, Hin.
Qed.

Lemma handle_keeps_registry_ok (ran : list Z) (w : World) (r : Request) :
  registry_ok ran w ->
  admissible r ->
  (forall i, In i (run_ids [r]) -> ~ In i ran) ->
  registry_ok (run_ids [r] ++ ran) (handle w r).
Proof.
  intros Hok Hadm Hnew.
  destruct r as [ins | i env | j p | j e]; cbn [run_ids app handle].
  - (* creation *)
    intros k m. cbn [storage set_storage].
    destruct (Z.eq_dec (MemStorage.currentId (storage w)) k) as [<-|Hne].
    + rewrite get_create_same. intros [= <-].
      cbn in Hadm. repeat split; cbn; congruence.
    + rewrite get_create_other by exact Hne. apply Hok.
  - (* a run of the engine *)
    destruct (MemStorage.getMigration i (storage w)) as [m0|] eqn:Hget.
    + destruct (Hok i m0 Hget) as (Hid & Hiff0 & Hfresh0).
      destruct Hfresh0 as [Hpending Hnull]; [apply Hnew; now left|].
      rewrite <- Hid in Hget.
      destruct (engine_effects env m0 w m0 Hget)
        as (started & us & w1 & Hrun & Hst & _ & Hshape & _).
      rewrite Hrun. cbn [snd]. intros k m. rewrite Hst, Hid.
      destruct (Z.eq_dec i k) as [<-|Hne].
      * rewrite get_store_same. intros [= <-].
        split; [now rewrite id_latest|].
        split; [|intros H; contradiction H; now left].
        destruct (fst (migrateRepository_try env m0 (set_tempDir None w))).
        -- destruct Hshape as (finished & ->).
           destruct (latest_completed m0 (checkpoints started) finished)
             as (Hs & _ & He).
           rewrite Hs, He.
           change (checkpoints started) with (firstn 5 (checkpoints started)).
           rewrite error_checkpoints, Hnull. split; [congruence | discriminate].
        -- destruct Hshape as (n & failed_at & _ & ->).
           destruct (latest_failed m0 (firstn n (checkpoints started)) failed_at
                       (errorMessage e)) as (Hs & He & _).
           rewrite Hs, He. split; [reflexivity | discriminate].
      * rewrite get_store_other by exact Hne. intros Hk.
        apply (record_ok_weaken ran); [intros; now right | now apply Hok].
    + intros k m Hk.
      apply (record_ok_weaken ran); [intros; now right | now apply Hok].
  - (* the direct progress setter *)
    unfold try_catch, bind, ret, storage_updateMigrationProgress, commit,
      MemStorage.updateMigrationProgress.
    destruct (MemStorage.getMigration j (storage w)) as [m0|] eqn:Hget;
      cbn [snd]; [|exact Hok].
    intros k m. cbn [storage add_event set_storage].
    destruct (Z.eq_dec j k) as [<-|Hne].
    + rewrite get_store_same. intros [= <-]. exact (Hok j m0 Hget).
    + rewrite get_store_other by exact Hne. apply Hok.
  - contradiction.
Qed.

Lemma handle_all_keeps_registry_ok (rs : list Request) :
  forall (ran : list Z) (w : World),
    registry_ok ran w ->
    Forall admissible rs ->
    NoDup (run_ids rs) ->
    (forall i, In i (run_ids rs) -> ~ In i ran) ->
    exists ran', registry_ok ran' (handle_all rs w).
Proof.
  induction rs as [|r rs IH]; intros ran w Hok Hadm Hnodup Hnew.
  - now exists ran.
  - rewrite run_ids_cons in Hnodup, Hnew.
    inversion Hadm as [|? ? Hr Hrs]; subst.
    apply (IH (run_ids [r] ++ ran)%list (handle w r)).
    + apply handle_keeps_registry_ok; auto.
      intros i Hi. apply Hnew, in_or_app. now left.
    + exact Hrs.
    + now apply NoDup_app_remove_l in Hnodup.
    + intros i Hi Hin. apply in_app_or in Hin as [Hin|Hin].
      * destruct r; try contradiction.
        destruct Hin as [<-|[]]. cbn [run_ids app] in Hnodup.
        inversion Hnodup; contradiction.
      * apply (Hnew i); [apply in_or_app; now right | exact Hin].
Qed.

(** C3, amended.  Take any sequence of creations that carry the status
    pending, of direct progress updates, and of engine runs with at most
    one run for each record (the direct error setter is left out: it
    writes the error whatever the status).  Every record of the registry
    then has a non-null error if and only if its status is failed. *)
Theorem error_iff_failed (rs : list Request) :
  Forall admissible rs ->
  NoDup (run_ids rs) ->
  forall i m,
    MemStorage.getMigration i (storage (handle_all rs boot)) = Some m ->
    (error m <> None <-> status m = failed).
Proof.
  intros Hadm Hnodup i m Hget.
  destruct (handle_all_keeps_registry_ok rs [] boot) as (ran' & Hok); auto.
  - intros k m0 Hk. discriminate.
  - exact (proj1 (proj2 (Hok i m Hget))).
Qed.

(** An instance: a creation, a run that fails, a direct progress update. *)
Lemma error_iff_failed_witness :
  Forall admissible
    [PostMigration demo_request; RunEngine 1 env_bad_credentials; PostProgress 1 55]
  /\ NoDup (run_ids [PostMigration demo_request; RunEngine 1 env_bad_credentials;
                     PostProgress 1 55])
  /\ exists m,
      MemStorage.getMigration 1
        (storage (handle_all [PostMigration demo_request;
                              RunEngine 1 env_bad_credentials;
                              PostProgress 1 55] boot))
      = Some m
      /\ (error m <> None <-> status m = failed).
Proof.
  assert (Hadm : Forall admissible
            [PostMigration demo_request; RunEngine 1 env_bad_credentials;
             PostProgress 1 55])
    by (repeat constructor).
  assert (Hnodup : NoDup (run_ids [PostMigration demo_request;
                                   RunEngine 1 env_bad_credentials;
                                   PostProgress 1 55]))
    by (repeat constructor; intros []).
  split; [exact Hadm|]. split; [exact Hnodup|].
  eexists. split; [vm_compute; reflexivity|].
  apply (error_iff_failed _ Hadm Hnodup 1). vm_compute. reflexivity.
Defined.

(** ** Failures end in the record (C7) *)






(** ** The answer 422 to the creation call (C6) *)

Ltac executed_so_far :=
  cbn [executed trace]; rewrite <- ?app_assoc; cbn [app]; reflexivity.

Section EnsureTargetRepository.

(** A run that gets as far as the creation call: the record is in the
    registry, both tokens decrypt, the source locator has a repository
    name, the workspace is created and the clone succeeds. *)
Variables (env : Env) (migration : Migration) (w : World) (m0 : Migration).
Variables (azure github source suffix : string).
Hypothesis Hrecord :
  MemStorage.getMigration (id migration) (storage w) = Some m0.
Hypothesis Hazure : decrypt env (azureToken migration) = Ok azure.
Hypothesis Hgithub : decrypt env (githubToken migration) = Ok github.
Hypothesis Hsource :
  nth_error (slice_last2 (split "/" (sourceRepo migration))) 1 = Some source.
Hypothesis Hworkspace :
  mkdtemp_suffix env (join (tmpdir env) "repo-migration-") = Ok suffix.
Hypothesis Hclone :
  run_process env (clone_command azure migration) (workspace env suffix) = Exit0.

(** In general: a failure of the creation call whose response has status
    422 lets the run go on to the re-pointing and the push. *)
Lemma creation_422_goes_on (e : JsError) :
  post_failure env "https://api.github.com/user/repos"
    (nth_error (split "/" (targetRepo migration)) 1) ("Bearer " ++ github)
  = Some e ->
  status_is_422 e = true ->
  let w' := snd (migrateRepository env migration w) in
  exists after,
    executed (trace w')
    = (executed (trace w)
       ++ clone_command azure migration
          :: set_url_command github migration :: after)%list
    /\ (run_process env (set_url_command github migration) (workspace env suffix)
        = Exit0 ->
        after = ["git push --mirror"]
        /\ (run_process env "git push --mirror" (workspace env suffix) = Exit0 ->
            exists final,
              MemStorage.getMigration (id migration) (storage w') = Some final
              /\ status final = completed /\ progress final = 100)).
Proof.
  intros Hpost H422 w'. subst w'. unfold workspace in *.
  destruct w as [st dirs tr td]. cbn [storage] in Hrecord.
  remember (migrateRepository env migration _) as run eqn:Hrun.
  revert Hrun. engine_run.
  all: intros ->; engine_simpl.
  all: eexists; (split; [executed_so_far|]); intros Hset; try congruence.
  all: (split; [reflexivity|]); intros Hpush; try congruence.
  all: eexists; rewrite get_store_same; split; [reflexivity|];
    cbn [status progress with_progress]; now rewrite status_status_update.
Qed.

(** Every other failure of the creation call ends the run: the record is
    failed with the message of the failure. *)
Lemma creation_failure_is_fatal (e : JsError) :
  post_failure env "https://api.github.com/user/repos"
    (nth_error (split "/" (targetRepo migration)) 1) ("Bearer " ++ github)
  = Some e ->
  status_is_422 e = false ->
  let w' := snd (migrateRepository env migration w) in
  (exists final,
      MemStorage.getMigration (id migration) (storage w') = Some final
      /\ status final = failed /\ error final = Some (errorMessage e))
  /\ executed (trace w')
     = (executed (trace w) ++ [clone_command azure migration])%list.
Proof.
  intros Hpost H422 w'. subst w'. unfold workspace in *.
  destruct w as [st dirs tr td]. cbn [storage] in Hrecord.
  remember (migrateRepository env migration _) as run eqn:Hrun.
  revert Hrun. engine_run.
  all: intros ->; engine_simpl.
  all: split; [|reflexivity].
  all: eexists; rewrite get_store_same; split; [reflexivity|];
    cbn [status error with_error]; now rewrite status_status_update.
Qed.

End EnsureTargetRepository.

(** C6 does not hold of the code.  The catch block around the creation
    call looks at the status of the response and at nothing else: every
    422 is swallowed, whatever it says.  A creation that is refused with
    422 for another reason than an existing repository (a name that is too
    long, or an answer without a message) does not fail the run: the
    remote is re-pointed, the mirror is pushed, and the record ends
    completed at progress 100 without an error, and the registry is the
    same as when the answer says that the repository exists.  A failure
    with another status is fatal: with 401 nothing runs after the clone
    and the record ends failed with the message of the host. *)
Theorem every_422_is_swallowed :
  (forall message : option string,
      let w' := snd (migrateRepository (env_rejected_422 message)
                       demo_migration demo_world) in
      posted_names (trace w') = [Some "My Repo"]
      /\ executed (trace w')
         = [clone_command "AZ-PAT-s3cr3t" demo_migration;
            set_url_command "ghp_s3cr3t" demo_migration;
            "git push --mirror"]
      /\ exists final,
          MemStorage.getMigration 1 (storage w') = Some final
          /\ status final = completed
          /\ progress final = 100
          /\ error final = None)
  /\ includes "already exists" "name is too long (maximum is 100 characters)"
     = false
  /\ (forall message : option string,
         storage (snd (migrateRepository (env_rejected_422 message)
                         demo_migration demo_world))
         = storage (snd (migrateRepository
                           (env_rejected_422
                              (Some "name already exists on this account"))
                           demo_migration demo_world)))
  /\ (let w' := snd (migrateRepository env_bad_credentials
                       demo_migration demo_world) in
      executed (trace w') = [clone_command "AZ-PAT-s3cr3t" demo_migration]
      /\ option_map status (MemStorage.getMigration 1 (storage w')) = Some failed
      /\ option_map error (MemStorage.getMigration 1 (storage w'))
         = Some (Some "Bad credentials")).
Proof.
  split; [|split; [|split]].
  - intros message w'. subst w'.
    split; [vm_compute; reflexivity|].
    split; [vm_compute; reflexivity|].
    eexists. split; [vm_compute; reflexivity|].
    vm_compute. repeat split.
  - vm_compute. reflexivity.
  - intros message. vm_compute. reflexivity.
  - vm_compute. repeat split.
Qed.

(** ** Creation, on the request of the intake route *)

(** An instance: the third creation on a new registry. *)
Lemma createMigration_fresh_record_witness :
  Insert.status demo_request = pending
  /\ let this :=
       after_calls [CallCreate demo_request; CallStatus 1 in_progress 5;
                    CallCreate demo_request] MemStorage.constructor in
     let migration := fst (MemStorage.createMigration demo_request this) in
     status migration = pending
     /\ progress migration = 0
     /\ error migration = None
     /\ startedAt migration = None
     /\ completedAt migration = None
     /\ id migration = 3
     /\ MemStorage.getMigration (id migration) this = None
     /\ forall j, In j [1; 2] -> j < id migration.
Proof.
  split; [reflexivity|].
  destruct (createMigration_fresh_record
              [CallCreate demo_request; CallStatus 1 in_progress 5;
               CallCreate demo_request] demo_request eq_refl)
    as (Hs & Hp & He & Hsa & Hca & Hget & Hlt & _).
  repeat split; assumption.
Defined.

(** ** The plaintext tokens and the error field (C1) *)

Lemma prefix_refl (s : string) : prefix s s = true.
Proof.
  induction s as [|c s IH]; [reflexivity|].
  simpl. destruct (ascii_dec c c); [exact IH | contradiction].
Qed.

Lemma prefix_append (s a b : string) :
  prefix s a = true -> prefix s (a ++ b) = true.
Proof.
  revert a. induction s as [|c s IH]; intros a H; [now destruct (a ++ b)|].
  destruct a as [|d a]; [discriminate|].
  simpl in *. destruct (ascii_dec c d); [now apply IH | discriminate].
Qed.

Lemma includes_cons (s : string) (c : ascii) (hay : string) :
  includes s (String c hay)
  = if prefix s (String c hay) then true else includes s hay.
Proof. reflexivity. Qed.

Lemma includes_prefix (s hay : string) :
  prefix s hay = true -> includes s hay = true.
Proof.
  intros H. destruct hay as [|c hay].
  - destruct s; [reflexivity | discriminate].
  - now rewrite includes_cons, H.
Qed.

Lemma includes_append_r (s a b : string) :
  includes s b = true -> includes s (a ++ b) = true.
Proof.
  intros H. induction a as [|c a IH]; [exact H|].
  change (String c a ++ b) with (String c (a ++ b)).
  rewrite includes_cons, IH. now destruct (prefix s (String c (a ++ b))).
Qed.

Lemma includes_append_l (s a b : string) :
  includes s a = true -> includes s (a ++ b) = true.
Proof.
  induction a as [|c a IH]; intros H.
  - apply includes_prefix.
    destruct s; [now destruct b | discriminate].
  - rewrite includes_cons in H.
    change (String c a ++ b) with (String c (a ++ b)).
    destruct (prefix s (String c a)) eqn:Hp.
    + apply includes_prefix.
      exact (prefix_append s (String c a) b Hp).
    + rewrite includes_cons, (IH H).
      now destruct (prefix s (String c (a ++ b))).
Qed.

Lemma clone_command_includes_token (token : string) (migration : Migration)
    (stderr : string) :
  includes token (command_failed (clone_command token migration) stderr) = true.
Proof.
  unfold command_failed, clone_command, azureUrl.
  apply includes_append_r, includes_append_l.
  do 2 apply includes_append_r. apply includes_append_l.
  apply includes_append_r, includes_append_l, includes_prefix, prefix_refl.
Qed.

Lemma set_url_command_includes_token (token : string) (migration : Migration)
    (stderr : string) :
  includes token (command_failed (set_url_command token migration) stderr) = true.
Proof.
  unfold command_failed, set_url_command, githubUrl.
  apply includes_append_r, includes_append_l.
  do 2 apply includes_append_r. apply includes_append_l.
  apply includes_append_r, includes_append_l, includes_prefix, prefix_refl.
Qed.

(** C1 does not hold of the code.  When the clone exits with a non-zero
    status, the error that ends in the record is the message of the
    exception of [execSync], which quotes the command line, and with it
    the source token in plaintext, whatever that token is; the record
    returned by [getMigration] and [getAllMigrations] carries it.  The same
    happens to the target token when re-pointing the remote fails.  Two
    source tokens give two different error fields. *)
Theorem plaintext_token_in_error_field :
  (forall azure : string,
      let w' := snd (migrateRepository (env_clone_fails azure)
                       demo_migration demo_world) in
      exists m message,
        MemStorage.getMigration 1 (storage w') = Some m
        /\ MemStorage.getAllMigrations (storage w') = [m]
        /\ error m = Some message
        /\ message = command_failed (clone_command azure demo_migration) EmptyString
        /\ includes azure message = true)
  /\ (forall github : string,
         let w' := snd (migrateRepository (env_set_url_fails github)
                          demo_migration demo_world) in
         exists m message,
           MemStorage.getMigration 1 (storage w') = Some m
           /\ error m = Some message
           /\ message = command_failed (set_url_command github demo_migration)
                          EmptyString
           /\ includes github message = true)
  /\ (let error_for azure :=
        option_map error
          (MemStorage.getMigration 1
             (storage (snd (migrateRepository (env_clone_fails azure)
                              demo_migration demo_world)))) in
      error_for "AZ-PAT-s3cr3t" <> error_for "AZ-PAT-0ther").
Proof.
  split; [|split].
  - intros azure w'. eexists.
    exists (command_failed (clone_command azure demo_migration) EmptyString).
    split; [vm_compute; reflexivity|].
    split; [vm_compute; reflexivity|].
    split; [vm_compute; reflexivity|].
    split; [reflexivity|]. apply clone_command_includes_token.
  - intros github w'. eexists.
    exists (command_failed (set_url_command github demo_migration) EmptyString).
    split; [vm_compute; reflexivity|].
    split; [vm_compute; reflexivity|].
    split; [reflexivity|]. apply set_url_command_includes_token.
  - vm_compute. discriminate.
Qed.

(** ** The name of the target repository (C5) *)

(** C5 does not hold of the code.  For the repository "My Repo" the
    normalized name is "my-repo", but the name sent to the creation call
    is the second component of the target locator, "My Repo", and the
    mirror is pushed to "octo/My Repo.git"; the run ends completed. *)
Theorem target_name_is_not_normalized :
  let w' := snd (migrateRepository env_ok demo_migration demo_world) in
  sanitizeRepoName "My Repo" = "my-repo"
  /\ posted_names (trace w') = [Some "My Repo"]
  /\ nth_error (executed (trace w')) 1
     = Some (set_url_command "ghp_s3cr3t" demo_migration)
  /\ githubUrl "ghp_s3cr3t" demo_migration
     = "https://ghp_s3cr3t@github.com/octo/My Repo.git"
  /\ option_map status (MemStorage.getMigration 1 (storage w')) = Some completed.
Proof. vm_compute. repeat split. Qed.

(* ================================================================== *)
(** * Further properties *)

(** ** The registry under any sequence of calls *)

Lemma map_get_none_keys {V : Type} (k : Z) (m : JsMap V) :
  map_get k m = None <-> ~ In k (map_keys m).
Proof.
  induction m as [|[k' v] m IH]; simpl; [tauto|].
  destruct (Z.eqb_spec k' k) as [->|Hne].
  - split; [discriminate | intros H; contradiction H; now left].
  - rewrite IH. split; [intros H [?|?]; [contradiction | now apply H] | tauto].
Qed.

Lemma map_get_entry {V : Type} (k : Z) (v : V) (m : JsMap V) :
  map_get k m = Some v -> In (k, v) m.
Proof.
  induction m as [|[k' v'] m IH]; simpl; [discriminate|].
  destruct (Z.eqb_spec k' k) as [->|Hne].
  - intros [= ->]. now left.
  - intros H. right. now apply IH.
Qed.

Lemma map_entry_get {V : Type} (k : Z) (v : V) (m : JsMap V) :
  NoDup (map_keys m) -> In (k, v) m -> map_get k m = Some v.
Proof.
  induction m as [|[k' v'] m IH]; simpl; [contradiction|].
  intros Hnd [Heq|Hin].
  - injection Heq as -> ->. now rewrite Z.eqb_refl.
  - inversion Hnd as [|? ? Hnotin Hnd']; subst.
    destruct (Z.eqb_spec k' k) as [->|Hne].
    + contradiction Hnotin. change k with (fst (k, v)). now apply in_map.
    + now apply IH.
Qed.

Lemma map_keys_set_present {V : Type} (k : Z) (v : V) (m : JsMap V) :
  In k (map_keys m) -> map_keys (map_set k v m) = map_keys m.
Proof.
  induction m as [|[k' v'] m IH]; simpl; [contradiction|].
  intros Hin. destruct (Z.eqb_spec k' k) as [->|Hne]; [reflexivity|].
  simpl. f_equal. apply IH. destruct Hin; [contradiction | assumption].
Qed.

Lemma map_keys_set_absent {V : Type} (k : Z) (v : V) (m : JsMap V) :
  ~ In k (map_keys m) -> map_keys (map_set k v m) = (map_keys m ++ [k])%list.
Proof.
  induction m as [|[k' v'] m IH]; simpl; [reflexivity|].
  intros Hnotin. destruct (Z.eqb_spec k' k) as [->|Hne].
  - contradiction Hnotin. now left.
  - simpl. f_equal. apply IH. tauto.
Qed.

Lemma map_set_entries {V : Type} (P : Z * V -> Prop) (k : Z) (v : V) (m : JsMap V) :
  Forall P m -> P (k, v) -> Forall P (map_set k v m).
Proof.
  intros Hall Hkv. induction m as [|[k' v'] m IH]; simpl.
  - now constructor.
  - inversion Hall; subst. destruct (k' =? k); constructor; auto.
Qed.

Lemma first_ids_S (n : nat) :
  first_ids (S n) = (first_ids n ++ [Z.of_nat (S n)])%list.
Proof. unfold first_ids. rewrite seq_S, map_app. reflexivity. Qed.

Lemma in_first_ids (n : nat) (k : Z) :
  In k (first_ids n) <-> 1 <= k <= Z.of_nat n.
Proof.
  unfold first_ids. rewrite in_map_iff. split.
  - intros (x & <- & Hx). apply in_seq in Hx. lia.
  - intros H. exists (Z.to_nat k). split; [lia|]. apply in_seq. lia.
Qed.

Lemma NoDup_first_ids (n : nat) : NoDup (first_ids n).
Proof.
  unfold first_ids. generalize (seq_NoDup n 1). generalize (seq 1 n).
  induction 1 as [|x l Hx Hl IH]; simpl; constructor; [|exact IH].
  rewrite in_map_iff. intros (y & Hy & Hin).
  apply Nat2Z.inj in Hy. now subst y.
Qed.

Lemma registry_wf_store (n : nat) (this : MemStorage.t) (j : Z) (m updated : Migration) :
  registry_wf n this ->
  MemStorage.getMigration j this = Some m ->
  id updated = id m ->
  registry_wf n (MemStorage.store j updated this).
Proof.
  intros (Hkeys & Hcur & Hids) Hget Hid.
  assert (Hin : In j (map_keys (MemStorage.migrations this))).
  { destruct (in_dec Z.eq_dec j (map_keys (MemStorage.migrations this))) as [H|H];
      [exact H|].
    apply map_get_none_keys in H. unfold MemStorage.getMigration in Hget.
    congruence. }
  split; [|split].
  - simpl. now rewrite map_keys_set_present.
  - exact Hcur.
  - simpl. apply map_set_entries; [exact Hids|].
    apply map_get_entry in Hget.
    rewrite Forall_forall in Hids. specialize (Hids _ Hget). simpl in *. congruence.
Qed.

Lemma registry_wf_after_call (n : nat) (this : MemStorage.t) (c : Call) :
  registry_wf n this ->
  registry_wf (creations [c] + n) (after_call this c).
Proof.
  intros Hwf.
  destruct c as [req | j s now | j p | j e]; cbn [creations Nat.add].
  - destruct Hwf as (Hkeys & Hcur & Hids). rewrite after_call_create.
    split; [|split].
    + simpl. rewrite map_keys_set_absent, Hkeys, first_ids_S; [f_equal; f_equal; lia|].
      rewrite Hkeys, in_first_ids. lia.
    + rewrite currentId_create. lia.
    + simpl. apply map_set_entries; [exact Hids | reflexivity].
  - unfold after_call, call, MemStorage.updateMigrationStatus.
    destruct (MemStorage.getMigration j this) as [m|] eqn:Hget; [|exact Hwf].
    apply (registry_wf_store n this j m); auto. apply id_status_update.
  - unfold after_call, call, MemStorage.updateMigrationProgress.
    destruct (MemStorage.getMigration j this) as [m|] eqn:Hget; [|exact Hwf].
    now apply (registry_wf_store n this j m).
  - unfold after_call, call, MemStorage.updateMigrationError.
    destruct (MemStorage.getMigration j this) as [m|] eqn:Hget; [|exact Hwf].
    now apply (registry_wf_store n this j m).
Qed.

Lemma creations_cons (c : Call) (cs : list Call) :
  creations (c :: cs) = (creations [c] + creations cs)%nat.
Proof. destruct c; reflexivity. Qed.

Lemma registry_wf_after_calls (cs : list Call) :
  forall (n : nat) (this : MemStorage.t),
    registry_wf n this ->
    registry_wf (creations cs + n) (after_calls cs this).
Proof.
  induction cs as [|c cs IH]; intros n this Hwf; [exact Hwf|].
  rewrite creations_cons. simpl after_calls.
  replace (creations [c] + creations cs + n)%nat
    with (creations cs + (creations [c] + n))%nat by lia.
  apply IH, registry_wf_after_call, Hwf.
Qed.

Lemma registry_wf_reachable (cs : list Call) :
  registry_wf (creations cs) (after_calls cs MemStorage.constructor).
Proof.
  rewrite <- (Nat.add_0_r (creations cs)).
  apply registry_wf_after_calls. repeat split. constructor.
Qed.

Lemma registry_wf_get (n : nat) (this : MemStorage.t) (j : Z) :
  registry_wf n this ->
  (1 <= j <= Z.of_nat n ->
   exists m, MemStorage.getMigration j this = Some m /\ id m = j)
  /\ (~ 1 <= j <= Z.of_nat n -> MemStorage.getMigration j this = None).
Proof.
  intros (Hkeys & _ & Hids). unfold MemStorage.getMigration. split; intros Hj.
  - destruct (map_get j (MemStorage.migrations this)) as [m|] eqn:Hget.
    + exists m. split; [reflexivity|].
      apply map_get_entry in Hget. rewrite Forall_forall in Hids.
      exact (Hids _ Hget).
    + apply map_get_none_keys in Hget. rewrite Hkeys, in_first_ids in Hget.
      contradiction.
  - apply map_get_none_keys. now rewrite Hkeys, in_first_ids.
Qed.

(** X1.  After any sequence of calls on a new registry with n creations
    among them, the counter is n + 1 and the identifiers that have a
    record are exactly 1, ..., n, each record carrying its own identifier;
    on every other identifier [getMigration] returns nothing and the three
    mutators throw "Migration not found". *)
Theorem registry_identifiers (cs : list Call) (j : Z) :
  let this := after_calls cs MemStorage.constructor in
  let n := Z.of_nat (creations cs) in
  MemStorage.currentId this = n + 1
  /\ (1 <= j <= n ->
      exists m, MemStorage.getMigration j this = Some m /\ id m = j)
  /\ (~ 1 <= j <= n ->
      MemStorage.getMigration j this = None
      /\ (forall status now,
             MemStorage.updateMigrationStatus j status now this
             = Throw (Error "Migration not found"))
      /\ (forall progress,
             MemStorage.updateMigrationProgress j progress this
             = Throw (Error "Migration not found"))
      /\ (forall error,
             MemStorage.updateMigrationError j error this
             = Throw (Error "Migration not found"))).
Proof.
  intros this n.
  assert (Hwf := registry_wf_reachable cs). fold this in Hwf.
  destruct (registry_wf_get _ this j Hwf) as [Hin Hout].
  split; [exact (proj1 (proj2 Hwf))|]. split; [exact Hin|].
  intros Hj. specialize (Hout Hj). split; [exact Hout|].
  unfold MemStorage.updateMigrationStatus, MemStorage.updateMigrationProgress,
    MemStorage.updateMigrationError. rewrite Hout. repeat split.
Qed.

(** X2.  [getAllMigrations] returns one record for each creation, in the
    order of the creations: their identifiers are 1, ..., n, and each of
    them is the record that [getMigration] returns for its identifier. *)
Theorem getAllMigrations_lists_every_record (cs : list Call) :
  let this := after_calls cs MemStorage.constructor in
  map id (MemStorage.getAllMigrations this) = first_ids (creations cs)
  /\ List.length (MemStorage.getAllMigrations this) = creations cs
  /\ Forall (fun m => MemStorage.getMigration (id m) this = Some m)
       (MemStorage.getAllMigrations this).
Proof.
  intros this.
  destruct (registry_wf_reachable cs) as (Hkeys & _ & Hids). fold this in Hkeys, Hids.
  assert (Hmap : map id (MemStorage.getAllMigrations this) = first_ids (creations cs)).
  { rewrite <- Hkeys. unfold MemStorage.getAllMigrations, map_values, map_keys.
    rewrite map_map. apply map_ext_in. intros entry Hentry.
    rewrite Forall_forall in Hids. exact (Hids _ Hentry). }
  split; [exact Hmap|]. split.
  - rewrite <- (length_map id), Hmap. unfold first_ids.
    now rewrite length_map, length_seq.
  - apply Forall_forall. intros m Hm.
    unfold MemStorage.getAllMigrations, map_values in Hm.
    apply in_map_iff in Hm as ([k m'] & Heq & Hentry). simpl in Heq. subst m'.
    unfold MemStorage.getMigration. apply map_entry_get.
    + rewrite Hkeys. apply NoDup_first_ids.
    + rewrite Forall_forall in Hids. specialize (Hids _ Hentry). simpl in Hids.
      now rewrite Hids.
Qed.

Lemma after_call_effect (this : MemStorage.t) (c : Call) (i : Z) (m : Migration) :
  MemStorage.getMigration i this = Some m ->
  i < MemStorage.currentId this ->
  MemStorage.getMigration i (after_call this c) = Some (effect_on i c m)
  /\ i < MemStorage.currentId (after_call this c).
Proof.
  intros Hget Hlt.
  destruct c as [req | j s now | j p | j e];
    [rewrite after_call_create | unfold after_call, call ..]; cbn [effect_on].
  - rewrite get_create_other, currentId_create by lia. split; [exact Hget | lia].
  - unfold MemStorage.updateMigrationStatus.
    destruct (Z.eqb_spec j i) as [->|Hne].
    + rewrite Hget. now rewrite get_store_same.
    + destruct (MemStorage.getMigration j this);
        [rewrite get_store_other by exact Hne|]; auto.
  - unfold MemStorage.updateMigrationProgress.
    destruct (Z.eqb_spec j i) as [->|Hne].
    + rewrite Hget. now rewrite get_store_same.
    + destruct (MemStorage.getMigration j this);
        [rewrite get_store_other by exact Hne|]; auto.
  - unfold MemStorage.updateMigrationError.
    destruct (Z.eqb_spec j i) as [->|Hne].
    + rewrite Hget. now rewrite get_store_same.
    + destruct (MemStorage.getMigration j this);
        [rewrite get_store_other by exact Hne|]; auto.
Qed.

(** The record under [i] after the calls [cs] is the record before,
    rewritten by the calls addressed to [i]. *)
Lemma after_calls_replay (cs : list Call) :
  forall (this : MemStorage.t) (i : Z) (m : Migration),
    MemStorage.getMigration i this = Some m ->
    i < MemStorage.currentId this ->
    MemStorage.getMigration i (after_calls cs this) = Some (replay i cs m).
Proof.
  induction cs as [|c cs IH]; intros this i m Hget Hlt; [exact Hget|].
  destruct (after_call_effect this c i m Hget Hlt) as [Hget1 Hlt1].
  exact (IH _ _ _ Hget1 Hlt1).
Qed.

Lemma created_then_replayed (before : list Call) (req : Insert.t) (after : list Call) :
  let created :=
    MemStorage.createMigration req (after_calls before MemStorage.constructor) in
  MemStorage.getMigration (id (fst created)) (after_calls after (snd created))
  = Some (replay (id (fst created)) after (fst created)).
Proof.
  intros created. apply after_calls_replay.
  - apply get_create_same.
  - unfold created. rewrite currentId_create. simpl. lia.
Qed.

Lemma completedAt_status_update s now m :
  completedAt (MemStorage.status_update s now m)
  = if MigrationStatus_eqb s completed then Some now else completedAt m.
Proof.
  destruct m as [? ? ? ? ? ? ? ? ? ? ? ? ? sa ? ? ? ?].
  destruct s, sa; reflexivity.
Qed.

Lemma same_descriptor_status_update s now m :
  same_descriptor (MemStorage.status_update s now m) m.
Proof.
  destruct m as [? ? ? ? ? ? ? ? ? ? ? ? ? sa ? ? ? ?].
  destruct s, sa; repeat split.
Qed.

Lemma same_descriptor_effect (i : Z) (c : Call) (m : Migration) :
  same_descriptor (effect_on i c m) m.
Proof.
  destruct c as [req | j s now | j p | j e]; cbn [effect_on];
    try destruct (j =? i); try apply same_descriptor_status_update;
    repeat split.
Qed.

Lemma same_descriptor_trans (a b c : Migration) :
  same_descriptor a b -> same_descriptor b c -> same_descriptor a c.
Proof.
  unfold same_descriptor. intros Hab Hbc.
  repeat match goal with H : _ /\ _ |- _ => destruct H end.
  repeat split; congruence.
Qed.

Lemma same_descriptor_replay (i : Z) (cs : list Call) :
  forall m : Migration, same_descriptor (replay i cs m) m.
Proof.
  induction cs as [|c cs IH]; intros m; [repeat split|].
  apply (same_descriptor_trans _ (effect_on i c m)); [apply IH|].
  apply same_descriptor_effect.
Qed.

Lemma status_replay (i : Z) (cs : list Call) :
  forall m : Migration, status (replay i cs m) = last_status i cs (status m).
Proof.
  induction cs as [|c cs IH]; intros m; [reflexivity|].
  change (replay i (c :: cs) m) with (replay i cs (effect_on i c m)).
  rewrite IH. destruct c as [req | j s now | j p | j e]; cbn [effect_on last_status];
    try destruct (j =? i); try reflexivity.
  now rewrite status_status_update.
Qed.

Lemma progress_replay (i : Z) (cs : list Call) :
  forall m : Migration, progress (replay i cs m) = last_progress i cs (progress m).
Proof.
  induction cs as [|c cs IH]; intros m; [reflexivity|].
  change (replay i (c :: cs) m) with (replay i cs (effect_on i c m)).
  rewrite IH. destruct c as [req | j s now | j p | j e]; cbn [effect_on last_progress];
    try destruct (j =? i); try reflexivity.
  now rewrite progress_status_update.
Qed.

Lemma error_replay (i : Z) (cs : list Call) :
  forall m : Migration, error (replay i cs m) = last_error i cs (error m).
Proof.
  induction cs as [|c cs IH]; intros m; [reflexivity|].
  change (replay i (c :: cs) m) with (replay i cs (effect_on i c m)).
  rewrite IH. destruct c as [req | j s now | j p | j e]; cbn [effect_on last_error];
    try destruct (j =? i); try reflexivity.
  now rewrite error_status_update.
Qed.

Lemma completedAt_replay (i : Z) (cs : list Call) :
  forall m : Migration,
    completedAt (replay i cs m) = last_completed i cs (completedAt m).
Proof.
  induction cs as [|c cs IH]; intros m; [reflexivity|].
  change (replay i (c :: cs) m) with (replay i cs (effect_on i c m)).
  rewrite IH. destruct c as [req | j s now | j p | j e];
    [|destruct s|..]; cbn [effect_on last_completed];
    try destruct (j =? i); rewrite ?completedAt_status_update; reflexivity.
Qed.

(** X3.  Whatever calls follow the creation of a record, the record keeps
    its identifier, its two locators, its two stored tokens and the rest of
    what the creation request gave it: no mutator writes these fields. *)
Theorem descriptor_is_never_rewritten
    (before : list Call) (insertMigration : Insert.t) (after : list Call) :
  let created :=
    MemStorage.createMigration insertMigration
      (after_calls before MemStorage.constructor) in
  exists latest : Migration,
    MemStorage.getMigration (id (fst created)) (after_calls after (snd created))
    = Some latest
    /\ same_descriptor latest (fst created)
    /\ sourceRepo latest = Insert.sourceRepo insertMigration
    /\ targetRepo latest = Insert.targetRepo insertMigration
    /\ azureToken latest = Insert.azureToken insertMigration
    /\ githubToken latest = Insert.githubToken insertMigration.
Proof.
  intros created. exists (replay (id (fst created)) after (fst created)).
  split; [apply created_then_replayed|].
  assert (H := same_descriptor_replay (id (fst created)) after (fst created)).
  split; [exact H|].
  destruct H as (_ & Hs & Ht & Ha & Hg & _).
  rewrite Hs, Ht, Ha, Hg. repeat split.
Qed.

(** X4.  The status, the progress and the error of a record are those of
    the last update of each kind that was addressed to it, and those of its
    creation (the status of the request, 0, null) when there was none:
    updates of other records and updates that throw change none of them.
    The errors are strings, as the interface declares them. *)
Theorem last_update_wins
    (before : list Call) (insertMigration : Insert.t) (after : list Call) :
  let created :=
    MemStorage.createMigration insertMigration
      (after_calls before MemStorage.constructor) in
  let i := id (fst created) in
  exists latest : Migration,
    MemStorage.getMigration i (after_calls after (snd created)) = Some latest
    /\ status latest = last_status i after (Insert.status insertMigration)
    /\ progress latest = last_progress i after 0
    /\ error latest = last_error i after None.
Proof.
  intros created i. exists (replay i after (fst created)).
  split; [apply created_then_replayed|].
  rewrite status_replay, progress_replay, error_replay.
  repeat split.
Qed.

(** X5.  [completedAt] is stamped by every status update to completed: it
    is the time of the last one addressed to the record, and null when
    there was none (unlike [startedAt], which keeps the first time). *)
Theorem completedAt_last_completed
    (before : list Call) (insertMigration : Insert.t) (after : list Call) :
  let created :=
    MemStorage.createMigration insertMigration
      (after_calls before MemStorage.constructor) in
  exists latest : Migration,
    MemStorage.getMigration (id (fst created)) (after_calls after (snd created))
    = Some latest
    /\ completedAt latest = last_completed (id (fst created)) after None.
Proof.
  intros created. exists (replay (id (fst created)) after (fst created)).
  split; [apply created_then_replayed|].
  now rewrite completedAt_replay.
Qed.

(** ** More on name normalization *)

Lemma length_map_units (f : ascii -> ascii) (s : string) :
  String.length (map_units f s) = String.length s.
Proof. induction s as [|c s IH]; simpl; [reflexivity | now rewrite IH]. Qed.

Lemma length_collapse_dashes (s : string) :
  (String.length (collapse_dashes s) <= String.length s)%nat.
Proof.
  induction s as [|c s IH]; [apply Nat.le_refl|].
  rewrite collapse_dashes_eq.
  destruct (is_dash c); [destruct s as [|d s]; [simpl; lia|]; destruct (is_dash d)|];
    simpl in *; lia.
Qed.

Lemma length_strip_leading_dash (s : string) :
  (String.length (strip_leading_dash s) <= String.length s)%nat.
Proof. destruct s as [|c s]; simpl; [lia|]. destruct (is_dash c); simpl; lia. Qed.

Lemma length_strip_trailing_dash (s : string) :
  (String.length (strip_trailing_dash s) <= String.length s)%nat.
Proof.
  induction s as [|c s IH]; [apply Nat.le_refl|].
  destruct s as [|d s]; [simpl; destruct (is_dash c); simpl; lia|].
  rewrite strip_trailing_step. simpl String.length in *. lia.
Qed.

Lemma filter_units_cons (p : ascii -> bool) (c : ascii) (s : string) :
  filter_units p (String c s)
  = if p c then String c (filter_units p s) else filter_units p s.
Proof. reflexivity. Qed.

Lemma kept_dash (c : ascii) : is_dash c = true -> kept c = false.
Proof. unfold kept. intros ->. apply andb_false_r. Qed.

Lemma kept_replace_invalid (s : string) :
  filter_units kept (replace_invalid s) = filter_units kept s.
Proof.
  unfold replace_invalid. induction s as [|c s IH]; [reflexivity|].
  simpl map_units. rewrite !filter_units_cons, IH.
  destruct (name_char c) eqn:Ec; [reflexivity|].
  assert (Hc : kept c = false) by (unfold kept; now rewrite Ec).
  now rewrite Hc.
Qed.

Lemma kept_collapse_dashes (s : string) :
  filter_units kept (collapse_dashes s) = filter_units kept s.
Proof.
  induction s as [|c s IH]; [reflexivity|].
  rewrite collapse_dashes_eq, (filter_units_cons kept c s).
  destruct (is_dash c) eqn:Ec.
  - rewrite (kept_dash c Ec).
    destruct s as [|d s]; [simpl; now rewrite (kept_dash c Ec)|].
    destruct (is_dash d); [exact IH|].
    now rewrite filter_units_cons, (kept_dash c Ec), IH.
  - now rewrite filter_units_cons, IH.
Qed.

Lemma kept_strip_leading_dash (s : string) :
  filter_units kept (strip_leading_dash s) = filter_units kept s.
Proof.
  destruct s as [|c s]; [reflexivity|]. unfold strip_leading_dash.
  destruct (is_dash c) eqn:Ec; [|reflexivity].
  now rewrite filter_units_cons, (kept_dash c Ec).
Qed.

Lemma kept_strip_trailing_dash (s : string) :
  filter_units kept (strip_trailing_dash s) = filter_units kept s.
Proof.
  induction s as [|c s IH]; [reflexivity|].
  destruct s as [|d s].
  - simpl. destruct (is_dash c) eqn:Ec; [|reflexivity].
    now rewrite (kept_dash c Ec).
  - rewrite strip_trailing_step, !(filter_units_cons kept c), IH. reflexivity.
Qed.

Lemma kept_sanitizeRepoName (s : string) :
  filter_units kept (sanitizeRepoName s) = filter_units kept (toLowerCase s).
Proof.
  unfold sanitizeRepoName, strip_edge_dashes.
  now rewrite kept_strip_trailing_dash, kept_strip_leading_dash,
    kept_collapse_dashes, kept_replace_invalid.
Qed.

Lemma normalized_without_kept (r : string) :
  normalized r = true -> filter_units kept r = EmptyString -> r = EmptyString.
Proof.
  unfold normalized. intros H Hk.
  apply andb_true_iff in H as [H _].
  apply andb_true_iff in H as [H Hl].
  apply andb_true_iff in H as [Ha _].
  destruct r as [|c r]; [reflexivity|].
  rewrite all_units_cons in Ha. apply andb_true_iff in Ha as [Hc _].
  simpl in Hl. rewrite filter_units_cons in Hk. unfold kept in Hk.
  rewrite Hc in Hk. destruct (is_dash c); simpl in *; discriminate.
Qed.

(** X6.  The normalized name has only characters of [[a-z0-9-_.]], no two
    dashes in a row, no dash at its start or at its end, and is not longer
    than the lower-cased name it is made from: after the lower-casing
    every step replaces one character by one or removes characters. *)
Theorem sanitizeRepoName_shape (repoName : string) :
  let name := sanitizeRepoName repoName in
  all_units name_char name = true
  /\ no_dash_run name = true
  /\ no_leading_dash name = true
  /\ no_trailing_dash name = true
  /\ (String.length name <= String.length (toLowerCase repoName))%nat.
Proof.
  intros name.
  assert (H := sanitizeRepoName_normalized repoName). fold name in H.
  unfold normalized in H.
  apply andb_true_iff in H as [H Ht].
  apply andb_true_iff in H as [H Hl].
  apply andb_true_iff in H as [Ha Hr].
  repeat split; try assumption.
  unfold name, sanitizeRepoName, strip_edge_dashes.
  eapply Nat.le_trans; [apply length_strip_trailing_dash|].
  eapply Nat.le_trans; [apply length_strip_leading_dash|].
  eapply Nat.le_trans; [apply length_collapse_dashes|].
  unfold replace_invalid. now rewrite length_map_units.
Qed.

(** X7.  The names that normalization leaves as they are are exactly the
    normalized ones. *)
Theorem sanitizeRepoName_fixed_points (repoName : string) :
  sanitizeRepoName repoName = repoName <-> normalized repoName = true.
Proof.
  split.
  - intros H. rewrite <- H. apply sanitizeRepoName_normalized.
  - apply sanitizeRepoName_fixed.
Qed.

(** X8.  Normalization keeps the characters of [[a-z0-9_.]] of the
    lower-cased name, all of them and in their order: the rest of the
    result is single dashes between them.  So the result is the empty
    string exactly when the lower-cased name has no such character. *)
Theorem sanitizeRepoName_keeps_name_characters (repoName : string) :
  filter_units kept (sanitizeRepoName repoName)
  = filter_units kept (toLowerCase repoName)
  /\ (sanitizeRepoName repoName = EmptyString
      <-> filter_units kept (toLowerCase repoName) = EmptyString).
Proof.
  split; [apply kept_sanitizeRepoName|].
  rewrite <- kept_sanitizeRepoName. split.
  - now intros ->.
  - apply normalized_without_kept, sanitizeRepoName_normalized.
Qed.

(** ** More on the transfer engine *)

Ltac calls_so_far :=
  cbn [external_calls executed posted_names trace external];
  rewrite <- ?app_assoc; cbn [app]; reflexivity.

(** X9.  A run on an identifier that the registry does not hold throws
    "Migration not found" to its caller: the first status update fails, the
    update inside the catch block fails again, and nothing was done by then:
    no external call, no version committed, registry and file system as
    they were. *)
Theorem run_on_unknown_record env migration w :
  MemStorage.getMigration (id migration) (storage w) = None ->
  let run := migrateRepository env migration w in
  fst run = Throw (Error "Migration not found")
  /\ storage (snd run) = storage w
  /\ fs (snd run) = fs w
  /\ external_calls (trace (snd run)) = external_calls (trace w)
  /\ commits (trace (snd run)) = commits (trace w).
Proof.
  intros Hget run. subst run.
  destruct w as [st dirs tr td]. cbn [storage] in Hget.
  remember (migrateRepository env migration _) as run eqn:Hrun.
  revert Hrun. engine_run. intros ->. engine_simpl. repeat split.
Qed.

Lemma same_descriptor_apply_update (u : Update) (m : Migration) :
  same_descriptor (apply_update u m) m.
Proof.
  destruct u; cbn [apply_update];
    [apply same_descriptor_status_update | repeat split ..].
Qed.

Lemma same_descriptor_latest (us : list Update) :
  forall m : Migration, same_descriptor (latest m us) m.
Proof.
  induction us as [|u us IH]; intros m; [repeat split|].
  apply (same_descriptor_trans _ (apply_update u m)); [apply IH|].
  apply same_descriptor_apply_update.
Qed.

(** X10.  A run writes to one record only: the counter of the registry and
    every record under another identifier are as before the run, and the
    record of the run keeps its identifier, its two repositories, its two
    stored tokens and every other field that is set at creation.  A run on
    an identifier without a record creates none. *)
Theorem run_touches_one_record env migration w :
  let w' := snd (migrateRepository env migration w) in
  MemStorage.currentId (storage w') = MemStorage.currentId (storage w)
  /\ (forall j, j <> id migration ->
        MemStorage.getMigration j (storage w') = MemStorage.getMigration j (storage w))
  /\ match MemStorage.getMigration (id migration) (storage w) with
     | Some before =>
         exists final,
           MemStorage.getMigration (id migration) (storage w') = Some final
           /\ same_descriptor final before
     | None => MemStorage.getMigration (id migration) (storage w') = None
     end.
Proof.
  intros w'. subst w'.
  destruct (MemStorage.getMigration (id migration) (storage w)) as [m0|] eqn:Hget.
  - destruct (engine_effects env migration w m0 Hget)
      as (started & us & w1 & -> & Hst & _).
    cbn [snd]. rewrite Hst. split; [reflexivity|]. split.
    + intros j Hj. apply get_store_other. congruence.
    + exists (latest m0 us). split; [apply get_store_same|].
      apply same_descriptor_latest.
  - destruct w as [st dirs tr td]. cbn [storage] in Hget |- *.
    remember (migrateRepository env migration _) as run eqn:Hrun.
    revert Hrun. engine_run. intros ->. engine_simpl. now rewrite Hget.
Qed.

Lemma or_else_not_empty (o : option string) (dflt : string) :
  dflt <> EmptyString -> or_else o dflt <> EmptyString.
Proof.
  intros Hd. unfold or_else, truthy.
  destruct o as [[|c s]|]; try exact Hd. discriminate.
Qed.

Lemma errorMessage_not_empty (e : JsError) : errorMessage e <> EmptyString.
Proof.
  unfold errorMessage. apply or_else_not_empty, or_else_not_empty. discriminate.
Qed.

(** X11.  A record that a run leaves failed has an error message, and the
    message is not the empty string: an empty message of the failure is
    replaced by the next alternative, down to "Migration failed". *)
Theorem failed_record_has_a_message env migration w m0 :
  MemStorage.getMigration (id migration) (storage w) = Some m0 ->
  exists final,
    MemStorage.getMigration (id migration)
      (storage (snd (migrateRepository env migration w))) = Some final
    /\ (status final = failed ->
        exists message, error final = Some message /\ message <> EmptyString).
Proof.
  intros Hget.
  destruct (engine_effects env migration w m0 Hget)
    as (started & us & w1 & -> & Hst & _ & Hshape & _).
  cbn [snd]. exists (latest m0 us).
  split; [rewrite Hst; apply get_store_same|].
  destruct (fst (migrateRepository_try env migration (set_tempDir None w))).
  - destruct Hshape as (finished & ->).
    destruct (latest_completed m0 (checkpoints started) finished) as (Hs & _).
    rewrite Hs. discriminate.
  - destruct Hshape as (n & failed_at & _ & ->).
    destruct (latest_failed m0 (firstn n (checkpoints started)) failed_at
                (errorMessage e)) as (_ & He & _).
    intros _. exists (errorMessage e). split; [exact He|].
    apply errorMessage_not_empty.
Qed.

Lemma failed_record_has_a_message_witness :
  MemStorage.getMigration (id demo_migration) (storage demo_world)
  = Some demo_migration
  /\ exists final,
      MemStorage.getMigration (id demo_migration)
        (storage (snd (migrateRepository env_bad_credentials
                         demo_migration demo_world))) = Some final
      /\ (status final = failed ->
          exists message, error final = Some message /\ message <> EmptyString).
Proof.
  split; [reflexivity|].
  exact (failed_record_has_a_message env_bad_credentials demo_migration
           demo_world demo_migration eq_refl).
Defined.

Section BeforeTheWorkspace.

Variables (env : Env) (migration : Migration) (w : World) (m0 : Migration).
Hypothesis Hrecord :
  MemStorage.getMigration (id migration) (storage w) = Some m0.

(** X12.  When one of the two stored tokens cannot be decrypted, the run
    ends before it touches anything outside: no workspace, no command, no
    call to the target host.  The record ends failed at progress 10 with
    the message of the decryption failure, and the run itself returns
    normally. *)
Theorem decryption_failure_stops_everything (e : JsError) :
  decrypt env (azureToken migration) = Throw e
  \/ (exists azure, decrypt env (azureToken migration) = Ok azure
                    /\ decrypt env (githubToken migration) = Throw e) ->
  let run := migrateRepository env migration w in
  fst run = Ok tt
  /\ (exists final,
        MemStorage.getMigration (id migration) (storage (snd run)) = Some final
        /\ status final = failed
        /\ error final = Some (errorMessage e)
        /\ progress final = 10)
  /\ external_calls (trace (snd run)) = external_calls (trace w)
  /\ fs (snd run) = fs w.
Proof.
  intros Hdecrypt run. subst run.
  destruct w as [st dirs tr td]. cbn [storage] in Hrecord.
  remember (migrateRepository env migration _) as run eqn:Hrun.
  destruct Hdecrypt as [Hazure | (azure & Hazure & Hgithub)];
    revert Hrun; engine_run; intros ->; engine_simpl.
  all: split; [reflexivity|]; split; [|split; reflexivity].
  all: eexists; rewrite get_store_same; split; [reflexivity|];
    cbn [status error progress with_error];
    rewrite status_status_update, progress_status_update; repeat split.
Qed.

(** X13.  A source locator without a slash fails the run although the name
    computed from it is never used: the second of its last two segments
    is undefined, and normalizing it throws.  The record ends failed at
    progress 10 with the message of that TypeError, before any external
    call. *)
Theorem source_locator_without_slash (azure github : string) :
  decrypt env (azureToken migration) = Ok azure ->
  decrypt env (githubToken migration) = Ok github ->
  includes "/" (sourceRepo migration) = false ->
  let run := migrateRepository env migration w in
  fst run = Ok tt
  /\ (exists final,
        MemStorage.getMigration (id migration) (storage (snd run)) = Some final
        /\ status final = failed
        /\ error final
           = Some "Cannot read properties of undefined (reading 'toLowerCase')"
        /\ progress final = 10)
  /\ external_calls (trace (snd run)) = external_calls (trace w)
  /\ fs (snd run) = fs w.
Proof.
  intros Hazure Hgithub Hslash run. subst run.
  assert (Hsource :
            nth_error (slice_last2 (split "/" (sourceRepo migration))) 1 = None).
  { assert (Hsplit : forall s, includes "/" s = false -> split "/" s = [s]).
    { unfold split. induction s as [|c s IH]; [reflexivity|].
      rewrite includes_cons. cbn [split_from].
      destruct (prefix "/" (String c s)); [discriminate|].
      intros H. now rewrite (IH H). }
    now rewrite (Hsplit _ Hslash). }
  destruct w as [st dirs tr td]. cbn [storage] in Hrecord.
  remember (migrateRepository env migration _) as run eqn:Hrun.
  revert Hrun; engine_run; intros ->; engine_simpl.
  split; [reflexivity|]; split; [|split; reflexivity].
  eexists; rewrite get_store_same; split; [reflexivity|];
    cbn [status error progress with_error];
    rewrite status_status_update, progress_status_update; repeat split.
Qed.

End BeforeTheWorkspace.

Lemma run_on_unknown_record_witness :
  MemStorage.getMigration (id demo_migration) MemStorage.constructor = None
  /\ fst (migrateRepository env_ok demo_migration
            (mkWorld MemStorage.constructor [] [] None))
     = Throw (Error "Migration not found").
Proof.
  split; [reflexivity|].
  exact (proj1 (run_on_unknown_record env_ok demo_migration
                  (mkWorld MemStorage.constructor [] [] None) eq_refl)).
Defined.

Lemma decryption_failure_stops_everything_witness :
  MemStorage.getMigration (id demo_migration) (storage demo_world)
  = Some demo_migration
  /\ decrypt env_no_key (azureToken demo_migration)
     = Throw (Error "Decryption failed")
  /\ external_calls
       (trace (snd (migrateRepository env_no_key demo_migration demo_world)))
     = external_calls (trace demo_world).
Proof.
  split; [reflexivity|]. split; [reflexivity|].
  exact (proj1 (proj2 (proj2
           (decryption_failure_stops_everything env_no_key demo_migration
              demo_world demo_migration eq_refl (Error "Decryption failed")
              (or_introl eq_refl))))).
Defined.

Lemma source_locator_without_slash_witness :
  MemStorage.getMigration (id flat_migration) (storage flat_world)
  = Some flat_migration
  /\ decrypt env_ok (azureToken flat_migration) = Ok "AZ-PAT-s3cr3t"
  /\ decrypt env_ok (githubToken flat_migration) = Ok "ghp_s3cr3t"
  /\ includes "/" (sourceRepo flat_migration) = false
  /\ fst (migrateRepository env_ok flat_migration flat_world) = Ok tt.
Proof.
  split; [reflexivity|]. split; [reflexivity|]. split; [reflexivity|].
  split; [reflexivity|].
  exact (proj1 (source_locator_without_slash env_ok flat_migration flat_world
                  flat_migration eq_refl "AZ-PAT-s3cr3t" "ghp_s3cr3t"
                  eq_refl eq_refl eq_refl)).
Defined.

Ltac record_fields :=
  repeat (progress
            (cbn [status error progress startedAt completedAt with_progress
                  with_error MigrationStatus_eqb];
             rewrite ?status_status_update, ?progress_status_update,
               ?error_status_update, ?startedAt_status_update,
               ?completedAt_status_update)).

Section WithAWorkspace.

(** A run that acquires its workspace: the record is in the registry, both
    tokens decrypt, the source locator has a repository name and the
    directory is created. *)
Variables (env : Env) (migration : Migration) (w : World) (m0 : Migration).
Variables (azure github source suffix : string).
Hypothesis Hrecord :
  MemStorage.getMigration (id migration) (storage w) = Some m0.
Hypothesis Hazure : decrypt env (azureToken migration) = Ok azure.
Hypothesis Hgithub : decrypt env (githubToken migration) = Ok github.
Hypothesis Hsource :
  nth_error (slice_last2 (split "/" (sourceRepo migration))) 1 = Some source.
Hypothesis Hworkspace :
  mkdtemp_suffix env (join (tmpdir env) "repo-migration-") = Ok suffix.

(** X14.  When the clone exits with a non-zero status, the target host is
    never called and nothing is pushed: the external calls of the run are
    the creation of the workspace, the clone and the removal of the
    workspace.  The record ends failed at progress 40 with the message of
    the failed command, and the workspace is gone when its removal
    succeeds. *)
Theorem clone_failure_leaves_the_target_alone (stderr : string) :
  run_process env (clone_command azure migration) (workspace env suffix)
  = ExitNonZero stderr ->
  let run := migrateRepository env migration w in
  fst run = Ok tt
  /\ (exists final,
        MemStorage.getMigration (id migration) (storage (snd run)) = Some final
        /\ status final = failed
        /\ error final
           = Some (command_failed (clone_command azure migration) stderr)
        /\ progress final = 40)
  /\ external_calls (trace (snd run))
     = (external_calls (trace w)
        ++ [EvMkdtemp (join (tmpdir env) "repo-migration-");
            EvExec (clone_command azure migration) (workspace env suffix);
            EvRm (workspace env suffix)])%list
  /\ (rm_failure env (workspace env suffix) = None ->
      fs (snd run) = remove_dir (workspace env suffix) (fs w)).
Proof.
  intros Hclone run. subst run. unfold workspace in *.
  destruct w as [st dirs tr td]. cbn [storage] in Hrecord.
  remember (migrateRepository env migration _) as run eqn:Hrun.
  revert Hrun; engine_run; intros ->; engine_simpl.
  all: split; [reflexivity|]; split; [|split; [calls_so_far|]].
  all: try (eexists; rewrite get_store_same; split; [reflexivity|];
            cbn [status error progress with_error];
            rewrite status_status_update, progress_status_update; repeat split).
  all: intros Hrm; try congruence.
  now rewrite remove_dir_cons.
Qed.

(** X15.  When every stage succeeds, the run makes six external calls, in
    this order: workspace, clone, creation call, re-pointing of the
    remote, push, removal of the workspace.  The record ends completed at
    progress 100 with a completion time, with the error it had before,
    and with the start time it had before or else the time of the first
    update of the run. *)
Theorem successful_run :
  run_process env (clone_command azure migration) (workspace env suffix) = Exit0 ->
  post_failure env "https://api.github.com/user/repos"
    (nth_error (split "/" (targetRepo migration)) 1) ("Bearer " ++ github) = None ->
  run_process env (set_url_command github migration) (workspace env suffix) = Exit0 ->
  run_process env "git push --mirror" (workspace env suffix) = Exit0 ->
  let run := migrateRepository env migration w in
  fst run = Ok tt
  /\ (exists final finished,
        MemStorage.getMigration (id migration) (storage (snd run)) = Some final
        /\ status final = completed
        /\ progress final = 100
        /\ error final = error m0
        /\ startedAt final = match startedAt m0 with
                             | Some t => Some t
                             | None => Some (clock env (trace w))
                             end
        /\ completedAt final = Some finished)
  /\ external_calls (trace (snd run))
     = (external_calls (trace w)
        ++ [EvMkdtemp (join (tmpdir env) "repo-migration-");
            EvExec (clone_command azure migration) (workspace env suffix);
            EvPost "https://api.github.com/user/repos"
              (nth_error (split "/" (targetRepo migration)) 1)
              ("Bearer " ++ github);
            EvExec (set_url_command github migration) (workspace env suffix);
            EvExec "git push --mirror" (workspace env suffix);
            EvRm (workspace env suffix)])%list
  /\ (rm_failure env (workspace env suffix) = None ->
      fs (snd run) = remove_dir (workspace env suffix) (fs w)).
Proof.
  intros Hclone Hpost Hset Hpush run. subst run. unfold workspace in *.
  destruct w as [st dirs tr td]. cbn [storage] in Hrecord.
  remember (migrateRepository env migration _) as run eqn:Hrun.
  revert Hrun; engine_run; intros ->; engine_simpl.
  all: split; [reflexivity|]; split; [|split; [calls_so_far|]].
  all: try (do 2 eexists; rewrite get_store_same; split; [reflexivity|];
            record_fields; repeat split; now destruct (startedAt m0)).
  all: intros Hrm; try congruence.
  now rewrite remove_dir_cons.
Qed.

End WithAWorkspace.

Lemma clone_failure_leaves_the_target_alone_witness :
  MemStorage.getMigration (id demo_migration) (storage demo_world)
  = Some demo_migration
  /\ run_process env_clone_and_rm_fail
       (clone_command "AZ-PAT-s3cr3t" demo_migration)
       (workspace env_clone_and_rm_fail "Ab12Cd")
     = ExitNonZero "fatal: repository not found"
  /\ external_calls
       (trace (snd (migrateRepository env_clone_and_rm_fail demo_migration
                      demo_world)))
     = [EvMkdtemp "/tmp/repo-migration-";
        EvExec (clone_command "AZ-PAT-s3cr3t" demo_migration)
          "/tmp/repo-migration-Ab12Cd";
        EvRm "/tmp/repo-migration-Ab12Cd"].
Proof.
  split; [reflexivity|]. split; [reflexivity|].
  exact (proj1 (proj2 (proj2
           (clone_failure_leaves_the_target_alone env_clone_and_rm_fail
              demo_migration demo_world demo_migration
              "AZ-PAT-s3cr3t" "ghp_s3cr3t" "My Repo" "Ab12Cd"
              eq_refl eq_refl eq_refl eq_refl eq_refl
              "fatal: repository not found" eq_refl)))).
Defined.

Lemma successful_run_witness :
  MemStorage.getMigration (id demo_migration) (storage demo_world)
  = Some demo_migration
  /\ run_process env_ok "git push --mirror" (workspace env_ok "Ab12Cd") = Exit0
  /\ fs (snd (migrateRepository env_ok demo_migration demo_world))
     = remove_dir (workspace env_ok "Ab12Cd") (fs demo_world).
Proof.
  split; [reflexivity|]. split; [reflexivity|].
  exact (proj2 (proj2 (proj2
           (successful_run env_ok demo_migration demo_world demo_migration
              "AZ-PAT-s3cr3t" "ghp_s3cr3t" "My Repo" "Ab12Cd"
              eq_refl eq_refl eq_refl eq_refl eq_refl
              eq_refl eq_refl eq_refl eq_refl))) eq_refl).
Defined.

Ltac close_stages k :=
  exists k; do 2 eexists;
  split; [cbn [external_calls trace external firstn planned_calls app];
          rewrite <- ?app_assoc; cbn [app];
          first [reflexivity | now rewrite app_nil_r]|];
  split; [lia|];
  split; [first [left; reflexivity | right; reflexivity]|];
  split; [first [intros _; reflexivity | lia]
         | first [intros _; reflexivity | lia]].

(** X16.  Whatever fails, the external calls of a run are a prefix of the
    five stage calls (workspace, clone, creation call, re-pointing, push),
    each made at most once and in this order, followed by at most one
    removal of the workspace: none when not even the workspace was asked
    for, exactly one as soon as the clone was started. *)
Theorem stages_run_once_in_order env migration w m0 azure github :
  MemStorage.getMigration (id migration) (storage w) = Some m0 ->
  decrypt env (azureToken migration) = Ok azure ->
  decrypt env (githubToken migration) = Ok github ->
  let w' := snd (migrateRepository env migration w) in
  exists (k : nat) (dir : string) (cleanup : list Event),
    external_calls (trace w')
    = (external_calls (trace w)
       ++ firstn k (planned_calls env migration azure github dir)
       ++ cleanup)%list
    /\ (k <= 5)%nat
    /\ (cleanup = [] \/ cleanup = [EvRm dir])
    /\ (k = 0%nat -> cleanup = [])
    /\ ((2 <= k)%nat -> cleanup = [EvRm dir]).
Proof.
  intros Hget Hazure Hgithub w'. subst w'.
  destruct w as [st dirs tr td]. cbn [storage] in Hget.
  remember (migrateRepository env migration _) as run eqn:Hrun.
  revert Hrun; engine_run; intros ->; engine_simpl.
  all: first [ close_stages 0%nat | close_stages 1%nat | close_stages 2%nat
             | close_stages 3%nat | close_stages 4%nat | close_stages 5%nat ].
  Unshelve. all: exact EmptyString.
Qed.

Lemma stages_run_once_in_order_witness :
  MemStorage.getMigration (id demo_migration) (storage demo_world)
  = Some demo_migration
  /\ decrypt (env_set_url_fails "ghp_s3cr3t") (azureToken demo_migration)
     = Ok "AZ-PAT-s3cr3t"
  /\ decrypt (env_set_url_fails "ghp_s3cr3t") (githubToken demo_migration)
     = Ok "ghp_s3cr3t"
  /\ exists (k : nat) (dir : string) (cleanup : list Event),
      external_calls
        (trace (snd (migrateRepository (env_set_url_fails "ghp_s3cr3t") demo_migration
                       demo_world)))
      = (external_calls (trace demo_world)
         ++ firstn k (planned_calls (env_set_url_fails "ghp_s3cr3t") demo_migration
                        "AZ-PAT-s3cr3t" "ghp_s3cr3t" dir) ++ cleanup)%list
      /\ (k <= 5)%nat
      /\ (cleanup = [] \/ cleanup = [EvRm dir])
      /\ (k = 0%nat -> cleanup = [])
      /\ ((2 <= k)%nat -> cleanup = [EvRm dir]).
Proof.
  split; [reflexivity|]. split; [reflexivity|]. split; [reflexivity|].
  exact (stages_run_once_in_order (env_set_url_fails "ghp_s3cr3t") demo_migration
           demo_world demo_migration "AZ-PAT-s3cr3t" "ghp_s3cr3t"
           eq_refl eq_refl eq_refl).
Defined.

(** ** Sessions *)

Lemma split_without_separator (sep s : string) :
  includes sep s = false -> split sep s = [s].
Proof.
  unfold split. induction s as [|c s IH]; [reflexivity|].
  rewrite includes_cons. cbn [split_from].
  destruct (prefix sep (String c s)); [discriminate|].
  intros H. now rewrite (IH H).
Qed.

Lemma split_space_cons (a rest : string) :
  includes " " a = false ->
  split " " (a ++ " " ++ rest) = a :: split " " rest.
Proof.
  unfold split. induction a as [|c a IH]; intros Ha.
  - cbn. now destruct rest.
  - rewrite includes_cons in Ha.
    change ((String c a ++ " " ++ rest)%string)
      with (String c (a ++ " " ++ rest)%string).
    cbn [split_from].
    destruct (prefix " " (String c a)) eqn:Hp; [discriminate|].
    assert (Hp' : prefix " " (String c (a ++ " " ++ rest)) = false).
    { cbn [prefix] in Hp |- *.
      destruct (ascii_dec " " c); [|reflexivity].
      destruct a; discriminate. }
    rewrite Hp', (IH Ha). reflexivity.
Qed.

Lemma bearer_second_word (scheme token : string) (github : option string) :
  includes " " scheme = false ->
  includes " " token = false ->
  Auth.bearer (Auth.mkHeaders (Some (scheme ++ " " ++ token)) github) = Some token.
Proof.
  intros Hs Ht. unfold Auth.bearer. cbn [Auth.authorization].
  now rewrite (split_space_cons _ _ Hs), (split_without_separator _ _ Ht).
Qed.

Lemma truthy_not_empty (s : string) : s <> EmptyString -> truthy (Some s) = Some s.
Proof. destruct s; [congruence|reflexivity]. Qed.

(** X17.  The session token of the [Authorization] header is its second
    word, and the first word is not looked at: any scheme does.  A header
    of one word, and a header with two spaces after the scheme, are
    answered 401 as if no token had been sent, before any verification. *)
Theorem authorization_scheme_is_not_checked
    (keys : Auth.Keys) (scheme token : string) (github : option string) :
  includes " " scheme = false ->
  includes " " token = false ->
  token <> EmptyString ->
  let sent value := Auth.mkHeaders (Some value) github in
  Auth.validateAzureToken keys (sent (scheme ++ " " ++ token))
  = Auth.validateAzureToken keys (sent ("Bearer " ++ token))
  /\ Auth.validateBothTokens keys (sent (scheme ++ " " ++ token))
     = Auth.validateBothTokens keys (sent ("Bearer " ++ token))
  /\ Auth.validateAzureToken keys (sent scheme)
     = Auth.Refused 401 "No Azure session token provided"
  /\ Auth.validateBothTokens keys (sent scheme)
     = Auth.Refused 401 "No Azure session token provided"
  /\ Auth.validateAzureToken keys (sent (scheme ++ "  " ++ token))
     = Auth.Refused 401 "No Azure session token provided"
  /\ Auth.validateBothTokens keys (sent (scheme ++ "  " ++ token))
     = Auth.Refused 401 "No Azure session token provided".
Proof.
  intros Hs Ht Hne sent. subst sent.
  unfold Auth.validateAzureToken, Auth.validateBothTokens.
  rewrite (bearer_second_word scheme token github Hs Ht).
  change ("Bearer " ++ token)%string with ("Bearer" ++ " " ++ token)%string.
  rewrite (bearer_second_word "Bearer" token github eq_refl Ht).
  repeat split.
  - unfold Auth.bearer. cbn [Auth.authorization].
    now rewrite (split_without_separator _ _ Hs).
  - unfold Auth.bearer. cbn [Auth.authorization].
    now rewrite (split_without_separator _ _ Hs).
  - unfold Auth.bearer. cbn [Auth.authorization].
    change (scheme ++ "  " ++ token)%string
      with (scheme ++ " " ++ (EmptyString ++ " " ++ token))%string.
    now rewrite (split_space_cons _ _ Hs), (split_space_cons EmptyString _ eq_refl).
  - unfold Auth.bearer. cbn [Auth.authorization].
    change (scheme ++ "  " ++ token)%string
      with (scheme ++ " " ++ (EmptyString ++ " " ++ token))%string.
    now rewrite (split_space_cons _ _ Hs), (split_space_cons EmptyString _ eq_refl).
Qed.

Lemma authorization_scheme_is_not_checked_witness :
  includes " " "Token" = false
  /\ includes " " "aaa.bbb.ccc" = false
  /\ "aaa.bbb.ccc" <> EmptyString
  /\ Auth.validateAzureToken demo_keys
       (Auth.mkHeaders (Some "Token aaa.bbb.ccc") None)
     = Auth.validateAzureToken demo_keys
         (Auth.mkHeaders (Some "Bearer aaa.bbb.ccc") None).
Proof.
  split; [reflexivity|]. split; [reflexivity|]. split; [discriminate|].
  exact (proj1 (authorization_scheme_is_not_checked demo_keys "Token"
                  "aaa.bbb.ccc" None eq_refl eq_refl
                  (fun H => eq_ind "aaa.bbb.ccc"%string
                              (fun s => match s with
                                        | EmptyString => False
                                        | String _ _ => True
                                        end) I EmptyString H))).
Defined.

Ltac route_cases :=
  repeat match goal with
         | |- context [match ?x with _ => _ end] =>
             lazymatch x with
             | context [match _ with _ => _ end] => fail
             | _ => destruct x eqn:?
             end
         | |- context [if ?x then _ else _] =>
             lazymatch x with
             | context [match _ with _ => _ end] => fail
             | context [if _ then _ else _] => fail
             | _ => destruct x eqn:?
             end
         end.

Lemma azure_session_issued
    (keys : Auth.Keys) (http : Auth.Http) (body : Auth.Body.t) (sessionToken : string) :
  Auth.post_auth_azure_validate keys http body = Auth.Session sessionToken ->
  exists checked encryptedToken organization token answer data,
    Auth.encryptToken keys body = Ok checked
    /\ truthy (Auth.Body.encryptedToken checked) = Some encryptedToken
    /\ truthy (Auth.Body.organization checked) = Some organization
    /\ Auth.decrypt keys encryptedToken = Ok token
    /\ http (Auth.azure_repositories_url organization)
         (Auth.Basic (":" ++ token)) = Auth.Answered answer
    /\ (Auth.answer_status answer = 200 \/ Auth.answer_status answer = 203)
    /\ Auth.answer_data answer = Some data
    /\ Auth.sign keys (Auth.Payload.make (Some "azure") (Some encryptedToken)
                         (Some organization)) = Ok sessionToken.
Proof.
  unfold Auth.post_auth_azure_validate, Auth.azure_validate_try,
    Auth.azure_validate_request, Auth.axios_get.
  destruct (Auth.encryptToken keys body) as [checked|] eqn:Hc; [|cbn; discriminate].
  destruct (truthy (Auth.Body.encryptedToken checked)) as [enc|] eqn:He;
    [|cbn; discriminate].
  destruct (truthy (Auth.Body.organization checked)) as [org|] eqn:Ho;
    [|cbn; discriminate].
  destruct (Auth.decrypt keys enc) as [tok|] eqn:Hd; [|cbn; discriminate].
  destruct (http _ _) as [answer|] eqn:Hh.
  - destruct (Auth.status_200_or_203 (Auth.answer_status answer)) eqn:Hs.
    + rewrite ?Hs.
      destruct (Auth.answer_data answer) as [data|] eqn:Hdata;
        [|cbn; discriminate].
      destruct (Auth.sign keys _) as [s|] eqn:Hsign.
      * intros [= ->]. exists checked, enc, org, tok, answer, data.
        repeat split; try assumption.
        unfold Auth.status_200_or_203 in Hs. lia.
      * route_cases; discriminate.
    + cbn. unfold Auth.status_is, Auth.response_status. cbn.
      route_cases; discriminate.
  - cbn. intros H. discriminate H.
Qed.

Lemma github_session_issued
    (keys : Auth.Keys) (http : Auth.Http) (body : Auth.Body.t) (sessionToken : string) :
  Auth.post_auth_github_validate keys http body = Auth.Session sessionToken ->
  exists checked encryptedToken token answer,
    Auth.encryptToken keys body = Ok checked
    /\ truthy (Auth.Body.encryptedToken checked) = Some encryptedToken
    /\ Auth.decrypt keys encryptedToken = Ok token
    /\ http "https://api.github.com/user" (Auth.Bearer token)
       = Auth.Answered answer
    /\ Auth.answer_status answer = 200
    /\ Auth.sign keys (Auth.Payload.make (Some "github") (Some encryptedToken)
                         None) = Ok sessionToken.
Proof.
  unfold Auth.post_auth_github_validate, Auth.github_validate_try,
    Auth.axios_get.
  destruct (Auth.encryptToken keys body) as [checked|] eqn:Hc; [|cbn; discriminate].
  destruct (truthy (Auth.Body.encryptedToken checked)) as [enc|] eqn:He;
    [|cbn; discriminate].
  destruct (Auth.decrypt keys enc) as [tok|] eqn:Hd; [|cbn; discriminate].
  destruct (http _ _) as [answer|] eqn:Hh; [|cbn; discriminate].
  destruct (Auth.status_2xx (Auth.answer_status answer)) eqn:Hs; [|cbn; discriminate].
  destruct (Auth.answer_status answer =? 200) eqn:H200; [|cbn; discriminate].
  destruct (Auth.sign keys _) as [s|] eqn:Hsign; [|cbn; discriminate].
  intros [= ->]. exists checked, enc, tok, answer.
  repeat split; try assumption. lia.
Qed.

(** X18.  The Azure validation route issues a session token exactly when
    the stored form of the token decrypts, the source host answers the
    repository listing of the organization with 200 or 203 and a body,
    and the payload is signed; the payload holds the encrypted token and
    the organization, and the decrypted token goes to the source host
    only.  Every other answer of the route is 400, 401 or 500. *)
Theorem azure_validation_replies
    (keys : Auth.Keys) (http : Auth.Http) (body : Auth.Body.t) :
  (forall sessionToken,
      Auth.post_auth_azure_validate keys http body = Auth.Session sessionToken
      <-> exists checked encryptedToken organization token answer data,
          Auth.encryptToken keys body = Ok checked
          /\ truthy (Auth.Body.encryptedToken checked) = Some encryptedToken
          /\ truthy (Auth.Body.organization checked) = Some organization
          /\ Auth.decrypt keys encryptedToken = Ok token
          /\ http (Auth.azure_repositories_url organization)
               (Auth.Basic (":" ++ token)) = Auth.Answered answer
          /\ (Auth.answer_status answer = 200 \/ Auth.answer_status answer = 203)
          /\ Auth.answer_data answer = Some data
          /\ Auth.sign keys (Auth.Payload.make (Some "azure") (Some encryptedToken)
                               (Some organization)) = Ok sessionToken)
  /\ (forall status error,
         Auth.post_auth_azure_validate keys http body = Auth.Failure status error ->
         status = 400 \/ status = 401 \/ status = 500)
  /\ (forall e,
         Auth.post_auth_azure_validate keys http body = Auth.Unhandled e ->
         exists token, truthy (Auth.Body.token body) = Some token
                       /\ Auth.encrypt keys token = Throw e).
Proof.
  split; [intros sessionToken; split|split].
  - apply azure_session_issued.
  - intros (checked & enc & org & tok & answer & data
            & Hc & He & Ho & Hd & Hh & Hs & Hdata & Hsign).
    unfold Auth.post_auth_azure_validate, Auth.azure_validate_try,
      Auth.azure_validate_request, Auth.axios_get.
    rewrite Hc, He, Ho, Hd, Hh.
    assert (Hok : Auth.status_200_or_203 (Auth.answer_status answer) = true)
      by (unfold Auth.status_200_or_203; lia).
    rewrite Hok. cbv beta iota. now rewrite Hok, Hdata, Hsign.
  - intros status error.
    unfold Auth.post_auth_azure_validate, Auth.azure_validate_try,
      Auth.azure_validate_request.
    route_cases; intros H; inversion H; lia.
  - intros e. unfold Auth.post_auth_azure_validate, Auth.encryptToken,
      Auth.azure_validate_try, Auth.azure_validate_request.
    destruct (truthy (Auth.Body.token body)) as [tok|] eqn:Ht.
    + destruct (Auth.encrypt keys tok) eqn:He.
      * route_cases; discriminate.
      * intros [= ->]. now exists tok.
    + route_cases; discriminate.
Qed.

(** X19.  The GitHub validation route issues a session token exactly when
    the stored form of the token decrypts, the target host answers
    [GET /user] with 200, and the payload is signed; the payload holds the
    encrypted token.  The handler itself never answers 500: a token that
    does not decrypt, a host that cannot be reached and a signing failure
    are all answered 401, with the message of the host when it sent one.
    The one request that gets no answer from the route is the one whose
    token [encrypt] throws on in the [encryptToken] middleware: that
    exception leaves the route. *)
Theorem github_validation_replies
    (keys : Auth.Keys) (http : Auth.Http) (body : Auth.Body.t) :
  (forall sessionToken,
      Auth.post_auth_github_validate keys http body = Auth.Session sessionToken
      <-> exists checked encryptedToken token answer,
          Auth.encryptToken keys body = Ok checked
          /\ truthy (Auth.Body.encryptedToken checked) = Some encryptedToken
          /\ Auth.decrypt keys encryptedToken = Ok token
          /\ http "https://api.github.com/user" (Auth.Bearer token)
             = Auth.Answered answer
          /\ Auth.answer_status answer = 200
          /\ Auth.sign keys (Auth.Payload.make (Some "github") (Some encryptedToken)
                               None) = Ok sessionToken)
  /\ (forall status error,
         Auth.post_auth_github_validate keys http body = Auth.Failure status error ->
         (status = 400 \/ status = 401) /\ error <> EmptyString)
  /\ (forall checked encryptedToken token status message,
         Auth.encryptToken keys body = Ok checked ->
         truthy (Auth.Body.encryptedToken checked) = Some encryptedToken ->
         Auth.decrypt keys encryptedToken = Ok token ->
         http "https://api.github.com/user" (Auth.Bearer token)
         = Auth.Answered (Auth.mkAnswer status (Some (Some message))) ->
         Auth.status_2xx status = false ->
         message <> EmptyString ->
         Auth.post_auth_github_validate keys http body = Auth.Failure 401 message)
  /\ (forall e,
         Auth.post_auth_github_validate keys http body = Auth.Unhandled e ->
         exists token, truthy (Auth.Body.token body) = Some token
                       /\ Auth.encrypt keys token = Throw e).
Proof.
  split; [intros sessionToken; split|split; [|split]].
  - apply github_session_issued.
  - intros (checked & enc & tok & answer & Hc & He & Hd & Hh & Hs & Hsign).
    unfold Auth.post_auth_github_validate, Auth.github_validate_try,
      Auth.axios_get.
    rewrite Hc, He, Hd, Hh, Hs. cbn. rewrite Hs. cbn. now rewrite Hsign.
  - intros status error.
    unfold Auth.post_auth_github_validate, Auth.github_validate_try.
    route_cases; intros [= <- <-] || discriminate.
    all: split; [lia|]; try discriminate.
    all: apply or_else_not_empty; discriminate.
  - intros checked enc tok status message Hc He Hd Hh Hs Hm.
    unfold Auth.post_auth_github_validate, Auth.github_validate_try,
      Auth.axios_get.
    rewrite Hc, He, Hd, Hh. cbn [Auth.answer_status]. rewrite Hs.
    cbn. unfold or_else. now rewrite (truthy_not_empty _ Hm).
  - intros e. unfold Auth.post_auth_github_validate, Auth.encryptToken,
      Auth.github_validate_try.
    destruct (truthy (Auth.Body.token body)) as [tok|] eqn:Ht.
    + destruct (Auth.encrypt keys tok) eqn:He.
      * route_cases; discriminate.
      * intros [= ->]. now exists tok.
    + route_cases; discriminate.
Qed.

Lemma option_string_eqb_eq (a b : option string) :
  option_string_eqb a b = true -> a = b.
Proof.
  destruct a, b; cbn; try discriminate; [|reflexivity].
  intros H. apply String.eqb_eq in H. now subst.
Qed.

Lemma payload_eqb_eq (p q : Auth.Payload.t) : payload_eqb p q = true -> p = q.
Proof.
  unfold payload_eqb. destruct p, q. cbn. intros H.
  apply andb_true_iff in H as [H H3]. apply andb_true_iff in H as [H1 H2].
  apply option_string_eqb_eq in H1, H2, H3. now subst.
Qed.

Lemma demo_keys_verify (payload : Auth.Payload.t) (sessionToken : string) :
  Auth.sign demo_keys payload = Ok sessionToken ->
  Auth.verify demo_keys sessionToken = Ok payload.
Proof.
  cbn [demo_keys Auth.sign Auth.verify].
  destruct (payload_eqb payload azure_payload) eqn:Ha.
  - apply payload_eqb_eq in Ha. subst. now intros [= <-].
  - destruct (payload_eqb payload github_payload) eqn:Hg; [|discriminate].
    apply payload_eqb_eq in Hg. subst. now intros [= <-].
Qed.

Section SessionRoundTrip.

(** Two validations and a later request that carries the two session
    tokens they issued; a token that was signed verifies (the secret has
    not changed and the eight hours are not over). *)
Variables (keys : Auth.Keys) (http : Auth.Http).
Variables (azurePat organization githubPat : string).
Variables (azureSession githubSession : string).
Hypothesis Hazure :
  Auth.post_auth_azure_validate keys http
    (Auth.Body.make (Some azurePat) None (Some organization))
  = Auth.Session azureSession.
Hypothesis Hgithub :
  Auth.post_auth_github_validate keys http (Auth.Body.make (Some githubPat) None None)
  = Auth.Session githubSession.
Hypothesis Hverify :
  forall payload sessionToken,
    Auth.sign keys payload = Ok sessionToken ->
    Auth.verify keys sessionToken = Ok payload.
Hypothesis Hword : includes " " azureSession = false.
Hypothesis Hazure_session : azureSession <> EmptyString.
Hypothesis Hgithub_session : githubSession <> EmptyString.

(** X20.  From validation to the record: a request that carries the two
    session tokens passes [validateBothTokens] with the organization and
    the two tokens in their encrypted form, these are what the intake
    route stores in the record, and decrypting them gives tokens that the
    two hosts accepted at validation.  The plaintext tokens are in
    neither session token's payload. *)
Theorem session_carries_the_encrypted_tokens :
  exists encryptedAzure encryptedGithub azureToken' githubToken',
    Auth.encrypt keys azurePat = Ok encryptedAzure
    /\ Auth.encrypt keys githubPat = Ok encryptedGithub
    /\ Auth.validateBothTokens keys
         (Auth.mkHeaders (Some ("Bearer " ++ azureSession)) (Some githubSession))
       = Auth.Next (Auth.User.make (Some "azure") (Some encryptedAzure)
                      (Some organization) (Some encryptedGithub))
    /\ (forall remoteUrl targetOrg name this,
           let record :=
             fst (MemStorage.createMigration
                    (migrationData remoteUrl targetOrg name
                       encryptedAzure encryptedGithub) this) in
           azureToken record = encryptedAzure
           /\ githubToken record = encryptedGithub)
    /\ Auth.decrypt keys encryptedAzure = Ok azureToken'
    /\ Auth.decrypt keys encryptedGithub = Ok githubToken'
    /\ (exists answer,
           http (Auth.azure_repositories_url organization)
             (Auth.Basic (":" ++ azureToken')) = Auth.Answered answer
           /\ Auth.status_200_or_203 (Auth.answer_status answer) = true)
    /\ (exists answer,
           http "https://api.github.com/user" (Auth.Bearer githubToken')
           = Auth.Answered answer
           /\ Auth.answer_status answer = 200).
Proof.
  destruct (azure_session_issued _ _ _ _ Hazure)
    as (ca & ea & org & ta & ansa & data & Hca & Hea & Horg & Hda & Hha & Hsa
        & _ & Hsigna).
  destruct (github_session_issued _ _ _ _ Hgithub)
    as (cg & eg & tg & ansg & Hcg & Heg & Hdg & Hhg & Hsg & Hsigng).
  unfold Auth.encryptToken in Hca, Hcg. cbn [Auth.Body.token] in Hca, Hcg.
  destruct (truthy (Some azurePat)) as [pa|] eqn:Hpa.
  2:{ injection Hca as <-. cbn in Hea. discriminate. }
  destruct (truthy (Some githubPat)) as [pg|] eqn:Hpg.
  2:{ injection Hcg as <-. cbn in Heg. discriminate. }
  assert (pa = azurePat) as -> by (destruct azurePat; cbn in Hpa; congruence).
  assert (pg = githubPat) as -> by (destruct githubPat; cbn in Hpg; congruence).
  destruct (Auth.encrypt keys azurePat) as [enca|] eqn:Henca; [|discriminate].
  destruct (Auth.encrypt keys githubPat) as [encg|] eqn:Hencg; [|discriminate].
  injection Hca as <-. injection Hcg as <-.
  cbn [Auth.Body.encryptedToken Auth.Body.organization] in Hea, Heg, Horg.
  assert (ea = enca) as -> by (destruct enca; cbn in Hea; congruence).
  assert (eg = encg) as -> by (destruct encg; cbn in Heg; congruence).
  assert (org = organization) as ->
      by (destruct organization; cbn in Horg; congruence).
  exists enca, encg, ta, tg.
  split; [reflexivity|]. split; [reflexivity|]. split.
  { unfold Auth.validateBothTokens.
    change ("Bearer " ++ azureSession)%string
      with ("Bearer" ++ " " ++ azureSession)%string.
    rewrite (bearer_second_word "Bearer" azureSession _ eq_refl Hword).
    rewrite (truthy_not_empty _ Hazure_session).
    cbn [Auth.x_github_token]. rewrite (truthy_not_empty _ Hgithub_session).
    rewrite (Hverify _ _ Hsigna), (Hverify _ _ Hsigng). reflexivity. }
  split; [intros; split; reflexivity|].
  split; [exact Hda|]. split; [exact Hdg|]. split.
  - exists ansa. split; [exact Hha|]. unfold Auth.status_200_or_203. lia.
  - exists ansg. split; [exact Hhg|exact Hsg].
Qed.

End SessionRoundTrip.

Lemma session_carries_the_encrypted_tokens_witness :
  Auth.post_auth_azure_validate demo_keys demo_http
    (Auth.Body.make (Some "AZ-PAT-s3cr3t") None (Some "acme"))
  = Auth.Session "aaa.bbb.ccc"
  /\ Auth.post_auth_github_validate demo_keys demo_http
       (Auth.Body.make (Some "ghp_s3cr3t") None None)
     = Auth.Session "ddd.eee.fff"
  /\ includes " " "aaa.bbb.ccc" = false
  /\ exists encryptedAzure encryptedGithub,
      Auth.validateBothTokens demo_keys
        (Auth.mkHeaders (Some "Bearer aaa.bbb.ccc") (Some "ddd.eee.fff"))
      = Auth.Next (Auth.User.make (Some "azure") (Some encryptedAzure)
                     (Some "acme") (Some encryptedGithub)).
Proof.
  split; [reflexivity|]. split; [reflexivity|]. split; [reflexivity|].
  destruct (session_carries_the_encrypted_tokens demo_keys demo_http
              "AZ-PAT-s3cr3t" "acme" "ghp_s3cr3t" "aaa.bbb.ccc" "ddd.eee.fff"
              eq_refl eq_refl demo_keys_verify eq_refl
              ltac:(discriminate) ltac:(discriminate))
    as (ea & eg & _ & _ & _ & _ & H & _).
  exists ea, eg. exact H.
Defined.

(** ** The client *)

Section OneTurn.

Variables (network : Client.Network).
Variables (endpoint existing githubSessionToken : string) (body : Client.Body.t).

Let post : Client.Effect := Client.Post endpoint githubSessionToken body.
Let lookup : Client.Effect := Client.Get existing githubSessionToken.

Lemma read_failure_spec (response : Client.Response) (tr : list Client.Effect) :
  let read := Client.read_failure network existing githubSessionToken response tr in
  (snd read = tr
   \/ (snd read = lookup :: tr /\ Client.status response = 422))
  /\ forall data, fst read = inl data ->
       exists answer,
         snd read = lookup :: tr
         /\ network tr lookup = Client.Resolved answer
         /\ Client.ok answer = true
         /\ Client.json answer = Some data.
Proof.
  unfold Client.read_failure. fold lookup.
  destruct (Client.json response) as [errorData|];
    [|split; [now left|discriminate]].
  destruct (Client.status response =? 422) eqn:H422;
    [|split; [now left|discriminate]].
  destruct (Client.says_already_exists errorData);
    [|split; [now left|discriminate]].
  cbn [andb]. apply Z.eqb_eq in H422.
  destruct (network tr lookup) as [answer|] eqn:Hn;
    [|split; [now right|discriminate]].
  destruct (Client.ok answer) eqn:Hok; [|split; [now right|discriminate]].
  destruct (Client.json answer) as [data|] eqn:Hj;
    [|split; [now right|discriminate]].
  split; [now right|]. intros d [= <-]. now exists answer.
Qed.

Lemma retryable_status_not_422 (status : Z) :
  Client.retryable_status status = true -> status <> 422.
Proof. unfold Client.retryable_status. lia. Qed.

Lemma retryable_status_not_ok (response : Client.Response) :
  Client.retryable_status (Client.status response) = true ->
  Client.ok response = false.
Proof. unfold Client.retryable_status, Client.ok. lia. Qed.

(** One turn of the loop, by the answer to its creation request. *)
Lemma attempt_once_spec (attempt : Z) (tr : list Client.Effect) :
  let turn := Client.attempt_once network endpoint existing githubSessionToken
                body attempt tr in
  (if Client.retryable (network tr post)
   then if attempt =? Client.maxRetries
        then (exists error, fst turn = Client.Raise error
                            /\ Client.name error = "Error")
             /\ snd turn = post :: tr
        else (exists error, fst turn = Client.Continue error)
             /\ (snd turn = post :: tr
                 \/ snd turn = Client.Wait (attempt * 1000) :: post :: tr)
   else (forall error, fst turn <> Client.Continue error)
        /\ (snd turn = post :: tr \/ snd turn = lookup :: post :: tr))
  /\ forall data, fst turn = Client.Return data ->
       exists request older answer,
         snd turn = request :: older
         /\ network older request = Client.Resolved answer
         /\ Client.ok answer = true
         /\ Client.json answer = Some data.
Proof.
  unfold Client.attempt_once, Client.attempt_try. fold post.
  destruct (network tr post) as [response|error] eqn:Hn; cbn [Client.retryable].
  - destruct (Client.retryable_status (Client.status response)) eqn:Hr.
    + rewrite (retryable_status_not_ok _ Hr). cbn [negb].
      destruct (read_failure_spec response (post :: tr)) as [Htr Hdata].
      destruct (Client.read_failure _ _ _ _ _) as [[data|errorMessage] tr'].
      * exfalso. destruct (Hdata data eq_refl) as (answer & Hl & _).
        cbn [snd] in Htr, Hl.
        destruct Htr as [Htr|[_ H422]];
          [rewrite Htr in Hl; apply (f_equal (@List.length _)) in Hl;
           cbn in Hl; lia
          |now apply (retryable_status_not_422 _ Hr)].
      * cbn [snd] in Htr.
        destruct Htr as [->|[_ H422]];
          [|now apply retryable_status_not_422 in Hr].
        destruct (attempt =? Client.maxRetries); cbn.
        -- split; [|discriminate]. split; [|reflexivity]. now eexists.
        -- split; [|discriminate]. split; [now eexists|now right].
    + destruct (Client.ok response) eqn:Hok; cbn [negb].
      * destruct (Client.json response) as [data|] eqn:Hj; cbn.
        -- split; [split; [discriminate|now left]|].
           intros d [= <-]. now exists post, tr, response.
        -- split; [split; [discriminate|now left]|discriminate].
      * destruct (read_failure_spec response (post :: tr)) as [Htr Hdata].
        destruct (Client.read_failure _ _ _ _ _) as [[data|errorMessage] tr'].
        -- cbn [fst snd] in *. split.
           ++ split; [discriminate|].
              destruct Htr as [->|[-> _]]; [now left|now right].
           ++ intros d [= <-].
              destruct (Hdata data eq_refl) as (answer & -> & Ha & Hok' & Hj).
              now exists lookup, (post :: tr), answer.
        -- cbn [fst snd] in *. split; [|discriminate].
           split; [discriminate|].
           destruct Htr as [->|[-> _]]; [now left|now right].
  - destruct (String.eqb (Client.name error) "TimeoutError") eqn:Ht.
    + destruct (attempt =? Client.maxRetries); cbn.
      * split; [|discriminate]. split; [|reflexivity]. now eexists.
      * split; [|discriminate]. split; [now eexists|now left].
    + cbn. split; [|discriminate]. split; [discriminate|now left].
Qed.

End OneTurn.

Ltac added_since l tl :=
  lazymatch l with
  | tl => constr:(@nil Client.Effect)
  | ?x :: ?rest => let r := added_since rest tl in constr:(x :: r)
  end.

(** The turns of a run, one after the other: [turn_cases] splits on the
    answer to the creation request of the turn [n] that starts at [tr0]. *)
Ltac turn_cases network e x t b n tr0 :=
  let step := fresh "step" in
  let tr' := fresh "tr" in
  let Hshape := fresh "Hshape" in
  let Hdata := fresh "Hdata" in
  let Hanswer := fresh "Hanswer" in
  destruct (attempt_once_spec network e x t b n tr0) as [Hshape Hdata];
  destruct (Client.attempt_once network e x t b n tr0) as [step tr'];
  cbn [fst snd] in Hshape, Hdata;
  destruct (Client.retryable (network tr0 (Client.Post e t b))) eqn:Hanswer;
  [ change (n =? Client.maxRetries) with false in Hshape
    || change (n =? Client.maxRetries) with true in Hshape;
    cbv beta iota in Hshape
  | ];
  [ first [ destruct Hshape as [[? [-> ?]] ->]
          | destruct Hshape as [[? ->] [-> | ->]] ]
  | destruct Hshape as [Hshape [-> | ->]];
    (destruct step; [| |exfalso; eapply Hshape; reflexivity]) ].

(** X21.  Without a session token nothing is sent.  With one, the function
    sends the creation request between one and three times, each time the
    same request with the normalized name; it waits at most twice, 1000 ms
    after a first attempt and 2000 ms after a second, never after its last
    attempt; and it looks the repository up at most once, under the
    normalized name, as the last thing it does.  Each wait sits between
    two creation requests and lasts 1000 ms times the number of the attempt
    before it. *)
Theorem creation_requests
    (network : Client.Network) (stored : option string)
    (token owner name : string) (isPrivate isOrg : bool)
    (tr : list Client.Effect) :
  let run := Client.createGitHubRepository network stored token owner name
               isPrivate isOrg tr in
  match truthy stored with
  | None =>
      run = (Client.Thrown (Client.Error "GitHub session token is required"), tr)
  | Some githubSessionToken =>
      let sanitizedName := Client.sanitizeRepoName name in
      let post := Client.Post (Client.endpoint_of owner isOrg) githubSessionToken
                    (Client.Body.make sanitizedName isPrivate true
                       "Repository migrated from Azure DevOps") in
      let lookup := Client.Get (Client.existing_of owner sanitizedName isOrg)
                      githubSessionToken in
      normalized sanitizedName = true
      /\ exists (added : list Client.Effect) (k : nat),
          snd run = (added ++ tr)%list
          /\ (1 <= k <= 3)%nat
          /\ filter Client.is_post added = repeat post k
          /\ In (Client.waits added) [[]; [1000]; [2000]; [1000; 2000]]
          /\ (List.length (Client.waits added) < k)%nat
          /\ (filter Client.is_get added = []
              \/ exists older, added = lookup :: older
                               /\ filter Client.is_get older = [])
          /\ Client.paced 1 (rev added) = true
  end.
Proof.
  intros run. subst run. unfold Client.createGitHubRepository.
  destruct (truthy stored) as [t|]; [|reflexivity].
  split; [apply sanitizeRepoName_normalized|].
  set (sanitizedName := Client.sanitizeRepoName name). unfold Client.body_of.
  set (e := Client.endpoint_of owner isOrg).
  set (x := Client.existing_of owner sanitizedName isOrg).
  set (b := Client.Body.make sanitizedName isPrivate true _).
  cbn [Client.attempts].
  turn_cases network e x t b 1 tr.
  all: try match goal with
           | |- context [Client.attempt_once ?net ?e ?x ?t ?b 2 ?tr0] =>
               turn_cases net e x t b 2 tr0
           end.
  all: try match goal with
           | |- context [Client.attempt_once ?net ?e ?x ?t ?b 3 ?tr0] =>
               turn_cases net e x t b 3 tr0
           end.
  all: set (post := Client.Post e t b); set (lookup := Client.Get x t);
    cbn [snd].
  all: match goal with
       | |- exists added k, ?l = _ /\ _ =>
           let p := added_since l tr in exists p
       end.
  all: first [ exists 1%nat; split; [reflexivity|]; split; [lia|];
               split; [reflexivity|]
             | exists 2%nat; split; [reflexivity|]; split; [lia|];
               split; [reflexivity|]
             | exists 3%nat; split; [reflexivity|]; split; [lia|];
               split; [reflexivity|] ].
  all: cbn [Client.waits app List.length Z.mul Pos.mul].
  all: split; [cbn; tauto|]; split; [cbn; lia|].
  all: split;
    [first [ left; reflexivity | right; eexists; split; reflexivity ]
    |subst post lookup; reflexivity].
Qed.

(** X22.  Data that the function returns is what the server sent: the last
    request of the run, the creation request or the look-up, was answered
    with a status from 200 to 299 and this JSON body. *)
Theorem returned_data_is_the_last_answer
    (network : Client.Network) (stored : option string)
    (token owner name : string) (isPrivate isOrg : bool)
    (tr : list Client.Effect) (data : Client.Json) :
  let run := Client.createGitHubRepository network stored token owner name
               isPrivate isOrg tr in
  fst run = Client.Returned data ->
  exists request older answer,
    snd run = request :: older
    /\ network older request = Client.Resolved answer
    /\ Client.ok answer = true
    /\ Client.json answer = Some data.
Proof.
  intros run. subst run. unfold Client.createGitHubRepository.
  destruct (truthy stored) as [t|]; [|discriminate].
  set (sanitizedName := Client.sanitizeRepoName name).
  set (e := Client.endpoint_of owner isOrg).
  set (x := Client.existing_of owner sanitizedName isOrg).
  set (b := Client.body_of sanitizedName isPrivate).
  cbn [Client.attempts].
  turn_cases network e x t b 1 tr.
  all: try match goal with
           | |- context [Client.attempt_once ?net ?e ?x ?t ?b 2 ?tr0] =>
               turn_cases net e x t b 2 tr0
           end.
  all: try match goal with
           | |- context [Client.attempt_once ?net ?e ?x ?t ?b 3 ?tr0] =>
               turn_cases net e x t b 3 tr0
           end.
  all: cbn [fst snd]; try discriminate.
  all: intros [= <-].
  all: match goal with
       | H : forall d, Client.Return ?data = Client.Return d -> _ |- _ =>
           exact (H data eq_refl)
       end.
Qed.

Lemma returned_data_is_the_last_answer_witness :
  fst (Client.createGitHubRepository network_existing (Some "ddd.eee.fff")
         "ghp_s3cr3t" "octo" "My Repo" true false [])
  = Client.Returned [("name", "my-repo");
                     ("html_url", "https://github.com/octo/my-repo")]
  /\ exists request older answer,
      snd (Client.createGitHubRepository network_existing (Some "ddd.eee.fff")
             "ghp_s3cr3t" "octo" "My Repo" true false [])
      = request :: older
      /\ network_existing older request = Client.Resolved answer
      /\ Client.ok answer = true
      /\ Client.json answer
         = Some [("name", "my-repo");
                 ("html_url", "https://github.com/octo/my-repo")].
Proof.
  split; [vm_compute; reflexivity|].
  exact (returned_data_is_the_last_answer network_existing (Some "ddd.eee.fff")
           "ghp_s3cr3t" "octo" "My Repo" true false [] _ eq_refl).
Defined.

Section AfterTheFirstAnswer.

Variables (network : Client.Network) (stored : option string).
Variables (token owner name : string) (isPrivate isOrg : bool).
Variables (tr : list Client.Effect) (githubSessionToken : string).
Hypothesis Hstored : truthy stored = Some githubSessionToken.

Let sanitizedName : string := Client.sanitizeRepoName name.
Let post : Client.Effect :=
  Client.Post (Client.endpoint_of owner isOrg) githubSessionToken
    (Client.body_of sanitizedName isPrivate).
Let lookup : Client.Effect :=
  Client.Get (Client.existing_of owner sanitizedName isOrg) githubSessionToken.
Let run : Client.Outcome * list Client.Effect :=
  Client.createGitHubRepository network stored token owner name isPrivate isOrg tr.

(** X23.  A failure that is neither a time-out nor a 502, 503 or 504 is
    not retried: one creation request, no wait.  When the answer is a
    failure status other than 422 with a JSON body, the function throws
    an [Error] whose message is the [error] of the body, else its
    [message], else the status; with a body that is not JSON, the status
    text. *)
Theorem other_failures_are_not_retried :
  Client.retryable (network tr post) = false ->
  (snd run = post :: tr \/ snd run = lookup :: post :: tr)
  /\ (forall response,
         network tr post = Client.Resolved response ->
         Client.ok response = false ->
         Client.status response <> 422 ->
         run = (Client.Thrown
                  (Client.Error
                     match Client.json response with
                     | Some errorData =>
                         or_else (Client.get "error" errorData)
                           (or_else (Client.get "message" errorData)
                              ("Failed to create repository (HTTP "
                               ++ number_toString (Client.status response) ++ ")"))
                     | None =>
                         "Failed to create repository: "
                         ++ Client.statusText response
                     end),
                post :: tr))
  /\ (forall error,
         network tr post = Client.Rejected error ->
         run = (Client.Thrown error, post :: tr)).
Proof.
  intros Hanswer. subst run. unfold Client.createGitHubRepository.
  rewrite Hstored. fold sanitizedName. cbn [Client.attempts].
  split; [|split].
  - destruct (attempt_once_spec network (Client.endpoint_of owner isOrg)
                (Client.existing_of owner sanitizedName isOrg)
                githubSessionToken (Client.body_of sanitizedName isPrivate) 1 tr)
      as [Hshape _].
    fold post lookup in Hshape. rewrite Hanswer in Hshape.
    destruct (Client.attempt_once _ _ _ _ _ _ _) as [step tr'].
    cbn [fst snd] in Hshape. destruct Hshape as [Hstep Htr].
    destruct step; [exact Htr|exact Htr|].
    exfalso. eapply Hstep. reflexivity.
  - intros response Hn Hok H422.
    unfold Client.attempt_once, Client.attempt_try, Client.read_failure.
    fold post. rewrite Hn in Hanswer |- *. cbn [Client.retryable] in Hanswer.
    rewrite Hok, Hanswer. cbn [negb].
    apply Z.eqb_neq in H422. rewrite H422. cbn [andb].
    now destruct (Client.json response).
  - intros error Hn.
    unfold Client.attempt_once, Client.attempt_try.
    fold post. rewrite Hn in Hanswer |- *. cbn [Client.retryable] in Hanswer.
    now rewrite Hanswer.
Qed.

(** X24.  When every creation request times out or is answered 502, 503 or
    504, the function gives up after the third: it throws an [Error], it
    has sent three creation requests and no look-up, and nothing follows
    the third request.  After a time-out the next request is sent at
    once: with three time-outs there is no wait at all. *)
Theorem gives_up_after_three_attempts :
  (forall history, Client.retryable (network history post) = true) ->
  (exists error added,
      run = (Client.Thrown error, (post :: added ++ [post])%list ++ tr)%list
      /\ Client.name error = "Error"
      /\ filter Client.is_post added = [post]
      /\ filter Client.is_get added = [])
  /\ ((forall history, exists error, network history post = Client.Rejected error) ->
      run = (Client.Thrown
               (Client.Error "Request timed out while creating repository"),
             post :: post :: post :: tr)).
Proof.
  intros Hretry. subst run. unfold Client.createGitHubRepository.
  rewrite Hstored. fold sanitizedName.
  set (e := Client.endpoint_of owner isOrg).
  set (x := Client.existing_of owner sanitizedName isOrg).
  set (b := Client.body_of sanitizedName isPrivate).
  cbn [Client.attempts]. split.
  - turn_cases network e x githubSessionToken b 1 tr;
      [| |rewrite Hretry in *; discriminate ..].
    all: match goal with
         | |- context [Client.attempt_once ?net ?e ?x ?t ?b 2 ?tr0] =>
             turn_cases net e x t b 2 tr0;
               [| |rewrite Hretry in *; discriminate ..]
         end.
    all: match goal with
         | |- context [Client.attempt_once ?net ?e ?x ?t ?b 3 ?tr0] =>
             turn_cases net e x t b 3 tr0;
               [|rewrite Hretry in *; discriminate ..]
         end.
    all: subst e x b; fold post.
    all: match goal with
         | H : Client.name ?err = _ |- _ => exists err
         end.
    all: match goal with
         | |- exists added, (_, post :: ?l) = _ /\ _ =>
             let p := added_since l (post :: tr) in exists p
         end.
    all: repeat split; first [assumption | reflexivity].
  - intros Htimeout. subst e x b.
    assert (Hturn : forall n history,
               Client.attempt_once network (Client.endpoint_of owner isOrg)
                 (Client.existing_of owner sanitizedName isOrg)
                 githubSessionToken (Client.body_of sanitizedName isPrivate)
                 n history
               = (if n =? Client.maxRetries
                  then Client.Raise (Client.Error "Request timed out while creating repository")
                  else Client.Continue (Client.Error "Request timed out while creating repository"),
                  post :: history)).
    { intros n history. unfold Client.attempt_once, Client.attempt_try.
      fold post. specialize (Hretry history).
      destruct (Htimeout history) as [error Hn]. rewrite Hn in Hretry |- *.
      cbn [Client.retryable] in Hretry. rewrite Hretry.
      now destruct (n =? Client.maxRetries). }
    rewrite !Hturn. reflexivity.
Qed.

(** X25.  A repository that exists already is adopted: when the creation
    request is answered 422 with a message that has "already exists" in
    it, the function looks the repository up under the normalized name
    and returns what it gets, without a second creation request.  When
    the look-up is not answered with a status from 200 to 299, the
    function throws the message of the 422 answer instead. *)
Theorem existing_repository_is_adopted (response : Client.Response)
    (errorData : Client.Json) (message : string) :
  network tr post = Client.Resolved response ->
  Client.status response = 422 ->
  Client.json response = Some errorData ->
  Client.get "message" errorData = Some message ->
  includes "already exists" message = true ->
  (forall existingRepo data,
      network (post :: tr) lookup = Client.Resolved existingRepo ->
      Client.ok existingRepo = true ->
      Client.json existingRepo = Some data ->
      run = (Client.Returned data, lookup :: post :: tr))
  /\ (forall existingRepo,
         network (post :: tr) lookup = Client.Resolved existingRepo ->
         Client.ok existingRepo = false ->
         run = (Client.Thrown
                  (Client.Error (or_else (Client.get "error" errorData) message)),
                lookup :: post :: tr)).
Proof.
  intros Hn H422 Hjson Hmessage Hexists. subst run.
  unfold Client.createGitHubRepository.
  rewrite Hstored. fold sanitizedName. cbn [Client.attempts].
  unfold Client.attempt_once, Client.attempt_try, Client.read_failure.
  fold post lookup. rewrite Hn.
  assert (Hok : Client.ok response = false)
    by (unfold Client.ok; rewrite H422; reflexivity).
  rewrite Hok, Hjson, H422. cbn [negb Z.eqb Pos.eqb andb].
  unfold Client.says_already_exists. rewrite Hmessage, Hexists.
  split.
  - intros existingRepo data -> -> ->. reflexivity.
  - intros existingRepo -> ->.
    unfold Client.described. rewrite Hmessage.
    assert (Hm : forall dflt, or_else (Some message) dflt = message).
    { intros dflt. unfold or_else.
      destruct message; [discriminate Hexists|reflexivity]. }
    rewrite Hm. reflexivity.
Qed.

End AfterTheFirstAnswer.

Lemma other_failures_are_not_retried_witness :
  truthy (Some "ddd.eee.fff") = Some "ddd.eee.fff"
  /\ Client.retryable
       (network_unauthorized []
          (Client.Post (Client.endpoint_of "octo" false) "ddd.eee.fff"
             (Client.body_of (Client.sanitizeRepoName "My Repo") true)))
     = false
  /\ Client.createGitHubRepository network_unauthorized (Some "ddd.eee.fff")
       "ghp_s3cr3t" "octo" "My Repo" true false []
     = (Client.Thrown (Client.Error "Bad credentials"),
        [Client.Post "/api/github/user/repositories" "ddd.eee.fff"
           (Client.body_of "my-repo" true)]).
Proof.
  split; [reflexivity|]. split; [reflexivity|].
  exact (proj1 (proj2
           (other_failures_are_not_retried network_unauthorized
              (Some "ddd.eee.fff") "ghp_s3cr3t" "octo" "My Repo" true false []
              "ddd.eee.fff" eq_refl eq_refl))
           (Client.mkResponse 401 "Unauthorized"
              (Some [("error", "Bad credentials")]))
           eq_refl eq_refl ltac:(discriminate)).
Defined.

Lemma gives_up_after_three_attempts_witness :
  truthy (Some "ddd.eee.fff") = Some "ddd.eee.fff"
  /\ (forall history,
         Client.retryable
           (network_unavailable history
              (Client.Post (Client.endpoint_of "octo" false) "ddd.eee.fff"
                 (Client.body_of (Client.sanitizeRepoName "My Repo") true)))
         = true)
  /\ exists error added,
      Client.createGitHubRepository network_unavailable (Some "ddd.eee.fff")
        "ghp_s3cr3t" "octo" "My Repo" true false []
      = (Client.Thrown error,
         (Client.Post (Client.endpoint_of "octo" false) "ddd.eee.fff"
            (Client.body_of (Client.sanitizeRepoName "My Repo") true)
          :: added
          ++ [Client.Post (Client.endpoint_of "octo" false) "ddd.eee.fff"
                (Client.body_of (Client.sanitizeRepoName "My Repo") true)])
         ++ [])%list
      /\ Client.name error = "Error".
Proof.
  split; [reflexivity|]. split; [intros history; reflexivity|].
  destruct (proj1 (gives_up_after_three_attempts network_unavailable
                     (Some "ddd.eee.fff") "ghp_s3cr3t" "octo" "My Repo" true
                     false [] "ddd.eee.fff" eq_refl (fun _ => eq_refl)))
    as (error & added & Hrun & Hname & _).
  exists error, added. split; [exact Hrun|exact Hname].
Defined.

Lemma existing_repository_is_adopted_witness :
  truthy (Some "ddd.eee.fff") = Some "ddd.eee.fff"
  /\ includes "already exists" "name already exists on this account" = true
  /\ Client.createGitHubRepository network_existing (Some "ddd.eee.fff")
       "ghp_s3cr3t" "octo" "My Repo" true false []
     = (Client.Returned [("name", "my-repo");
                         ("html_url", "https://github.com/octo/my-repo")],
        [Client.Get "/api/github/user/repositories/my-repo" "ddd.eee.fff";
         Client.Post "/api/github/user/repositories" "ddd.eee.fff"
           (Client.body_of "my-repo" true)]).
Proof.
  split; [reflexivity|]. split; [reflexivity|].
  exact (proj1
           (existing_repository_is_adopted network_existing
              (Some "ddd.eee.fff") "ghp_s3cr3t" "octo" "My Repo" true false []
              "ddd.eee.fff" eq_refl
              (Client.mkResponse 422 "Unprocessable Entity"
                 (Some [("message", "name already exists on this account")]))
              [("message", "name already exists on this account")]
              "name already exists on this account"
              eq_refl eq_refl eq_refl eq_refl eq_refl)
           (Client.mkResponse 200 "OK"
              (Some [("name", "my-repo");
                     ("html_url", "https://github.com/octo/my-repo")]))
           [("name", "my-repo"); ("html_url", "https://github.com/octo/my-repo")]
           eq_refl eq_refl eq_refl).
Defined.
